(** * Research assistant backend: workflow steps, router, graph and endpoints

    A shallow embedding of [app/state.py], [app/agents.py], [app/graph.py]
    and [main.py].

    Conventions of the embedding.
    - A Python [str] is a Rocq [string] holding its UTF-8 bytes.  The
      pattern of [retrieve_info] is matched on the code points the bytes
      decode to, with the whitespace and decimal-digit classes of Python's
      [re] on [str] (those of the Unicode database).  Case mapping and
      [strip] are those of the ASCII range: the two tokens the router looks
      for consist of ASCII letters no other character lower-cases to, so its
      decision is the same on code points and on bytes, and the only texts
      the steps strip are empty or start with an ASCII letter, so whether
      they are blank does not depend on the class.
    - [AgentState] is a [TypedDict]; at run time it is a dictionary in which
      any key can be missing.  It is a record of options: [None] is a missing
      key.  A step's return value (a partial dictionary) has the same type.
    - The LLM and the search tool are oracles that see the history of calls;
      every call is appended to a log, so that "calls" and "does not call"
      are statements about the log.
    - langgraph (StateGraph, the MemorySaver checkpointer, [astream],
      [update_state]) is a third-party library.  Section [Workflow] models
      the part of its execution semantics the endpoints rely on. *)

From Stdlib Require Import Ascii String NArith.
From stdpp Require Import base option list strings gmap.

Local Open Scope list_scope.

(** ** Strings *)

Definition nl : ascii := "010"%char.

(** [str.isspace] on the ASCII range: TAB..CR, FS..US and the space. *)
Definition is_space (c : ascii) : bool :=
  let n := nat_of_ascii c in
  (((9 <=? n) && (n <=? 13)) || ((28 <=? n) && (n <=? 31)) || (n =? 32))%nat.

Definition lower_char (c : ascii) : ascii :=
  let n := nat_of_ascii c in
  if ((65 <=? n) && (n <=? 90))%nat then ascii_of_nat (n + 32)%nat else c.

(** [s.lower()] *)
Fixpoint lower (s : string) : string :=
  match s with
  | "" => ""
  | String c s' => String (lower_char c) (lower s')
  end.

(** [needle in hay] *)
Fixpoint str_in (needle hay : string) : bool :=
  String.prefix needle hay ||
  match hay with
  | "" => false
  | String _ hay' => str_in needle hay'
  end.

Fixpoint lstrip (s : string) : string :=
  match s with
  | "" => ""
  | String c s' => if is_space c then lstrip s' else s
  end.

Fixpoint rstrip (s : string) : string :=
  match s with
  | "" => ""
  | String c s' =>
      match rstrip s' with
      | "" => if is_space c then "" else String c ""
      | r => String c r
      end
  end.

(** [s.strip()] *)
Definition strip (s : string) : string := rstrip (lstrip s).

(** [sep.join(parts)] *)
Fixpoint join (sep : string) (parts : list string) : string :=
  match parts with
  | [] => ""
  | [p] => p
  | p :: rest => p +:+ sep +:+ join sep rest
  end.

(** Python truthiness of an optional string ([None] and [""] are falsy). *)
Definition truthy (o : option string) : bool :=
  match o with
  | Some (String _ _) => true
  | _ => false
  end.

(** ** Code points

    The characters of a text: the code points its UTF-8 bytes decode to.  (A
    [string] that is not the UTF-8 of a text stands for no Python [str]; the
    decoder is total on it all the same.) *)

Fixpoint utf8_decode (s : string) : list N :=
  match s with
  | "" => []
  | String b0 s1 =>
      let n0 := N_of_ascii b0 in
      if (n0 <? 192)%N then n0 :: utf8_decode s1
      else
        match s1 with
        | "" => []
        | String b1 s2 =>
            let n1 := (N_of_ascii b1 mod 64)%N in
            if (n0 <? 224)%N then ((n0 - 192) * 64 + n1)%N :: utf8_decode s2
            else
              match s2 with
              | "" => []
              | String b2 s3 =>
                  let n2 := (N_of_ascii b2 mod 64)%N in
                  if (n0 <? 240)%N
                  then ((n0 - 224) * 4096 + n1 * 64 + n2)%N :: utf8_decode s3
                  else
                    match s3 with
                    | "" => []
                    | String b3 s4 =>
                        let n3 := (N_of_ascii b3 mod 64)%N in
                        ((n0 - 240) * 262144 + n1 * 4096 + n2 * 64 + n3)%N
                        :: utf8_decode s4
                    end
              end
        end
  end.

Definition utf8_encode_char (c : N) : string :=
  let b (n : N) : ascii := ascii_of_N n in
  if (c <? 128)%N then String (b c) ""
  else if (c <? 2048)%N then
    String (b (192 + c / 64)%N) (String (b (128 + c mod 64)%N) "")
  else if (c <? 65536)%N then
    String (b (224 + c / 4096)%N)
      (String (b (128 + (c / 64) mod 64)%N)
         (String (b (128 + c mod 64)%N) ""))
  else
    String (b (240 + c / 262144)%N)
      (String (b (128 + (c / 4096) mod 64)%N)
         (String (b (128 + (c / 64) mod 64)%N)
            (String (b (128 + c mod 64)%N) ""))).

Fixpoint utf8_encode (t : list N) : string :=
  match t with
  | [] => ""
  | c :: t' => utf8_encode_char c +:+ utf8_encode t'
  end.

Definition newline : N := 10.
Definition full_stop : N := 46.

(** The class of [\s] in a pattern on [str]: the characters for which
    [str.isspace] holds. *)
Definition whitespace : list N :=
  [9; 10; 11; 12; 13; 28; 29; 30; 31; 32; 133; 160; 5760; 8192; 8193; 8194;
   8195; 8196; 8197; 8198; 8199; 8200; 8201; 8202; 8232; 8233; 8239; 8287;
   12288]%N.

Definition is_space_cp (c : N) : bool := existsb (N.eqb c) whitespace.

(** The class of [\d] in a pattern on [str]: the characters for which
    [str.isdecimal] holds, as runs of consecutive code points, each given by
    its first code point and its length (Unicode 14.0, the database of
    Python 3.11). *)
Definition decimal_runs : list (N * N) :=
  [(48, 10); (1632, 10); (1776, 10); (1984, 10); (2406, 10); (2534, 10);
   (2662, 10); (2790, 10); (2918, 10); (3046, 10); (3174, 10); (3302, 10);
   (3430, 10); (3558, 10); (3664, 10); (3792, 10); (3872, 10); (4160, 10);
   (4240, 10); (6112, 10); (6160, 10); (6470, 10); (6608, 10); (6784, 10);
   (6800, 10); (6992, 10); (7088, 10); (7232, 10); (7248, 10); (42528, 10);
   (43216, 10); (43264, 10); (43472, 10); (43504, 10); (43600, 10);
   (44016, 10); (65296, 10); (66720, 10); (68912, 10); (69734, 10);
   (69872, 10); (69942, 10); (70096, 10); (70384, 10); (70736, 10);
   (70864, 10); (71248, 10); (71360, 10); (71472, 10); (71904, 10);
   (72016, 10); (72784, 10); (73040, 10); (73120, 10); (92768, 10);
   (92864, 10); (93008, 10); (120782, 50); (123200, 10); (123632, 10);
   (125264, 10); (130032, 10)]%N.

Definition is_decimal_cp (c : N) : bool :=
  existsb (fun r => (fst r <=? c)%N && (c <? fst r + snd r)%N) decimal_runs.

Arguments is_space_cp : simpl never.
Arguments is_decimal_cp : simpl never.

(** ** The regular expression of [retrieve_info]

    [re.findall] with [re.MULTILINE] and the pattern: anchor, any run of
    whitespace, one or more digits, a literal dot, any run of whitespace, and
    one group capturing the rest of the line.  Every quantifier of the
    pattern is followed by a character its class excludes (or by nothing), so
    greedy matching never backtracks: the match at a position is the longest
    run of each class in turn. *)

Fixpoint skip_spaces (s : list N) : nat * list N :=
  match s with
  | c :: s' =>
      if is_space_cp c then let '(n, r) := skip_spaces s' in (S n, r)
      else (0%nat, s)
  | [] => (0%nat, [])
  end.

Fixpoint skip_digits (s : list N) : nat * list N :=
  match s with
  | c :: s' =>
      if is_decimal_cp c then let '(n, r) := skip_digits s' in (S n, r)
      else (0%nat, s)
  | [] => (0%nat, [])
  end.

(** The captured group: the dot matches everything but a newline. *)
Fixpoint take_line (s : list N) : list N :=
  match s with
  | c :: s' => if (c =? newline)%N then [] else c :: take_line s'
  | [] => []
  end.

(** The pattern after the anchor, matched at the head of [s]: the captured
    group and the length of the whole match. *)
Definition match_numbered (s : list N) : option (list N * nat) :=
  let '(n1, s1) := skip_spaces s in
  match skip_digits s1 with
  | (S n2, c :: s3) =>
      if (c =? full_stop)%N then
        let '(n3, s4) := skip_spaces s3 in
        let cap := take_line s4 in
        Some (cap, (n1 + S n2 + 1 + n3 + length cap)%nat)
      else None
  | _ => None
  end.

(** The scan of [findall]: positions are tried from left to right; [bol]
    says whether the anchor holds at the current position (start of the
    text, or just after a newline); after a match the scan resumes at its
    end, that is, skips the [skip] characters it consumed. *)
Fixpoint findall_scan (bol : bool) (skip : nat) (s : list N)
  : list (list N) :=
  match s with
  | [] => []
  | c :: s' =>
      match skip with
      | S k => findall_scan (c =? newline)%N k s'
      | O =>
          match (if bol then match_numbered s else None) with
          | Some (cap, len) =>
              cap :: findall_scan (c =? newline)%N (pred len) s'
          | None => findall_scan (c =? newline)%N 0%nat s'
          end
      end
  end.

Definition findall_numbered (plan : string) : list string :=
  map utf8_encode (findall_scan true 0%nat (utf8_decode plan)).

(** ** State ([app/state.py]) *)

Record research_result := { source : string; content : string }.

Inductive prompt :=
| PlanPrompt | SummarizePrompt | FactCheckPrompt | FinalAnswerPrompt | FollowUpPrompt.

(** A chain [prompt | llm | StrOutputParser()] is determined by its prompt. *)
Definition chain := prompt.

Record AgentState := {
  thread_id : option string;
  query : option string;
  original_query : option string;
  research_plan : option string;
  raw_research_results : option (list research_result);
  summary : option string;
  fact_check_results : option string;
  messages : option (list (list (string * string)));
  final_chain : option (option chain);
  final_chain_inputs : option (list (string * string))
}.

(** The empty dictionary. *)
Definition no_keys : AgentState :=
  {| thread_id := None; query := None; original_query := None;
     research_plan := None; raw_research_results := None; summary := None;
     fact_check_results := None; messages := None; final_chain := None;
     final_chain_inputs := None |}.

(** Dictionaries with one key, as the steps return them. *)
Definition only_research_plan (plan : option string) : AgentState :=
  {| thread_id := None; query := None; original_query := None;
     research_plan := plan; raw_research_results := None; summary := None;
     fact_check_results := None; messages := None; final_chain := None;
     final_chain_inputs := None |}.

Definition only_raw_research_results (all_results : list research_result)
  : AgentState :=
  {| thread_id := None; query := None; original_query := None;
     research_plan := None; raw_research_results := Some all_results;
     summary := None; fact_check_results := None; messages := None;
     final_chain := None; final_chain_inputs := None |}.

Definition only_summary (s : string) : AgentState :=
  {| thread_id := None; query := None; original_query := None;
     research_plan := None; raw_research_results := None;
     summary := Some s; fact_check_results := None; messages := None;
     final_chain := None; final_chain_inputs := None |}.

Definition only_fact_check_results (s : string) : AgentState :=
  {| thread_id := None; query := None; original_query := None;
     research_plan := None; raw_research_results := None;
     summary := None; fact_check_results := Some s; messages := None;
     final_chain := None; final_chain_inputs := None |}.

(** The two keys of a deferred final answer. *)
Definition render (c : chain) (inputs : list (string * string)) : AgentState :=
  {| thread_id := None; query := None; original_query := None;
     research_plan := None; raw_research_results := None;
     summary := None; fact_check_results := None; messages := None;
     final_chain := Some (Some c); final_chain_inputs := Some inputs |}.

(** ** Collaborators, exceptions and the computation monad *)

Inductive exn :=
| KeyError (key : string)
| AttributeError (name : string)
| UnicodeDecodeError
| GraphRecursionError
| CollaboratorError (msg : string).

Inductive result (A : Type) :=
| Ok (a : A)
| Raise (e : exn).
Arguments Ok {A} a.
Arguments Raise {A} e.

(** One search hit; [None] is a missing key or a JSON null. *)
Record item := {
  item_url : option string;
  item_content : option string;
  item_snippet : option string
}.

(** The dictionary the search tool returns. *)
Record tavily_response := { results : option (list item) }.

Inductive call :=
| LLMInvoke (p : prompt) (vars : list (string * string))
| LLMStream (p : prompt) (vars : list (string * string))
| TavilyInvoke (q : string).

(** The outside world: each oracle sees the calls made so far.  A stream
    yields its fragments and may then fail. *)
Record collaborators := {
  llm_invoke : list call -> prompt -> list (string * string) -> result string;
  llm_astream :
    list call -> prompt -> list (string * string) -> list string * option exn;
  tavily_invoke : list call -> string -> result tavily_response
}.

Definition comp (A : Type) : Type := list call -> result A * list call.

Definition ret {A} (a : A) : comp A := fun log => (Ok a, log).

Definition raise {A} (e : exn) : comp A := fun log => (Raise e, log).

Definition bind {A B} (m : comp A) (k : A -> comp B) : comp B :=
  fun log =>
    match m log with
    | (Ok a, log') => k a log'
    | (Raise e, log') => (Raise e, log')
    end.

(** [try: m except Exception as e: h e] *)
Definition try_except {A} (m : comp A) (h : exn -> comp A) : comp A :=
  fun log =>
    match m log with
    | (Ok a, log') => (Ok a, log')
    | (Raise e, log') => h e log'
    end.

Notation "x <- m ;; k" := (bind m (fun x => k))
  (at level 100, m at next level, right associativity).

(** [state[key]] *)
Definition subscript {A} (key : string) (field : option A) : comp A :=
  match field with
  | Some v => ret v
  | None => raise (KeyError key)
  end.

(** [a or b] on optional strings. *)
Definition py_or (a b : option string) : option string :=
  if truthy a then a else b.

Definition NL : string := String nl "".

(** The joined [Source: ... Content: ...] block built by three of the steps. *)
Definition format_results (raw_results : list research_result) : string :=
  join (NL +:+ NL)
    (map (fun res =>
            "Source: " +:+ source res +:+ NL +:+ "Content: " +:+ content res)
         raw_results).

(** ** Agent functions ([app/agents.py]) *)

Section Agents.

Variable env : collaborators.

Definition chain_invoke (p : prompt) (vars : list (string * string))
  : comp string :=
  fun log => (llm_invoke env log p vars, log ++ [LLMInvoke p vars]).

Definition tavily_tool_invoke (q : string) : comp tavily_response :=
  fun log => (tavily_invoke env log q, log ++ [TavilyInvoke q]).

Definition generate_research_plan (state : AgentState) : comp AgentState :=
  query <- subscript "original_query" (original_query state) ;;
  plan <- chain_invoke PlanPrompt [("query", query)] ;;
  ret (only_research_plan (Some plan)).

(** [... or [research_plan]] *)
Definition search_queries_of (research_plan : string) : list string :=
  match findall_numbered research_plan with
  | [] => [research_plan]
  | qs => qs
  end.

(** The body of the inner loop, on the pair [(all_results, processed_urls)]. *)
Definition add_item (acc : list research_result * gset string) (it : item)
  : list research_result * gset string :=
  let '(all_results, processed_urls) := acc in
  let url := item_url it in
  let content := py_or (item_content it) (item_snippet it) in
  match url, content with
  | Some u, Some c =>
      if truthy url && negb (bool_decide (u ∈ processed_urls)) && truthy content
      then (all_results ++ [{| source := u; content := c |}],
            {[u]} ∪ processed_urls)
      else acc
  | _, _ => acc
  end.

Fixpoint retrieve_loop (search_queries : list string)
    (acc : list research_result * gset string)
  : comp (list research_result * gset string) :=
  match search_queries with
  | [] => ret acc
  | query :: rest =>
      acc' <- try_except
                (tavily_response <- tavily_tool_invoke query ;;
                 ret (foldl add_item acc (default [] (results tavily_response))))
                (fun _ => ret acc) ;;
      retrieve_loop rest acc'
  end.

Definition retrieve_info (state : AgentState) : comp AgentState :=
  let research_plan := default "" (research_plan state) in
  let search_queries := search_queries_of research_plan in
  acc <- retrieve_loop search_queries ([], ∅) ;;
  ret (only_raw_research_results (fst acc)).

Definition no_results_message : string :=
  "No substantial research results were found to summarize.".

Definition summarize_info (state : AgentState) : comp AgentState :=
  let raw_results := default [] (raw_research_results state) in
  query <- subscript "query" (query state) ;;
  let formatted_results := format_results raw_results in
  if String.eqb (strip formatted_results) ""
  then ret (only_summary no_results_message)
  else
    summary <- chain_invoke SummarizePrompt
                 [("query", query); ("results", formatted_results)] ;;
    ret (only_summary summary).

Definition fact_check_skipped_message : string :=
  "Fact-check skipped: No original research results.".

Definition fact_check_summary (state : AgentState) : comp AgentState :=
  let summary := default "" (summary state) in
  let raw_results := default [] (raw_research_results state) in
  query <- subscript "query" (query state) ;;
  match raw_results with
  | [] => ret (only_fact_check_results fact_check_skipped_message)
  | _ =>
      let formatted_results := format_results raw_results in
      fact_check_report <-
        chain_invoke FactCheckPrompt
          [("query", query); ("summary", summary);
           ("results", formatted_results)] ;;
      ret (only_fact_check_results fact_check_report)
  end.

Definition generate_final_answer (state : AgentState) : comp AgentState :=
  summary <- subscript "summary" (summary state) ;;
  fact_check_results <-
    subscript "fact_check_results" (fact_check_results state) ;;
  query <- subscript "query" (query state) ;;
  ret (render FinalAnswerPrompt
         [("query", query); ("summary", summary);
          ("fact_check_results", fact_check_results)]).

Definition answer_follow_up_question (state : AgentState) : comp AgentState :=
  let summary := default "No previous summary available." (summary state) in
  let fact_check_results :=
    default "No fact-check was performed." (fact_check_results state) in
  let raw_results := default [] (raw_research_results state) in
  let formatted_results := format_results raw_results in
  let formatted_results :=
    if String.eqb (strip formatted_results) ""
    then "No sources were retrieved."
    else formatted_results in
  let follow_up_query := default "" (query state) in
  ret (render FollowUpPrompt
         [("summary", summary);
          ("fact_check_results", fact_check_results);
          ("formatted_results", formatted_results);
          ("follow_up_query", follow_up_query)]).

Definition route_initial_or_follow_up (state : AgentState) : string :=
  let user_query := lower (default "" (query state)) in
  if str_in "change" user_query && str_in "plan" user_query
  then "generate_research_plan"
  else if truthy (summary state)
  then "answer_follow_up_question"
  else "generate_research_plan".

End Agents.

(** ** The graph ([app/graph.py]) *)

Definition START : string := "__start__".
Definition END : string := "__end__".

Record StateGraph := {
  nodes : list (string * (AgentState -> comp AgentState));
  entry_point : option ((AgentState -> string) * list (string * string));
  edges : list (string * string)
}.

Definition new_StateGraph : StateGraph :=
  {| nodes := []; entry_point := None; edges := [] |}.

Definition add_node (name : string) (action : AgentState -> comp AgentState)
    (workflow : StateGraph) : StateGraph :=
  {| nodes := nodes workflow ++ [(name, action)];
     entry_point := entry_point workflow;
     edges := edges workflow |}.

Definition set_conditional_entry_point (path : AgentState -> string)
    (path_map : list (string * string)) (workflow : StateGraph) : StateGraph :=
  {| nodes := nodes workflow;
     entry_point := Some (path, path_map);
     edges := edges workflow |}.

Definition add_edge (start_key end_key : string) (workflow : StateGraph)
  : StateGraph :=
  {| nodes := nodes workflow;
     entry_point := entry_point workflow;
     edges := edges workflow ++ [(start_key, end_key)] |}.

Record CompiledGraph := {
  builder : StateGraph;
  interrupt_before : list string
}.

Definition compile (workflow : StateGraph) (interrupt_before : list string)
  : CompiledGraph :=
  {| builder := workflow; interrupt_before := interrupt_before |}.

(** What [await request.json()] makes of the body of a request: it raises
    [UnicodeDecodeError] on bytes that are not text and
    [json.JSONDecodeError] on a text that is not JSON; a JSON value that is
    not an object has no [get].  The fields of an object are read as the
    specification types them, as strings: [None] is a missing key or a
    null.  (A field holding a JSON value of another type is outside this
    type.) *)
Inductive body (A : Type) :=
| Undecodable
| NotJSON
| NotAnObject
| Object (data : A).
Arguments Undecodable {A}.
Arguments NotJSON {A}.
Arguments NotAnObject {A}.
Arguments Object {A} data.

(** [data.get(key)] on the body, where there is an object to read. *)
Definition field {A B} (get : A -> option B) (request : body A) : option B :=
  match request with
  | Object data => get data
  | _ => None
  end.

Section Workflow.

Variable env : collaborators.

Definition create_research_graph : CompiledGraph :=
  let workflow := new_StateGraph in
  let workflow :=
    add_node "generate_research_plan" (generate_research_plan env) workflow in
  let workflow := add_node "retrieve_info" (retrieve_info env) workflow in
  let workflow := add_node "summarize_info" (summarize_info env) workflow in
  let workflow :=
    add_node "fact_check_summary" (fact_check_summary env) workflow in
  let workflow :=
    add_node "generate_final_answer" generate_final_answer workflow in
  let workflow :=
    add_node "answer_follow_up_question" answer_follow_up_question workflow in
  let workflow :=
    set_conditional_entry_point route_initial_or_follow_up
      [("generate_research_plan", "generate_research_plan");
       ("answer_follow_up_question", "answer_follow_up_question")]
      workflow in
  let workflow := add_edge "generate_research_plan" "retrieve_info" workflow in
  let workflow := add_edge "retrieve_info" "summarize_info" workflow in
  let workflow := add_edge "summarize_info" "fact_check_summary" workflow in
  let workflow :=
    add_edge "fact_check_summary" "generate_final_answer" workflow in
  let workflow := add_edge "generate_final_answer" END workflow in
  let workflow := add_edge "answer_follow_up_question" END workflow in
  compile workflow ["retrieve_info"].

(** The module-level instance of [main.py]. *)
Definition research_graph : CompiledGraph := create_research_graph.

(** ** Execution of a compiled graph

    The library's execution, as far as the endpoints use it.
    - The checkpointer keeps, per thread, the latest state and the node that
      wrote it last ([START] after an input); the pending node is the one the
      edges (for [START], the conditional entry point) give from there.
    - A step's return value is merged key by key into the state: a key it
      holds overwrites, a key it lacks is left alone.
    - Streaming yields one [(node, output)] pair per completed node, after
      the merged state has been saved.  A node that raises ends the stream
      with that exception and saves nothing.
    - Before a node listed in [interrupt_before] the stream ends, unless this
      is the first node of a run resumed with no input.
    - An update of the state is merged into the latest checkpoint as a
      write of the node that wrote it last, so what is pending afterwards is
      what that node's edges give; on a thread with no checkpoint it starts
      one from the empty state.
    - At most [recursion_limit] nodes run per stream. *)

Record checkpoint := { values : AgentState; last_node : string }.

Record world := { store : gmap string checkpoint; log : list call }.

Definition merge_state (old upd : AgentState) : AgentState :=
  let pick {A} (f : AgentState -> option A) : option A :=
    match f upd with Some v => Some v | None => f old end in
  {| thread_id := pick thread_id; query := pick query;
     original_query := pick original_query;
     research_plan := pick research_plan;
     raw_research_results := pick raw_research_results;
     summary := pick summary;
     fact_check_results := pick fact_check_results;
     messages := pick messages;
     final_chain := pick final_chain;
     final_chain_inputs := pick final_chain_inputs |}.

Fixpoint assoc {A} (key : string) (l : list (string * A)) : option A :=
  match l with
  | [] => None
  | (k, v) :: l' => if String.eqb k key then Some v else assoc key l'
  end.

Definition next_node (g : CompiledGraph) (n : string) (st : AgentState)
  : option string :=
  if String.eqb n START then
    match entry_point (builder g) with
    | Some (path, path_map) => assoc (path st) path_map
    | None => None
    end
  else assoc n (edges (builder g)).

Definition recursion_limit : nat := 25.

Definition empty_checkpoint : checkpoint :=
  {| values := no_keys; last_node := START |}.

(** [graph.astream(input_data, config)], before its first step. *)
Definition put_input (tid : string) (input : AgentState) (w : world) : world :=
  let ck := default empty_checkpoint (store w !! tid) in
  {| store :=
       <[tid := {| values := merge_state (values ck) input;
                   last_node := START |}]> (store w);
     log := log w |}.

(** [graph.update_state(config, values)] *)
Definition update_state (tid : string) (vals : AgentState) (w : world)
  : world :=
  let ck := default empty_checkpoint (store w !! tid) in
  {| store :=
       <[tid := {| values := merge_state (values ck) vals;
                   last_node := last_node ck |}]> (store w);
     log := log w |}.

Inductive stream_item :=
| Chunk (name : string) (output : AgentState)
| StreamEnd
| StreamRaise (e : exn).

(** One step of the stream. *)
Definition astream_next (g : CompiledGraph) (tid : string) (resuming : bool)
    (budget : nat) (w : world) : stream_item * world :=
  match store w !! tid with
  | None => (StreamEnd, w)
  | Some ck =>
      match next_node g (last_node ck) (values ck) with
      | None => (StreamEnd, w)
      | Some n =>
          if String.eqb n END then (StreamEnd, w)
          else if negb resuming && bool_decide (n ∈ interrupt_before g)
          then (StreamEnd, w)
          else
            match budget, assoc n (nodes (builder g)) with
            | O, _ => (StreamRaise GraphRecursionError, w)
            | _, None => (StreamEnd, w)
            | S _, Some action =>
                match action (values ck) (log w) with
                | (Raise e, log') =>
                    (StreamRaise e, {| store := store w; log := log' |})
                | (Ok output, log') =>
                    (Chunk n output,
                     {| store :=
                          <[tid := {| values := merge_state (values ck) output;
                                      last_node := n |}]> (store w);
                        log := log' |})
                end
            end
      end
  end.

(** ** The endpoints ([main.py]) *)

Inductive event :=
| Ev_thread_id (data : string)
| Ev_research_plan (data : string)
| Ev_raw_research_results (data : list research_result)
| Ev_summary (data : string)
| Ev_fact_check_results (data : string)
| Ev_final_answer_start
| Ev_final_answer_chunk (data : string)
| Ev_done
| Ev_error (e : exn).

(** How the body of a loop over the stream ends. *)
Inductive flow :=
| Continue
| Return
| Throw (e : exn).

Definition loop_body : Type :=
  string -> AgentState -> list call -> list event * flow * list call.

(** [async for s in research_graph.astream(...): for name, out in s.items():
    body].  The result says how the loop ended: [Continue] when the stream
    was exhausted. *)
Fixpoint async_for (g : CompiledGraph) (tid : string) (body : loop_body)
    (budget : nat) (resuming : bool) (w : world) : list event * flow * world :=
  match astream_next g tid resuming budget w with
  | (StreamEnd, w') => ([], Continue, w')
  | (StreamRaise e, w') => ([], Throw e, w')
  | (Chunk name output, w') =>
      let '(evs, fl, log') := body name output (log w') in
      let w'' := {| store := store w'; log := log' |} in
      match fl, budget with
      | Continue, S budget' =>
          let '(evs', fl', w3) := async_for g tid body budget' false w'' in
          (evs ++ evs', fl', w3)
      | Continue, O => (evs, Throw GraphRecursionError, w'')
      | _, _ => (evs, fl, w'')
      end
  end.

(** The part both endpoints share: stream the final answer. *)
Definition stream_final_answer (node_output : AgentState) : loop_body :=
  fun _ _ log =>
    match final_chain node_output, final_chain_inputs node_output with
    | Some (Some final_chain), Some ((_ :: _) as final_chain_inputs) =>
        let '(chunks, failure) :=
          llm_astream env log final_chain final_chain_inputs in
        (Ev_final_answer_start :: map Ev_final_answer_chunk chunks,
         match failure with Some e => Throw e | None => Continue end,
         log ++ [LLMStream final_chain final_chain_inputs])
    | _, _ => ([], Continue, log)
    end.

Definition chat_body_of_loop : loop_body :=
  fun node_name node_output log =>
    if String.eqb node_name END then ([], Continue, log)
    else if truthy (research_plan node_output)
    then ([Ev_research_plan (default "" (research_plan node_output))],
          Return, log)
    else stream_final_answer node_output node_name node_output log.

(** What the generator of a streaming response yields, given how its loop
    ended. *)
Definition close_stream (r : list event * flow * world) : list event * world :=
  let '(evs, fl, w) := r in
  match fl with
  | Continue => (evs ++ [Ev_done], w)
  | Return => (evs, w)
  | Throw e => (evs ++ [Ev_error e], w)
  end.

(** [Unhandled e]: the exception [e] escapes the endpoint and the framework
    answers with status 500. *)
Inductive response :=
| JSONResponse (status_code : nat) (message : string)
| StreamingResponse (events : list event)
| Unhandled (e : exn).

(** The JSON object of a request to [/chat]. *)
Record chat_request := {
  req_query : option string;
  req_thread_id : option string
}.

(** The generator [event_stream] of [chat_endpoint]. *)
Definition chat_event_stream (thread_id : string) (input_data : AgentState)
    (w : world) : list event * world :=
  let '(evs, w') :=
    close_stream
      (async_for research_graph thread_id chat_body_of_loop
         recursion_limit false (put_input thread_id input_data w)) in
  (Ev_thread_id thread_id :: evs, w').

Definition only_query (user_query : option string) : AgentState :=
  {| thread_id := None; query := user_query;
     original_query := None; research_plan := None;
     raw_research_results := None; summary := None;
     fact_check_results := None; messages := None;
     final_chain := None; final_chain_inputs := None |}.

Definition initial_state (thread_id : string) (user_query : option string)
  : AgentState :=
  {| thread_id := Some thread_id; query := user_query;
     original_query := None; research_plan := Some "";
     raw_research_results := Some []; summary := Some "";
     fact_check_results := Some ""; messages := Some [];
     final_chain := Some None; final_chain_inputs := Some [] |}.

(** [uuid] is the identifier [uuid.uuid4()] draws.  Only
    [json.JSONDecodeError] is caught. *)
Definition chat_endpoint (uuid : string) (request : body chat_request)
    (w : world) : response * world :=
  match request with
  | Undecodable => (Unhandled UnicodeDecodeError, w)
  | NotJSON => (JSONResponse 400 "Invalid JSON body.", w)
  | NotAnObject => (Unhandled (AttributeError "get"), w)
  | Object data =>
      let user_query := req_query data in
      if negb (truthy user_query)
      then (JSONResponse 400 "Query is required.", w)
      else
        let '(thread_id, input_data) :=
          if truthy (req_thread_id data)
          then (default "" (req_thread_id data), only_query user_query)
          else (uuid, initial_state uuid user_query) in
        let '(evs, w') := chat_event_stream thread_id input_data w in
        (StreamingResponse evs, w')
  end.

(** The JSON object of a request to [/chat/continue]. *)
Record continue_request := {
  cont_thread_id : option string;
  cont_research_plan : option string
}.

Definition continue_body_of_loop : loop_body :=
  fun node_name node_output log =>
    if String.eqb node_name END then ([], Continue, log)
    else
      let evs :=
        match raw_research_results node_output with
        | Some d => [Ev_raw_research_results d] | None => [] end ++
        match summary node_output with
        | Some d => [Ev_summary d] | None => [] end ++
        match fact_check_results node_output with
        | Some d => [Ev_fact_check_results d] | None => [] end in
      let '(evs', fl, log') :=
        stream_final_answer node_output node_name node_output log in
      (evs ++ evs', fl, log').

(** The generator [event_stream] of [chat_continue_endpoint]. *)
Definition continue_event_stream (thread_id : string)
    (research_plan : option string) (w : world) : list event * world :=
  let w1 := update_state thread_id (only_research_plan research_plan) w in
  close_stream
    (async_for research_graph thread_id continue_body_of_loop
       recursion_limit true w1).

Definition chat_continue_endpoint (request : body continue_request)
    (w : world) : response * world :=
  match request with
  | Undecodable => (Unhandled UnicodeDecodeError, w)
  | NotJSON => (JSONResponse 400 "Invalid JSON body.", w)
  | NotAnObject => (Unhandled (AttributeError "get"), w)
  | Object data =>
      let thread_id := cont_thread_id data in
      let research_plan := cont_research_plan data in
      if negb (truthy thread_id) || negb (truthy research_plan)
      then (JSONResponse 400 "thread_id and research_plan are required.", w)
      else
        let '(evs, w') :=
          continue_event_stream (default "" thread_id) research_plan w in
        (StreamingResponse evs, w')
  end.

End Workflow.

(** * Specification-side notions and sample data *)

(** A case-insensitive substring check: some substring of [text] is [token]
    once lower-cased. *)
Definition contains_ignoring_case (token text : string) : Prop :=
  ∃ pre mid post, text = pre +:+ mid +:+ post ∧ lower mid = token.

(** The query asks for the plan to be changed. *)
Definition change_plan_request (text : string) : Prop :=
  contains_ignoring_case "change" text ∧ contains_ignoring_case "plan" text.

(** The hits the retrieval loop sees, in order: those of every sub-query
    whose search call returned; a call that raised contributes none. *)
Fixpoint responses_seen (env : collaborators) (qs : list string)
    (log : list call) : list item :=
  match qs with
  | [] => []
  | q :: qs' =>
      match tavily_invoke env log q with
      | Ok r => default [] (results r)
      | Raise _ => []
      end ++ responses_seen env qs' (log ++ [TavilyInvoke q])
  end.

(** The entry a hit is stored as, when it can be stored at all. *)
Definition entry_of_item (it : item) : option research_result :=
  match item_url it, py_or (item_content it) (item_snippet it) with
  | Some u, Some c =>
      if truthy (Some u) && truthy (Some c)
      then Some {| source := u; content := c |}
      else None
  | _, _ => None
  end.

Definition add_entry (acc : list research_result * gset string)
    (e : research_result) : list research_result * gset string :=
  if bool_decide (source e ∈ acc.2) then acc
  else (acc.1 ++ [e], {[source e]} ∪ acc.2).

(** [e] is the first of [es] with its source. *)
Definition first_seen (e : research_result) (es : list research_result)
  : Prop :=
  ∃ pre post, es = pre ++ (e :: post) ∧ source e ∉ map source pre.

(** The loop invariant: the set holds the sources stored so far, once each. *)
Definition acc_ok (acc : list research_result * gset string) : Prop :=
  NoDup (map source acc.1) ∧ ∀ u, u ∈ acc.2 ↔ u ∈ map source acc.1.

Definition summary_fallback : string := "No previous summary available.".
Definition fact_check_fallback : string := "No fact-check was performed.".
Definition sources_fallback : string := "No sources were retrieved.".

(** The follow-up step as the specification words it: a fallback wherever a field
    is absent or empty. *)
Definition follow_up_substitutes_when_absent_or_empty : Prop :=
  ∀ st log, ∃ inputs,
    answer_follow_up_question st log
    = (Ok (render FollowUpPrompt inputs), log) ∧
    (truthy (summary st) = false →
     assoc "summary" inputs = Some summary_fallback) ∧
    (truthy (fact_check_results st) = false →
     assoc "fact_check_results" inputs = Some fact_check_fallback) ∧
    (default [] (raw_research_results st) = [] →
     assoc "formatted_results" inputs = Some sources_fallback).

(** A state whose summary and fact-check report are present and empty. *)
Definition state_with_empty_texts : AgentState :=
  {| thread_id := Some "t1"; query := Some "why?"; original_query := None;
     research_plan := Some "1. Sources"; raw_research_results := Some [];
     summary := Some ""; fact_check_results := Some "";
     messages := Some []; final_chain := Some None;
     final_chain_inputs := Some [] |}.

(** The longest prefix of a list whose elements satisfy a test, and what is
    left after it. *)
Fixpoint take_while {A} (P : A → bool) (l : list A) : list A :=
  match l with
  | x :: l' => if P x then x :: take_while P l' else []
  | [] => []
  end.

Fixpoint drop_while {A} (P : A → bool) (l : list A) : list A :=
  match l with
  | x :: l' => if P x then drop_while P l' else l
  | [] => []
  end.

(** The lines of a text: what [split] gives at every newline. *)
Fixpoint lines (t : list N) : list (list N) :=
  match t with
  | [] => [[]]
  | c :: t' =>
      if (c =? newline)%N then [] :: lines t'
      else match lines t' with
           | l :: ls => (c :: l) :: ls
           | [] => [[c]]
           end
  end.

(** Lines put together again, a newline between two of them. *)
Fixpoint unlines (ls : list (list N)) : list N :=
  match ls with
  | [] => []
  | [l] => l
  | l :: rest => l ++ newline :: unlines rest
  end.

(** A numbered-list line, read on its own: optional blanks, a number (one
    or more decimal digits), a dot, optional blanks and the text, which is
    what the line yields. *)
Definition numbered_line_text (line : list N) : option (list N) :=
  let body := drop_while is_space_cp line in
  match take_while is_decimal_cp body, drop_while is_decimal_cp body with
  | _ :: _, c :: rest =>
      if (c =? full_stop)%N then Some (drop_while is_space_cp rest) else None
  | _, _ => None
  end.

(** The sub-queries of a plan, read line by line. *)
Definition numbered_lines (plan : string) : list string :=
  map utf8_encode (omap numbered_line_text (lines (utf8_decode plan))).

(** The plan has no numbered line without a text. *)
Definition every_item_has_text (plan : string) : Prop :=
  Forall (λ l, numbered_line_text l ≠ Some []) (lines (utf8_decode plan)).

Definition no_nl (t : list N) : Prop := forallb (λ c, negb (c =? newline)%N) t = true.

Definition blank (t : list N) : Prop := forallb is_space_cp t = true.

(** What may follow a line: the end of the text or a newline. *)
Definition line_end (r : list N) : Prop :=
  match r with
  | [] => True
  | c :: _ => c = newline
  end.

(** Whether the anchor holds after the characters of [a]. *)
Fixpoint bol_after (b : bool) (a : list N) : bool :=
  match a with
  | [] => b
  | c :: a' => bol_after (c =? newline)%N a'
  end.

(** A text starts with no whitespace. *)
Definition starts_with_text (t : list N) : Prop :=
  match t with
  | [] => True
  | c :: _ => is_space_cp c = false
  end.

(** A plan whose first item has no text on its line. *)
Definition empty_item_plan : string := "1." +:+ NL +:+ "2. Effects".

(** A no-break space (U+00A0) and the Arabic-Indic digit one (U+0661), in
    UTF-8. *)
Definition no_break_space : string :=
  String (ascii_of_nat 194) (String (ascii_of_nat 160) "").

Definition arabic_indic_one : string :=
  String (ascii_of_nat 217) (String (ascii_of_nat 161) "").

(** The thread waits at the interrupt: its pending node is one the graph
    interrupts before. *)
Definition interrupt_pending (env : collaborators) (tid : string) (w : world)
  : Prop :=
  ∃ ck n,
    store w !! tid = Some ck ∧
    next_node (research_graph env) (last_node ck) (values ck) = Some n ∧
    n ∈ interrupt_before (research_graph env).

(** The response tells the caller the turn failed. *)
Definition reports_failure (r : response) : Prop :=
  match r with
  | JSONResponse status_code _ => 400 ≤ status_code
  | StreamingResponse events => ∃ e, last events = Some (Ev_error e)
  | Unhandled _ => True
  end.

(** The resume request as the specification words it: rejected, with the state
    untouched, whenever no interrupt is pending. *)
Definition resume_rejected_unless_suspended : Prop :=
  ∀ env tid plan w,
    ¬ interrupt_pending env tid w →
    let r :=
      chat_continue_endpoint env
        (Object {| cont_thread_id := Some tid; cont_research_plan := Some plan |})
        w in
    reports_failure r.1 ∧ r.2 = w.

(** The first request of a conversation. *)
Definition first_contact : body chat_request :=
  Object {| req_query := Some "tides"; req_thread_id := None |}.

(** Collaborators that never answer. *)
Definition failing_env : collaborators :=
  {| llm_invoke := λ _ _ _, Raise (CollaboratorError "llm unavailable");
     llm_astream := λ _ _ _, ([], Some (CollaboratorError "llm unavailable"));
     tavily_invoke := λ _ _, Raise (CollaboratorError "search unavailable") |}.

(** The state of a conversation whose research run has completed. *)
Definition completed_state : AgentState :=
  {| thread_id := Some "t1"; query := Some "tides";
     original_query := Some "tides";
     research_plan := Some "1. Causes of tides";
     raw_research_results :=
       Some [{| source := "https://a.example"; content := "The moon." |}];
     summary := Some "Tides follow the moon.";
     fact_check_results := Some "Fact check: OK.";
     messages := Some [];
     final_chain := Some (Some FinalAnswerPrompt);
     final_chain_inputs :=
       Some [("query", "tides"); ("summary", "Tides follow the moon.");
             ("fact_check_results", "Fact check: OK.")] |}.

Definition completed_world : world :=
  {| store :=
       {[ "t1" := {| values := completed_state;
                     last_node := "generate_final_answer" |} ]};
     log := [] |}.

Definition is_llm_call (c : call) : Prop :=
  match c with
  | TavilyInvoke _ => False
  | _ => True
  end.

(** The world that request leaves when it is the first the service gets:
    one conversation, here under the identifier [t1], that has not got past
    the router. *)
Definition first_contact_world : world :=
  (chat_endpoint failing_env "t1" first_contact {| store := ∅; log := [] |}).2.

(** The nodes a resumed run can have just completed. *)
Definition tail_nodes : list string :=
  ["retrieve_info"; "summarize_info"; "fact_check_summary";
   "generate_final_answer"].

(** A node that makes no search call and does not write the plan. *)
Definition node_quiet (action : AgentState → comp AgentState) : Prop :=
  ∀ st log, ∃ suffix,
    (action st log).2 = log ++ suffix ∧
    Forall is_llm_call suffix ∧
    ∀ out, (action st log).1 = Ok out → research_plan out = None.

(** A conversation waiting at the interrupt, its plan just produced. *)
Definition suspended_state : AgentState :=
  {| thread_id := Some "t1"; query := Some "tides";
     original_query := Some "tides";
     research_plan := Some "1. Causes of tides";
     raw_research_results := Some []; summary := Some "";
     fact_check_results := Some ""; messages := Some [];
     final_chain := Some None; final_chain_inputs := Some [] |}.

Definition suspended_checkpoint : checkpoint :=
  {| values := suspended_state; last_node := "generate_research_plan" |}.

Definition suspended_world : world :=
  {| store := {[ "t1" := suspended_checkpoint ]}; log := [] |}.

Definition completed_checkpoint : checkpoint :=
  {| values := completed_state; last_node := "generate_final_answer" |}.

(** Collaborators that answer: a numbered plan, short texts, two hits per
    search, the second without content. *)
Definition sample_env : collaborators :=
  {| llm_invoke := λ _ p _,
       match p with
       | PlanPrompt => Ok ("1. Sources" +:+ NL +:+ "2. Effects")
       | SummarizePrompt => Ok "Plastics harm marine life."
       | _ => Ok "Fact check: OK."
       end;
     llm_astream := λ _ _ _, (["Plastics "; "harm."], None);
     tavily_invoke := λ _ q,
       Ok {| results :=
               Some [{| item_url := Some "https://a.example";
                        item_content := Some q; item_snippet := None |};
                     {| item_url := Some "https://b.example";
                        item_content := None;
                        item_snippet := Some "a snippet" |}] |} |}.

(** A state in which the user asks for another plan after a completed run. *)
Definition change_request_state : AgentState :=
  {| thread_id := Some "t1"; query := Some "Please CHANGE the Plan";
     original_query := Some "tides";
     research_plan := Some "1. Causes of tides";
     raw_research_results := Some [];
     summary := Some "Tides follow the moon.";
     fact_check_results := Some "Fact check: OK.";
     messages := Some []; final_chain := Some None;
     final_chain_inputs := Some [] |}.

(** No persisted state holds [original_query]. *)
Definition lacks_original_query (w : world) : Prop :=
  ∀ t ck, store w !! t = Some ck → original_query (values ck) = None.

(** A step whose return value never holds [original_query]. *)
Definition writes_no_original_query (action : AgentState → comp AgentState)
  : Prop :=
  ∀ st log out log', action st log = (Ok out, log') → original_query out = None.

(** Closes one case of a proof that a node is quiet. *)
Ltac quiet_case :=
  eexists; split;
  [first [reflexivity | symmetry; apply app_nil_r]
  |split; [by repeat constructor | try done; by intros out [= <-]]].

(** Runs a step through every outcome and reads off what it returns. *)
Ltac run_node :=
  unfold bind, subscript, chain_invoke, ret, raise;
  repeat case_match; intros; simplify_eq; done.

(** The inputs of the follow-up directive, as the step computes them. *)
Definition follow_up_inputs (st : AgentState) : list (string * string) :=
  [("summary", default "No previous summary available." (summary st));
   ("fact_check_results",
    default "No fact-check was performed." (fact_check_results st));
   ("formatted_results",
    let formatted_results :=
      format_results (default [] (raw_research_results st)) in
    if String.eqb (strip formatted_results) ""
    then "No sources were retrieved."
    else formatted_results);
   ("follow_up_query", default "" (query st))].

(** The state a turn of [/chat] starts from: the persisted state of the
    thread, if any, merged with the turn's input. *)
Definition turn_state (tid : string) (input : AgentState) (w : world)
  : AgentState :=
  merge_state (values (default empty_checkpoint (store w !! tid))) input.

(** The conversation a request to [/chat] addresses: the one it names, or
    a new one under the fresh identifier. *)
Definition chat_thread (uuid : string) (data : chat_request) : string :=
  if truthy (req_thread_id data) then default "" (req_thread_id data)
  else uuid.

(** The keys no step writes. *)
Definition same_frame (a b : AgentState) : Prop :=
  thread_id a = thread_id b ∧ query a = query b ∧
  original_query a = original_query b ∧ messages a = messages b.

Definition writes_no_frame_key (action : AgentState → comp AgentState) : Prop :=
  ∀ st log out log',
    action st log = (Ok out, log') →
    thread_id out = None ∧ query out = None ∧
    original_query out = None ∧ messages out = None.

(** Runs a step through every outcome and checks the keys it returns. *)
Ltac run_node_frame :=
  unfold bind, subscript, chain_invoke, ret, raise;
  repeat case_match; intros; simplify_eq; done.

(** Steps run one after the other, the way a straight-line program would:
    each on the state merged with what the steps before it returned, each
    followed by the body of the endpoint's loop; a step that raises, or a
    body that does not fall through, ends the run.  The checkpoint is the
    last one saved. *)
Fixpoint run_steps (steps : list (string * (AgentState → comp AgentState)))
    (body : loop_body) (ck : checkpoint) (log : list call)
  : list event * flow * checkpoint * list call :=
  match steps with
  | [] => ([], Continue, ck, log)
  | (name, action) :: rest =>
      match action (values ck) log with
      | (Raise e, log') => ([], Throw e, ck, log')
      | (Ok output, log') =>
          let ck' := {| values := merge_state (values ck) output;
                        last_node := name |} in
          let '(evs, fl, log'') := body name output log' in
          match fl with
          | Continue =>
              let '(evs', fl', ck'', log3) := run_steps rest body ck' log'' in
              (evs ++ evs', fl', ck'', log3)
          | _ => (evs, fl, ck', log'')
          end
      end
  end.

(** The steps of a resumed run. *)
Definition resume_steps (env : collaborators)
  : list (string * (AgentState → comp AgentState)) :=
  [("retrieve_info", retrieve_info env);
   ("summarize_info", summarize_info env);
   ("fact_check_summary", fact_check_summary env);
   ("generate_final_answer", generate_final_answer)].

(** [steps] is the path the graph takes from the node [n] to its end, none
    of them interrupted (the first is exempt when the run is resumed). *)
Fixpoint follows (g : CompiledGraph) (resuming : bool) (n : string)
    (steps : list (string * (AgentState → comp AgentState))) : Prop :=
  match steps with
  | [] => ∀ st, next_node g n st = Some END
  | (m, action) :: rest =>
      (∀ st, next_node g n st = Some m) ∧
      String.eqb m END = false ∧
      negb resuming && bool_decide (m ∈ interrupt_before g) = false ∧
      assoc m (nodes (builder g)) = Some action ∧
      follows g false m rest
  end.

(** What a resumed run does to the world, given the steps' outcome. *)
Definition resumed (tid : string) (w : world)
    (r : list event * flow * checkpoint * list call) : list event * world :=
  let '(evs, fl, ck', log') := r in
  close_stream (evs, fl, {| store := <[tid := ck']> (store w); log := log' |}).

(** A search tool that is down, beside an LLM that answers. *)
Definition search_down_env : collaborators :=
  {| llm_invoke := llm_invoke sample_env;
     llm_astream := llm_astream sample_env;
     tavily_invoke := λ _ _, Raise (CollaboratorError "search unavailable") |}.

(** An LLM that is down, beside a search tool that answers. *)
Definition llm_down_env : collaborators :=
  {| llm_invoke := λ _ _ _, Raise (CollaboratorError "llm unavailable");
     llm_astream := λ _ _ _, ([], Some (CollaboratorError "llm unavailable"));
     tavily_invoke := tavily_invoke sample_env |}.

(** The plan and the results of the sample run. *)
Definition sample_plan : string := "1. Sources" +:+ NL +:+ "2. Effects".

Definition sample_results : list research_result :=
  [{| source := "https://a.example"; content := "Sources" |};
   {| source := "https://b.example"; content := "a snippet" |}].

(** The events that carry a piece of the final answer. *)
Definition answer_event (ev : event) : Prop :=
  match ev with
  | Ev_final_answer_start | Ev_final_answer_chunk _ => True
  | _ => False
  end.

(** The events that report a step of a resumed run. *)
Definition progress_event (ev : event) : Prop :=
  match ev with
  | Ev_raw_research_results _ | Ev_summary _ | Ev_fact_check_results _
  | Ev_final_answer_start | Ev_final_answer_chunk _ => True
  | _ => False
  end.

(** The events after which a stream yields nothing. *)
Definition closing_event (ev : event) : Prop :=
  match ev with
  | Ev_research_plan _ | Ev_done | Ev_error _ => True
  | _ => False
  end.

(** An upper bound on the steps a stream can still run, from the node
    that wrote the latest checkpoint.  After the plan step the graph
    interrupts, unless the stream is a resumed one at its first step. *)
Definition steps_left (resuming : bool) (n : string) : nat :=
  if String.eqb n START then 1
  else if String.eqb n "generate_research_plan" then
    if resuming then 4 else 0
  else if String.eqb n "retrieve_info" then 3
  else if String.eqb n "summarize_info" then 2
  else if String.eqb n "fact_check_summary" then 1
  else 0.

(** The requests the service answers, one at a time: a request to [/chat]
    comes with the identifier [uuid.uuid4()] would draw for it. *)
Inductive request :=
| ChatRequest (uuid : string) (request : body chat_request)
| ContinueRequest (request : body continue_request).

Definition serve (env : collaborators) (rq : request) (w : world)
  : response * world :=
  match rq with
  | ChatRequest uuid request => chat_endpoint env uuid request w
  | ContinueRequest request => chat_continue_endpoint env request w
  end.

Fixpoint serve_all (env : collaborators) (rqs : list request) (w : world)
  : list response * world :=
  match rqs with
  | [] => ([], w)
  | rq :: rest =>
      let '(r, w') := serve env rq w in
      let '(rs, w'') := serve_all env rest w' in
      (r :: rs, w'')
  end.

(** A response that is a refusal, a server error, or a stream ended by the
    plan step's missing key. *)
Definition refused_or_failed (r : response) : Prop :=
  match r with
  | JSONResponse status_code _ => status_code = 400
  | StreamingResponse events =>
      last events = Some (Ev_error (KeyError "original_query"))
  | Unhandled _ => True
  end.

(** No conversation has got past the router: every persisted state was
    last written by an input and holds neither [original_query] nor a
    non-empty summary. *)
Definition unstarted (w : world) : Prop :=
  ∀ t ck,
    store w !! t = Some ck →
    last_node ck = START ∧ original_query (values ck) = None ∧
    truthy (summary (values ck)) = false.

(** * Properties *)

(** ** Strings *)

Lemma app_nil_l_str (s : string) : "" +:+ s = s.
Proof. reflexivity. Qed.

Lemma app_cons_str (c : ascii) (s t : string) :
  String c s +:+ t = String c (s +:+ t).
Proof. reflexivity. Qed.

Lemma app_empty_r (s : string) : s +:+ "" = s.
Proof.
  induction s as [|c s IH]; [done |]. by rewrite app_cons_str, IH.
Qed.

Lemma app_assoc_str (a b c : string) : (a +:+ b) +:+ c = a +:+ (b +:+ c).
Proof.
  induction a as [|x a IH]; [done |]. by rewrite !app_cons_str, IH.
Qed.

Lemma prefix_true_iff (a b : string) :
  String.prefix a b = true ↔ ∃ post, b = a +:+ post.
Proof.
  revert b. induction a as [|x a IH]; intros b.
  - split; [intros _; by exists b | intros _; by destruct b].
  - destruct b as [|y b]; simpl.
    + split; [done | intros [post Hp]; discriminate].
    + destruct (ascii_dec x y) as [->|Hne].
      * split.
        -- intros H. apply IH in H as [post ->]. by exists post.
        -- intros [post Hp]. apply IH. exists post.
           rewrite app_cons_str in Hp. by injection Hp.
      * split; [done |].
        intros [post Hp]. rewrite app_cons_str in Hp. injection Hp. congruence.
Qed.

Lemma str_in_nil (a : string) : str_in a "" = String.prefix a "" || false.
Proof. reflexivity. Qed.

Lemma str_in_cons (a : string) (y : ascii) (b : string) :
  str_in a (String y b) = String.prefix a (String y b) || str_in a b.
Proof. reflexivity. Qed.

Lemma str_in_true_iff (a b : string) :
  str_in a b = true ↔ ∃ pre post, b = pre +:+ a +:+ post.
Proof.
  induction b as [|y b IH].
  - rewrite str_in_nil, orb_false_r, prefix_true_iff. split.
    + intros [post Hp]. by exists "", post.
    + intros (pre & post & Hp). destruct pre; [by exists post | discriminate].
  - rewrite str_in_cons, orb_true_iff, prefix_true_iff, IH. split.
    + intros [[post Hp] | (pre & post & Hp)].
      * by exists "", post.
      * exists (String y pre), post. by rewrite app_cons_str, Hp.
    + intros (pre & post & Hp). destruct pre as [|z pre].
      * left. by exists post.
      * right. exists pre, post. rewrite app_cons_str in Hp. by injection Hp.
Qed.

Lemma lower_app (a b : string) : lower (a +:+ b) = lower a +:+ lower b.
Proof.
  induction a as [|x a IH]; [done |]. rewrite app_cons_str. simpl.
  by rewrite IH.
Qed.

Lemma lower_split (s a b : string) :
  lower s = a +:+ b → ∃ a' b', s = a' +:+ b' ∧ lower a' = a ∧ lower b' = b.
Proof.
  revert s. induction a as [|x a IH]; intros s H.
  - by exists "", s.
  - destruct s as [|y s]; [discriminate |].
    rewrite app_cons_str in H. simpl in H.
    injection H as Hx Hs. destruct (IH _ Hs) as (a' & b' & -> & Ha & Hb).
    exists (String y a'), b'. simpl. by rewrite Hx, Ha.
Qed.

Lemma str_in_lower_iff (token text : string) :
  str_in token (lower text) = true ↔ contains_ignoring_case token text.
Proof.
  rewrite str_in_true_iff. split.
  - intros (pre & post & H).
    destruct (lower_split _ _ _ H) as (pre' & r & -> & _ & Hr).
    destruct (lower_split _ _ _ Hr) as (mid & post' & -> & Hm & _).
    by exists pre', mid, post'.
  - intros (pre & mid & post & -> & <-).
    exists (lower pre), (lower post). by rewrite !lower_app.
Qed.

Lemma change_plan_request_iff (text : string) :
  str_in "change" (lower text) && str_in "plan" (lower text) = true
  ↔ change_plan_request text.
Proof.
  unfold change_plan_request.
  by rewrite andb_true_iff, !str_in_lower_iff.
Qed.

(** ** The router *)

Lemma route_cases (st : AgentState) :
  route_initial_or_follow_up st = "generate_research_plan" ∨
  route_initial_or_follow_up st = "answer_follow_up_question".
Proof.
  unfold route_initial_or_follow_up.
  destruct (str_in "change" _ && str_in "plan" _); [by left |].
  destruct (truthy (summary st)); [by right | by left].
Qed.

Lemma entry_is_router (env : collaborators) (st : AgentState) :
  next_node (research_graph env) START st
  = Some (route_initial_or_follow_up st).
Proof.
  change (assoc (route_initial_or_follow_up st)
            [("generate_research_plan", "generate_research_plan");
             ("answer_follow_up_question", "answer_follow_up_question")]
          = Some (route_initial_or_follow_up st)).
  by destruct (route_cases st) as [-> | ->].
Qed.

(** C2. The router decides from the state alone, at the conditional entry
    point of the graph, before any step: a query that contains both "change"
    and "plan", whatever the case of its letters, goes to the plan step even
    when a summary exists; any other query goes to the follow-up step when
    the state holds a non-empty summary, and to the plan step otherwise. *)
Theorem router_decision (env : collaborators) (st : AgentState) :
  next_node (research_graph env) START st
  = Some (route_initial_or_follow_up st) ∧
  (change_plan_request (default "" (query st)) →
   route_initial_or_follow_up st = "generate_research_plan") ∧
  (¬ change_plan_request (default "" (query st)) →
   truthy (summary st) = true →
   route_initial_or_follow_up st = "answer_follow_up_question") ∧
  (¬ change_plan_request (default "" (query st)) →
   truthy (summary st) = false →
   route_initial_or_follow_up st = "generate_research_plan").
Proof.
  split; [apply entry_is_router |].
  unfold route_initial_or_follow_up.
  destruct (str_in "change" _ && str_in "plan" _) eqn:E.
  - apply change_plan_request_iff in E. by repeat split.
  - assert (¬ change_plan_request (default "" (query st))) as Hn.
    { intros H. apply change_plan_request_iff in H. congruence. }
    repeat split; [done | |]; intros _ ->; done.
Qed.

(** ** The retrieval loop *)

Lemma retrieve_loop_eq (env : collaborators) (qs : list string)
    (acc : list research_result * gset string) (log : list call) :
  retrieve_loop env qs acc log
  = (Ok (foldl add_item acc (responses_seen env qs log)),
     log ++ map TavilyInvoke qs).
Proof.
  revert acc log. induction qs as [|q qs IH]; intros acc log.
  - by rewrite app_nil_r.
  - cbn [retrieve_loop responses_seen map].
    unfold bind at 1. unfold try_except, bind, tavily_tool_invoke, ret.
    destruct (tavily_invoke env log q) as [r | e];
      by rewrite IH, foldl_app, <- app_assoc.
Qed.

Lemma add_item_entry (acc : list research_result * gset string) (it : item) :
  add_item acc it
  = match entry_of_item it with
    | Some e => add_entry acc e
    | None => acc
    end.
Proof.
  destruct acc as [rs seen]. unfold add_item, entry_of_item, add_entry.
  destruct (item_url it) as [u|]; [|done].
  destruct (py_or _ _) as [c|]; [|done].
  destruct (truthy (Some u)), (truthy (Some c)); simpl;
    rewrite ?andb_false_r; try done.
  rewrite andb_true_r. by destruct (bool_decide (u ∈ seen)).
Qed.

Lemma foldl_add_item (acc : list research_result * gset string)
    (items : list item) :
  foldl add_item acc items = foldl add_entry acc (omap entry_of_item items).
Proof.
  revert acc. induction items as [|it items IH]; intros acc; [done |].
  simpl. rewrite IH, add_item_entry.
  by destruct (entry_of_item it).
Qed.

Lemma acc_ok_init : acc_ok ([], ∅).
Proof. split; [constructor | set_solver]. Qed.

Lemma add_entry_ok acc e : acc_ok acc → acc_ok (add_entry acc e).
Proof.
  intros [Hnd Hset]. unfold add_entry. case_bool_decide as Hin; [done |].
  split; cbn [fst snd].
  - rewrite map_app. apply NoDup_app. split; [done |]. split.
    + intros u Hu Hu'. apply list_elem_of_singleton in Hu' as ->.
      by apply Hin, Hset.
    + apply NoDup_singleton.
  - intros u. rewrite map_app, elem_of_app, elem_of_union, elem_of_singleton.
    cbn [map]. rewrite list_elem_of_singleton, Hset. tauto.
Qed.

Lemma foldl_add_entry_ok acc es : acc_ok acc → acc_ok (foldl add_entry acc es).
Proof.
  revert acc. induction es as [|e es IH]; intros acc H; [done |].
  apply IH. by apply add_entry_ok.
Qed.

Lemma foldl_add_entry_elem acc es e :
  acc_ok acc →
  e ∈ (foldl add_entry acc es).1 ↔
  (e ∈ acc.1 ∨
   (∃ pre post, es = pre ++ (e :: post) ∧
      (source e ∉ map source acc.1) ∧ (source e ∉ map source pre))).
Proof.
  revert acc. induction es as [|e0 es IH]; intros acc Hok.
  - cbn [foldl]. split; [by left |].
    intros [H | (pre & post & H & _)]; [done |]. by destruct pre.
  - cbn [foldl]. rewrite (IH _ (add_entry_ok _ e0 Hok)).
    destruct Hok as [Hnd Hset]. unfold add_entry.
    case_bool_decide as Hin; cbn [fst snd].
    + apply Hset in Hin. split.
      * intros [H | (pre & post & -> & Hacc & Hpre)]; [by left |].
        right. exists (e0 :: pre), post. split; [done |]. split; [done |].
        cbn [map]. apply not_elem_of_cons. split; [congruence | done].
      * intros [H | (pre & post & Hes & Hacc & Hpre)]; [by left |].
        destruct pre as [|e1 pre]; simplify_eq/=; [done |].
        right. exists pre, post. split; [done |]. split; [done |].
        by apply not_elem_of_cons in Hpre as [_ ?].
    + rewrite Hset in Hin. rewrite elem_of_app, list_elem_of_singleton.
      split.
      * intros [[H | ->] | (pre & post & -> & Hacc & Hpre)].
        -- by left.
        -- right. exists [], es. split; [done |]. split; [done |].
           cbn [map]. apply not_elem_of_nil.
        -- right. exists (e0 :: pre), post. split; [done |].
           rewrite map_app in Hacc. apply not_elem_of_app in Hacc as [Ha Hb].
           split; [done |]. cbn [map]. apply not_elem_of_cons.
           split; [|done]. intros Heq. apply Hb. rewrite Heq. by left.
      * intros [H | (pre & post & Hes & Hacc & Hpre)]; [by (left; left) |].
        destruct pre as [|e1 pre]; simplify_eq/=; [by (left; right) |].
        right. exists pre, post. apply not_elem_of_cons in Hpre as [? ?].
        split; [done |]. split; [|done].
        rewrite map_app. intros Hx. apply elem_of_app in Hx as [Hx | Hx].
        -- done.
        -- by apply list_elem_of_singleton in Hx.
Qed.

Lemma foldl_add_entry_covers acc es e :
  acc_ok acc → e ∈ es → source e ∈ map source (foldl add_entry acc es).1.
Proof.
  revert acc. induction es as [|e0 es IH]; intros acc Hok Hin.
  - by apply elem_of_nil in Hin.
  - cbn [foldl]. apply elem_of_cons in Hin as [-> | Hin].
    + assert (source e0 ∈ map source (add_entry acc e0).1) as H0.
      { destruct Hok as [_ Hset]. unfold add_entry.
        case_bool_decide as Hin; cbn [fst snd]; [by apply Hset |].
        rewrite map_app, elem_of_app. right. by apply list_elem_of_singleton. }
      apply list_elem_of_fmap in H0 as (e1 & Hs & H1).
      rewrite Hs. apply list_elem_of_fmap. exists e1. split; [done |].
      apply foldl_add_entry_elem; [by apply add_entry_ok | by left].
    + apply IH; [by apply add_entry_ok | done].
Qed.

(** What [retrieve_info] returns and logs. *)
Lemma retrieve_info_eq (env : collaborators) (st : AgentState)
    (log : list call) :
  let qs := search_queries_of (default "" (research_plan st)) in
  retrieve_info env st log
  = (Ok (only_raw_research_results
           (foldl add_entry ([], ∅)
              (omap entry_of_item (responses_seen env qs log))).1),
     log ++ map TavilyInvoke qs).
Proof.
  intros qs. unfold retrieve_info, bind. fold qs.
  by rewrite retrieve_loop_eq, foldl_add_item.
Qed.

(** C7. One retrieval pass stores no two entries with the same source, for
    every state and whatever the search tool answers; of the storable hits
    with one source, the entry kept is the first seen, and every source seen
    on a storable hit is kept. *)
Theorem retrieved_sources_unique (env : collaborators) (st : AgentState)
    (log : list call) :
  let qs := search_queries_of (default "" (research_plan st)) in
  let seen := omap entry_of_item (responses_seen env qs log) in
  ∃ rs,
    retrieve_info env st log
    = (Ok (only_raw_research_results rs), log ++ map TavilyInvoke qs) ∧
    NoDup (map source rs) ∧
    (∀ e, e ∈ rs ↔ first_seen e seen) ∧
    (∀ e, e ∈ seen → source e ∈ map source rs).
Proof.
  intros qs seen. eexists. split; [apply retrieve_info_eq |].
  fold qs seen. split; [|split].
  - apply (foldl_add_entry_ok ([], ∅) seen acc_ok_init).
  - intros e. rewrite (foldl_add_entry_elem ([], ∅) seen e acc_ok_init).
    unfold first_seen. cbn [fst map]. split.
    + intros [H | (pre & post & -> & _ & H)]; [by apply elem_of_nil in H |].
      by exists pre, post.
    + intros (pre & post & -> & H). right. exists pre, post.
      split; [done |]. split; [apply not_elem_of_nil | done].
  - intros e. apply (foldl_add_entry_covers ([], ∅) seen e acc_ok_init).
Qed.

(** ** Stored entries *)

Lemma entry_of_item_Some (it : item) (e : research_result) :
  entry_of_item it = Some e →
  item_url it = Some (source e) ∧
  py_or (item_content it) (item_snippet it) = Some (content e) ∧
  source e ≠ "" ∧ content e ≠ "".
Proof.
  unfold entry_of_item.
  destruct (item_url it) as [u|]; [|done].
  destruct (py_or _ _) as [c|]; [|done].
  destruct u as [|a u], c as [|b c]; simpl; try done.
  intros [= <-]. by repeat split.
Qed.

Lemma entry_of_item_None (it : item) :
  truthy (item_url it) = false ∨
  (truthy (item_content it) = false ∧ truthy (item_snippet it) = false) →
  entry_of_item it = None.
Proof.
  unfold entry_of_item, py_or. intros [Hu | [Hc Hs]].
  - destruct (item_url it) as [[|a u]|]; try done.
    by destruct (if truthy _ then _ else _).
  - rewrite Hc. destruct (item_url it) as [u|]; [|done].
    destruct (item_snippet it) as [[|b c]|]; try done.
    by rewrite andb_false_r.
Qed.

(** C9. Every entry the retrieve step stores has a non-empty source and a
    non-empty content; it comes from a hit whose url is that source and whose
    content (or, when the content is missing or empty, snippet) is that
    content.  A hit without a url, or whose content and snippet are both
    missing or empty, leaves the loop's state as it is: it is dropped, and
    nothing is raised. *)
Theorem retrieved_entries_nonempty (env : collaborators) (st : AgentState)
    (log : list call) :
  let qs := search_queries_of (default "" (research_plan st)) in
  ∃ rs,
    fst (retrieve_info env st log) = Ok (only_raw_research_results rs) ∧
    (∀ e, e ∈ rs →
       source e ≠ "" ∧ content e ≠ "" ∧
       ∃ it, it ∈ responses_seen env qs log ∧
         item_url it = Some (source e) ∧
         py_or (item_content it) (item_snippet it) = Some (content e)) ∧
    (∀ it acc,
       truthy (item_url it) = false ∨
       (truthy (item_content it) = false ∧ truthy (item_snippet it) = false) →
       add_item acc it = acc).
Proof.
  intros qs. eexists. split; [by rewrite retrieve_info_eq |]. split.
  - intros e He.
    apply (foldl_add_entry_elem ([], ∅) _ e acc_ok_init) in He
      as [He | (pre & post & Hes & _)]; [by apply elem_of_nil in He |].
    assert (e ∈ omap entry_of_item (responses_seen env qs log)) as Hin.
    { fold qs in Hes. rewrite Hes, elem_of_app. right. by left. }
    apply list_elem_of_omap in Hin as (it & Hit & Hsome).
    apply entry_of_item_Some in Hsome as (Hu & Hc & Hs1 & Hs2).
    repeat split; [done | done |]. by exists it.
  - intros it acc H. by rewrite add_item_entry, entry_of_item_None.
Qed.

(** ** The formatted block *)

Lemma rstrip_nonspace (c : ascii) (s : string) :
  is_space c = false → rstrip (String c s) ≠ "".
Proof. intros H. simpl. rewrite H. by destruct (rstrip s). Qed.

Lemma strip_nonspace (c : ascii) (s : string) :
  is_space c = false → strip (String c s) ≠ "".
Proof.
  intros H. unfold strip. cbn [lstrip]. rewrite H.
  by apply rstrip_nonspace.
Qed.

Lemma format_results_blank (raw_results : list research_result) :
  strip (format_results raw_results) = "" ↔ raw_results = [].
Proof.
  split; [|by intros ->].
  destruct raw_results as [|r rest]; [done |]. intros H. exfalso.
  revert H. unfold format_results. cbn [map join].
  destruct (map _ rest); by apply strip_nonspace.
Qed.

Lemma summarize_info_blank (env : collaborators) (st : AgentState)
    (log : list call) (q : string) :
  query st = Some q →
  strip (format_results (default [] (raw_research_results st))) = "" →
  summarize_info env st log = (Ok (only_summary no_results_message), log).
Proof.
  intros Hq Hblank. unfold summarize_info. rewrite Hq, Hblank. reflexivity.
Qed.

(** C8. When the accumulated results are empty, which is exactly when their
    formatted block is blank once stripped, the summarize step returns the
    fixed no-results message and makes no call: the log is unchanged. *)
Theorem summarize_short_circuits (env : collaborators) (st : AgentState)
    (log : list call) (q : string) :
  query st = Some q →
  strip (format_results (default [] (raw_research_results st))) = "" →
  summarize_info env st log = (Ok (only_summary no_results_message), log) ∧
  default [] (raw_research_results st) = [].
Proof.
  intros Hq Hblank. split; [|by apply format_results_blank].
  by apply (summarize_info_blank env st log q).
Qed.

Lemma responses_seen_all_failed (env : collaborators) (qs : list string)
    (log : list call) :
  (∀ l q, ∃ e, tavily_invoke env l q = Raise e) →
  responses_seen env qs log = [].
Proof.
  intros Hfail. revert log. induction qs as [|q qs IH]; intros log; [done |].
  cbn [responses_seen]. destruct (Hfail log q) as [e ->]. apply IH.
Qed.

(** When every search fails, the retrieve step still returns, with no
    result, and the summarize step that follows returns the fixed message
    without calling the LLM. *)
Lemma failed_searches_short_circuit (env : collaborators) (st : AgentState)
    (log : list call) (q : string) :
  (∀ l q', ∃ e, tavily_invoke env l q' = Raise e) →
  query st = Some q →
  let log1 :=
    log ++ map TavilyInvoke
             (search_queries_of (default "" (research_plan st))) in
  retrieve_info env st log = (Ok (only_raw_research_results []), log1) ∧
  summarize_info env (merge_state st (only_raw_research_results [])) log1
  = (Ok (only_summary no_results_message), log1).
Proof.
  intros Hfail Hq log1. split.
  - rewrite retrieve_info_eq. by rewrite (responses_seen_all_failed env _ _ Hfail).
  - by apply (summarize_info_blank env _ log1 q).
Qed.

(** The fact-check step is skipped when there is no result. *)
Lemma fact_check_skipped (env : collaborators) (st : AgentState)
    (log : list call) (q : string) :
  query st = Some q →
  default [] (raw_research_results st) = [] →
  fact_check_summary env st log
  = (Ok (only_fact_check_results fact_check_skipped_message), log).
Proof.
  intros Hq Hraw. unfold fact_check_summary. by rewrite Hq, Hraw.
Qed.

(** ** The follow-up step *)

(** C10, as the code has it.  The follow-up step never raises and makes no
    call.  It puts the fixed fallback in place of a summary or a fact-check
    report that is absent from the state, and in place of the sources when
    the raw results are absent or empty; a summary or report that is present
    is passed on as it is, also when it is the empty string. *)
Theorem follow_up_total (st : AgentState) (log : list call) :
  answer_follow_up_question st log
  = (Ok (render FollowUpPrompt
           [("summary", default summary_fallback (summary st));
            ("fact_check_results",
             default fact_check_fallback (fact_check_results st));
            ("formatted_results",
             match raw_research_results st with
             | None | Some [] => sources_fallback
             | Some rs => format_results rs
             end);
            ("follow_up_query", default "" (query st))]),
     log).
Proof.
  unfold answer_follow_up_question, ret. do 5 f_equal.
  destruct (raw_research_results st) as [[|r rs]|]; try reflexivity.
  destruct (String.eqb _ "") eqn:E; [|done].
  apply String.eqb_eq, format_results_blank in E. discriminate.
Qed.

(** C10, as stated, fails: a summary and a fact-check report that are
    present and empty reach the directive unchanged. *)
Lemma follow_up_keeps_empty_texts :
  answer_follow_up_question state_with_empty_texts []
  = (Ok (render FollowUpPrompt
           [("summary", ""); ("fact_check_results", "");
            ("formatted_results", sources_fallback);
            ("follow_up_query", "why?")]), []) ∧
  ¬ follow_up_substitutes_when_absent_or_empty.
Proof.
  split; [reflexivity |].
  intros H. destruct (H state_with_empty_texts []) as (inputs & Heq & Hs & _).
  injection Heq as <-. specialize (Hs eq_refl). discriminate.
Qed.

(** ** Lines and the numbered-line pattern *)

Lemma newline_is_space (c : N) : (c =? newline)%N = true → is_space_cp c = true.
Proof. intros H. apply N.eqb_eq in H as ->. reflexivity. Qed.

Lemma space_not_decimal (c : N) : is_space_cp c = true → is_decimal_cp c = false.
Proof.
  unfold is_space_cp. intros H. apply existsb_exists in H as (v & Hin & Hv).
  apply N.eqb_eq in Hv as <-.
  repeat (destruct Hin as [<- | Hin]; [reflexivity |]). destruct Hin.
Qed.

Lemma decimal_not_space (c : N) : is_decimal_cp c = true → is_space_cp c = false.
Proof.
  intros H. destruct (is_space_cp c) eqn:E; [|done].
  apply space_not_decimal in E. congruence.
Qed.

Lemma decimal_not_newline (c : N) :
  is_decimal_cp c = true → (c =? newline)%N = false.
Proof.
  intros H. destruct (c =? newline)%N eqn:E; [|done].
  apply newline_is_space in E. apply decimal_not_space in H. congruence.
Qed.

Lemma lines_nonempty (t : list N) : lines t ≠ [].
Proof.
  induction t as [|c t IH]; [done |]. cbn [lines].
  destruct (c =? newline)%N; [done |]. by destruct (lines t).
Qed.

Lemma unlines_cons2 (l l2 : list N) (ls : list (list N)) :
  unlines (l :: l2 :: ls) = l ++ newline :: unlines (l2 :: ls).
Proof. reflexivity. Qed.

Lemma unlines_lines (t : list N) : unlines (lines t) = t.
Proof.
  induction t as [|c t IH]; [done |]. cbn [lines].
  destruct (c =? newline)%N eqn:E.
  - apply N.eqb_eq in E as ->.
    destruct (lines t) as [|l ls] eqn:El; [by apply lines_nonempty in El |].
    by rewrite unlines_cons2, IH.
  - destruct (lines t) as [|l ls] eqn:El; [by apply lines_nonempty in El |].
    destruct ls as [|l2 ls].
    + cbn [unlines] in *. by rewrite IH.
    + rewrite unlines_cons2 in *. cbn [app]. by rewrite IH.
Qed.

Lemma no_nl_cons (c : N) (t : list N) :
  no_nl (c :: t) ↔ (c =? newline)%N = false ∧ no_nl t.
Proof.
  unfold no_nl. cbn [forallb]. by rewrite andb_true_iff, negb_true_iff.
Qed.

Lemma lines_no_nl (t : list N) : Forall no_nl (lines t).
Proof.
  induction t as [|c t IH]; [by repeat constructor |]. cbn [lines].
  destruct (c =? newline)%N eqn:E; [by constructor |].
  destruct (lines t) as [|l ls] eqn:El; [by apply lines_nonempty in El |].
  inversion IH as [|? ? Hl Hls]; subst. constructor; [|done].
  by apply no_nl_cons.
Qed.

Lemma skip_spaces_cons (c : N) (s : list N) :
  skip_spaces (c :: s)
  = if is_space_cp c then (S (skip_spaces s).1, (skip_spaces s).2)
    else (0, c :: s).
Proof.
  cbn [skip_spaces]. destruct (is_space_cp c); [|done].
  by destruct (skip_spaces s).
Qed.

Lemma skip_digits_cons (c : N) (s : list N) :
  skip_digits (c :: s)
  = if is_decimal_cp c then (S (skip_digits s).1, (skip_digits s).2)
    else (0, c :: s).
Proof.
  cbn [skip_digits]. destruct (is_decimal_cp c); [|done].
  by destruct (skip_digits s).
Qed.

Lemma match_numbered_unfold (s : list N) :
  match_numbered s
  = match skip_digits (skip_spaces s).2 with
    | (S n2, c :: s3) =>
        if (c =? full_stop)%N then
          let cap := take_line (skip_spaces s3).2 in
          Some (cap,
                (skip_spaces s).1 + S n2 + 1 + (skip_spaces s3).1
                + length cap)
        else None
    | _ => None
    end.
Proof.
  unfold match_numbered. destruct (skip_spaces s) as [n1 s1]. cbn [fst snd].
  destruct (skip_digits s1) as [[|n2] [|c s3]]; try done.
  destruct (c =? full_stop)%N; [|done]. by destruct (skip_spaces s3).
Qed.

(** The pattern's scanners against the generic list functions. *)
Lemma skip_spaces_snd (s : list N) :
  (skip_spaces s).2 = drop_while is_space_cp s.
Proof.
  induction s as [|c s IH]; [done |]. rewrite skip_spaces_cons.
  cbn [drop_while]. by destruct (is_space_cp c).
Qed.

Lemma skip_digits_snd (s : list N) :
  (skip_digits s).2 = drop_while is_decimal_cp s.
Proof.
  induction s as [|c s IH]; [done |]. rewrite skip_digits_cons.
  cbn [drop_while]. by destruct (is_decimal_cp c).
Qed.

Lemma skip_digits_fst (s : list N) :
  (skip_digits s).1 = length (take_while is_decimal_cp s).
Proof.
  induction s as [|c s IH]; [done |]. rewrite skip_digits_cons.
  cbn [take_while]. destruct (is_decimal_cp c); [|done].
  cbn [fst length]. by rewrite IH.
Qed.

(** The line-by-line reading, in terms of the scanners. *)
Lemma numbered_line_text_scan (line : list N) :
  numbered_line_text line
  = match skip_digits (drop_while is_space_cp line) with
    | (S _, c :: rest) =>
        if (c =? full_stop)%N then Some (drop_while is_space_cp rest)
        else None
    | _ => None
    end.
Proof.
  unfold numbered_line_text.
  pose proof (skip_digits_fst (drop_while is_space_cp line)) as H1.
  pose proof (skip_digits_snd (drop_while is_space_cp line)) as H2.
  destruct (skip_digits (drop_while is_space_cp line)) as [n x].
  cbn [fst snd] in *. rewrite <- H2.
  destruct (take_while is_decimal_cp _) as [|d ds];
    cbn [length] in H1; subst n; [done |]. done.
Qed.

Lemma skip_spaces_length (s : list N) :
  (skip_spaces s).1 + length (drop_while is_space_cp s) = length s.
Proof.
  induction s as [|c s IH]; [done |]. rewrite skip_spaces_cons.
  cbn [drop_while]. destruct (is_space_cp c); cbn [fst length]; lia.
Qed.

Lemma skip_digits_length (s : list N) :
  (skip_digits s).1 + length (skip_digits s).2 = length s.
Proof.
  induction s as [|c s IH]; [done |]. rewrite skip_digits_cons.
  destruct (is_decimal_cp c); cbn [fst snd length]; lia.
Qed.

Lemma skip_spaces_blank (a r : list N) :
  blank a →
  skip_spaces (a ++ r) = (length a + (skip_spaces r).1, (skip_spaces r).2).
Proof.
  unfold blank. induction a as [|c a IH]; intros H.
  - cbn [app length]. by destruct (skip_spaces r).
  - cbn [forallb] in H. apply andb_true_iff in H as [Hc Ha].
    cbn [app]. by rewrite skip_spaces_cons, Hc, (IH Ha).
Qed.

Lemma skip_spaces_within (s r : list N) :
  drop_while is_space_cp s ≠ [] →
  skip_spaces (s ++ r) = ((skip_spaces s).1, drop_while is_space_cp s ++ r).
Proof.
  induction s as [|c s IH]; intros H; [done |].
  cbn [app]. rewrite !skip_spaces_cons. cbn [drop_while] in *.
  destruct (is_space_cp c); [|done]. by rewrite (IH H).
Qed.

Lemma skip_digits_stop (s : list N) (c : N) (x : list N) :
  (skip_digits s).2 = c :: x → is_decimal_cp c = false.
Proof.
  induction s as [|d s IH]; [done |]. rewrite skip_digits_cons.
  destruct (is_decimal_cp d) eqn:E; cbn [snd]; [done |]. by intros [= <- _].
Qed.

Lemma skip_digits_within (s r : list N) (c : N) (x : list N) :
  (skip_digits s).2 = c :: x →
  skip_digits (s ++ r) = ((skip_digits s).1, c :: x ++ r).
Proof.
  induction s as [|d s IH]; [done |].
  cbn [app]. rewrite !skip_digits_cons.
  destruct (is_decimal_cp d) eqn:E; cbn [fst snd].
  - intros H. by rewrite (IH H).
  - intros [= <- <-]. done.
Qed.

Lemma skip_digits_to_end (s r : list N) :
  (skip_digits s).2 = [] → line_end r →
  skip_digits (s ++ r) = ((skip_digits s).1, r).
Proof.
  induction s as [|d s IH]; intros H Hr.
  - destruct r as [|c r]; [done |]. cbn [line_end] in Hr. subst c.
    cbn [app]. by rewrite skip_digits_cons.
  - cbn [app]. rewrite !skip_digits_cons in *.
    destruct (is_decimal_cp d); [|done]. cbn [fst snd] in *.
    by rewrite (IH H Hr).
Qed.

Lemma no_nl_drop_spaces (s : list N) :
  no_nl s → no_nl (drop_while is_space_cp s).
Proof.
  induction s as [|c s IH]; [done |]. intros H. cbn [drop_while].
  destruct (is_space_cp c); [|done]. apply IH. by apply no_nl_cons in H as [_ ?].
Qed.

Lemma no_nl_skip_digits (s : list N) : no_nl s → no_nl (skip_digits s).2.
Proof.
  induction s as [|c s IH]; [done |]. intros H. rewrite skip_digits_cons.
  destruct (is_decimal_cp c); [|done]. apply IH.
  by apply no_nl_cons in H as [_ ?].
Qed.

Lemma take_line_whole (t r : list N) :
  no_nl t → line_end r → take_line (t ++ r) = t.
Proof.
  induction t as [|c t IH]; intros Ht Hr.
  - destruct r as [|c r]; [done |]. cbn [line_end] in Hr. by subst c.
  - apply no_nl_cons in Ht as [Hc Ht]. cbn [app take_line].
    by rewrite Hc, (IH Ht Hr).
Qed.

Lemma numbered_line_nonblank (l t : list N) :
  numbered_line_text l = Some t → drop_while is_space_cp l ≠ [].
Proof. rewrite numbered_line_text_scan. intros H E. by rewrite E in H. Qed.

(** A numbered line with a text is matched as a whole, text captured. *)
Lemma match_numbered_line (l t r : list N) :
  no_nl l → numbered_line_text l = Some t → t ≠ [] → line_end r →
  match_numbered (l ++ r) = Some (t, length l).
Proof.
  intros Hl Ht Hne Hr. pose proof (numbered_line_nonblank _ _ Ht) as Hnb.
  pose proof (skip_spaces_length l) as Len1.
  pose proof (skip_digits_length (drop_while is_space_cp l)) as Len2.
  pose proof (no_nl_skip_digits _ (no_nl_drop_spaces _ Hl)) as Hnl.
  rewrite numbered_line_text_scan in Ht.
  rewrite match_numbered_unfold, (skip_spaces_within _ _ Hnb). cbn [fst snd].
  destruct (skip_digits (drop_while is_space_cp l)) as [n2 x] eqn:Ed.
  destruct n2 as [|n2]; [done |]. destruct x as [|c rest]; [done |].
  rewrite (skip_digits_within _ r c rest) by (by rewrite Ed).
  rewrite Ed. cbn [fst snd] in *.
  destruct (c =? full_stop)%N; [|done]. injection Ht as Ht.
  apply no_nl_cons in Hnl as [_ Hnl].
  assert (drop_while is_space_cp rest ≠ []) as Hrest by congruence.
  rewrite (skip_spaces_within _ _ Hrest). cbn [fst snd].
  rewrite Ht, (take_line_whole t r);
    [|rewrite <- Ht; by apply no_nl_drop_spaces|done].
  pose proof (skip_spaces_length rest) as Len3. rewrite Ht in Len3.
  cbn [length] in Len2. do 2 f_equal. lia.
Qed.

(** A line that is neither blank nor numbered is not matched. *)
Lemma match_numbered_other (l r : list N) :
  no_nl l → drop_while is_space_cp l ≠ [] → numbered_line_text l = None →
  line_end r →
  match_numbered (l ++ r) = None.
Proof.
  intros Hl Hnb Ht Hr. rewrite numbered_line_text_scan in Ht.
  rewrite match_numbered_unfold, (skip_spaces_within _ _ Hnb). cbn [fst snd].
  destruct (skip_digits (drop_while is_space_cp l)) as [n2 x] eqn:Ed.
  destruct x as [|c rest].
  - rewrite (skip_digits_to_end _ r) by (by rewrite ?Ed). rewrite Ed.
    cbn [fst]. destruct n2; [done |]. destruct r as [|c r]; [done |].
    cbn [line_end] in Hr. by subst c.
  - rewrite (skip_digits_within _ r c rest) by (by rewrite Ed). rewrite Ed.
    cbn [fst]. destruct n2; [done |]. by destruct (c =? full_stop)%N.
Qed.

(** Blank lines before a match are absorbed by it. *)
Lemma match_numbered_blank (a r : list N) :
  blank a →
  match_numbered (a ++ r)
  = match match_numbered r with
    | Some (cap, len) => Some (cap, length a + len)
    | None => None
    end.
Proof.
  intros Ha. rewrite !match_numbered_unfold, (skip_spaces_blank _ _ Ha).
  cbn [fst snd]. destruct (skip_digits _) as [[|n2] [|c s3]]; try done.
  destruct (c =? full_stop)%N; [|done]. cbn zeta. do 2 f_equal. lia.
Qed.

Lemma match_numbered_length (s cap : list N) (len : nat) :
  match_numbered s = Some (cap, len) → ∃ k c s', len = S k ∧ s = c :: s'.
Proof.
  rewrite match_numbered_unfold. intros H.
  destruct s as [|c s']; [done |].
  destruct (skip_digits _) as [[|n2] [|d s3]]; try done.
  destruct (d =? full_stop)%N; [|done]. cbn zeta in H.
  injection H as _ H.
  exists (Nat.pred len), c, s'. split; [lia | done].
Qed.

(** ** The scan *)

Lemma findall_scan_cons (bol : bool) (skip : nat) (c : N) (s : list N) :
  findall_scan bol skip (c :: s)
  = match skip with
    | S k => findall_scan (c =? newline)%N k s
    | O =>
        match (if bol then match_numbered (c :: s) else None) with
        | Some (cap, len) =>
            cap :: findall_scan (c =? newline)%N (Nat.pred len) s
        | None => findall_scan (c =? newline)%N 0 s
        end
    end.
Proof. by destruct skip. Qed.

Lemma findall_scan_skip (a r : list N) (b : bool) (k : nat) :
  findall_scan b (length a + k) (a ++ r) = findall_scan (bol_after b a) k r.
Proof.
  revert b. induction a as [|c a IH]; intros b; [done |].
  cbn [app length Nat.add bol_after]. by rewrite findall_scan_cons, IH.
Qed.

Lemma findall_scan_to_newline (a r : list N) :
  no_nl a → findall_scan false 0 (a ++ newline :: r) = findall_scan true 0 r.
Proof.
  induction a as [|c a IH]; intros Ha.
  - cbn [app]. by rewrite findall_scan_cons.
  - apply no_nl_cons in Ha as [Hc Ha]. cbn [app].
    by rewrite findall_scan_cons, Hc, (IH Ha).
Qed.

Lemma findall_scan_to_end (a : list N) :
  no_nl a → findall_scan false 0 a = [].
Proof.
  induction a as [|c a IH]; intros Ha; [done |].
  apply no_nl_cons in Ha as [Hc Ha].
  by rewrite findall_scan_cons, Hc, (IH Ha).
Qed.

Lemma bol_after_no_nl (a : list N) : no_nl a → bol_after false a = false.
Proof.
  induction a as [|c a IH]; intros Ha; [done |].
  apply no_nl_cons in Ha as [Hc Ha]. cbn [bol_after]. by rewrite Hc, (IH Ha).
Qed.

Lemma blank_drop_spaces (l : list N) :
  blank l ↔ drop_while is_space_cp l = [].
Proof.
  unfold blank. induction l as [|c l IH]; [done |]. cbn [forallb drop_while].
  destruct (is_space_cp c); cbn [andb]; [done |]. split; [done | discriminate].
Qed.

Lemma blank_app_newline (l : list N) : blank l → blank (l ++ [newline]).
Proof.
  unfold blank. induction l as [|c l IH]; [done |]. cbn [app forallb].
  rewrite !andb_true_iff. intros [? ?]. auto.
Qed.

Lemma bol_after_app_newline (b : bool) (l : list N) :
  bol_after b (l ++ [newline]) = true.
Proof.
  revert b. induction l as [|c l IH]; intros b; [done |].
  cbn [app bol_after]. apply IH.
Qed.

(** A blank line changes nothing for the lines after it. *)
Lemma findall_scan_blank_line (l R : list N) :
  blank l → no_nl l →
  findall_scan true 0 (l ++ newline :: R) = findall_scan true 0 R.
Proof.
  intros Hb Hl.
  assert (∃ c a', l ++ [newline] = c :: a' ∧
                  l ++ newline :: R = c :: (a' ++ R) ∧
                  findall_scan (c =? newline)%N 0 (a' ++ R)
                  = findall_scan true 0 R)
    as (c & a' & Ea & Es & Hnone).
  { destruct l as [|c l'].
    - exists newline, []. by repeat split.
    - exists c, (l' ++ [newline]). apply no_nl_cons in Hl as [Hc Hl].
      cbn [app]. rewrite <- app_assoc. repeat split.
      rewrite Hc. by apply findall_scan_to_newline. }
  pose proof (match_numbered_blank _ R (blank_app_newline _ Hb)) as Hm.
  pose proof (bol_after_app_newline true l) as Hbol.
  rewrite Ea in Hm, Hbol. cbn [app] in Hm.
  cbn [bol_after length] in Hm, Hbol.
  rewrite Es, findall_scan_cons, Hm.
  destruct (match_numbered R) as [[cap len]|] eqn:ER; [|done].
  destruct (match_numbered_length _ _ _ ER) as (k & c' & R' & -> & ->).
  cbn [Nat.add Nat.pred]. rewrite findall_scan_skip, Hbol.
  by rewrite !findall_scan_cons, ER.
Qed.

(** The scan of a text, line by line. *)
Lemma findall_scan_lines (ls : list (list N)) :
  Forall no_nl ls →
  Forall (λ l, numbered_line_text l ≠ Some []) ls →
  findall_scan true 0 (unlines ls) = omap numbered_line_text ls.
Proof.
  induction ls as [|l ls IH]; intros Hnl Hok; [done |].
  inversion Hnl as [|? ? Hl Hls]; subst.
  inversion Hok as [|? ? Ht Hts]; subst.
  assert (∀ R, line_end R →
    findall_scan true 0 (l ++ R)
    = match numbered_line_text l with Some t => [t] | None => [] end
      ++ match R with
         | [] => []
         | _ :: R' => findall_scan true 0 R'
         end) as Hline.
  { intros R HR.
    destruct (decide (drop_while is_space_cp l = [])) as [Hb | Hnb].
    - assert (numbered_line_text l = None) as ->
        by (rewrite numbered_line_text_scan; by rewrite Hb).
      apply blank_drop_spaces in Hb. destruct R as [|c R'].
      + rewrite app_nil_r. destruct l as [|c l']; [done |].
        pose proof (match_numbered_blank _ [] Hb) as Hm.
        rewrite app_nil_r in Hm.
        rewrite findall_scan_cons, Hm. cbn [match_numbered skip_spaces skip_digits app].
        apply no_nl_cons in Hl as [-> Hl]. by apply findall_scan_to_end.
      + cbn [line_end] in HR. subst c. by apply findall_scan_blank_line.
    - destruct l as [|c l']; [done |].
      pose proof Hl as Hl0. apply no_nl_cons in Hl as [Hc Hl].
      change ((c :: l') ++ R) with (c :: (l' ++ R)).
      rewrite findall_scan_cons.
      change (c :: (l' ++ R)) with ((c :: l') ++ R).
      destruct (numbered_line_text (c :: l')) as [t|] eqn:Et.
      + rewrite (match_numbered_line _ t R Hl0 Et) by (done || congruence).
        cbn [length Nat.pred app]. f_equal.
        rewrite <- (Nat.add_0_r (length l')), findall_scan_skip.
        rewrite Hc, (bol_after_no_nl _ Hl).
        destruct R as [|d R']; [done |]. cbn [line_end] in HR. subst d.
        by rewrite findall_scan_cons.
      + rewrite (match_numbered_other _ R Hl0 Hnb Et HR), Hc.
        destruct R as [|d R']; [by rewrite app_nil_r, findall_scan_to_end |].
        cbn [line_end] in HR. subst d. by apply findall_scan_to_newline. }
  destruct ls as [|l2 ls].
  - cbn [unlines]. rewrite <- (app_nil_r l) at 1. rewrite (Hline [] I).
    simpl. by destruct (numbered_line_text l).
  - rewrite unlines_cons2.
    rewrite (Hline (newline :: _)) by reflexivity. rewrite (IH Hls Hts).
    simpl. by destruct (numbered_line_text l).
Qed.

(** On a plan none of whose numbered lines has an empty text, the pattern
    finds the texts of the numbered lines, in order. *)
Lemma findall_numbered_lines (plan : string) :
  every_item_has_text plan → findall_numbered plan = numbered_lines plan.
Proof.
  intros H. unfold findall_numbered, numbered_lines. f_equal.
  rewrite <- (unlines_lines (utf8_decode plan)) at 1.
  apply findall_scan_lines; [apply lines_no_nl | done].
Qed.

(** C6. The retrieve step issues one search call per sub-query, in order,
    and nothing else; it always returns.  The sub-queries are what the
    pattern finds in the plan, and the whole plan when it finds nothing.  On
    a plan every numbered line of which has a text, what the pattern finds
    is, line by line and in plan order, the text of every numbered line: so
    on a two-item plan, also when a no-break space follows the dot or the
    number is written in Arabic-Indic digits.  A numbered line without a
    text breaks this: on the plan whose lines are [1.] and [2. Effects] the
    reading line by line gives the texts of two items, the second being
    [Effects], while the step issues one search, for the whole of the second
    line, number included. *)
Theorem retrieve_splits_plan (env : collaborators) (st : AgentState)
    (log : list call) :
  let plan := default "" (research_plan st) in
  let qs := search_queries_of plan in
  (∃ out, retrieve_info env st log = (Ok out, log ++ map TavilyInvoke qs)) ∧
  (findall_numbered plan = [] → qs = [plan]) ∧
  (findall_numbered plan ≠ [] → qs = findall_numbered plan) ∧
  (every_item_has_text plan → findall_numbered plan = numbered_lines plan) ∧
  (retrieve_info env
     (only_research_plan (Some ("1. Sources" +:+ NL +:+ "2. Effects"))) log).2
  = log ++ [TavilyInvoke "Sources"; TavilyInvoke "Effects"] ∧
  search_queries_of ("1." +:+ no_break_space +:+ "Foo") = ["Foo"] ∧
  search_queries_of (arabic_indic_one +:+ ". Foo" +:+ NL +:+ "2. Bar")
  = ["Foo"; "Bar"] ∧
  numbered_lines empty_item_plan = [""; "Effects"] ∧
  (retrieve_info env (only_research_plan (Some empty_item_plan)) log).2
  = log ++ [TavilyInvoke "2. Effects"].
Proof.
  intros plan qs. repeat apply conj.
  - eexists. apply retrieve_info_eq.
  - unfold qs, search_queries_of. by intros ->.
  - unfold qs, search_queries_of. by destruct (findall_numbered plan).
  - apply findall_numbered_lines.
  - by rewrite retrieve_info_eq.
  - reflexivity.
  - reflexivity.
  - reflexivity.
  - by rewrite retrieve_info_eq.
Qed.

Example split_two_numbered_lines :
  search_queries_of ("1. Sources" +:+ NL +:+ "2. Effects")
  = ["Sources"; "Effects"] ∧
  numbered_lines ("1. Sources" +:+ NL +:+ "2. Effects")
  = ["Sources"; "Effects"].
Proof. split; reflexivity. Qed.

Example split_text_without_numbers :
  search_queries_of "microplastics and marine life"
  = ["microplastics and marine life"].
Proof. reflexivity. Qed.

(** A numbered line without a text takes the next line as its text. *)
Example split_number_without_text :
  search_queries_of empty_item_plan = ["2. Effects"].
Proof. reflexivity. Qed.

(** The classes of the pattern are those of Unicode: a no-break space after
    the dot is skipped, and a number may be written in any script's decimal
    digits. *)
Example split_after_no_break_space :
  search_queries_of ("1." +:+ no_break_space +:+ "Foo") = ["Foo"].
Proof. reflexivity. Qed.

Example split_arabic_indic_number :
  search_queries_of (arabic_indic_one +:+ ". Foo" +:+ NL +:+ "2. Bar")
  = ["Foo"; "Bar"].
Proof. reflexivity. Qed.

(** Blanks before the number, a missing blank after the dot and a carriage
    return at the end of a line. *)
Example split_loose_lines :
  search_queries_of
    ("  12.x " +:+ NL +:+ "text" +:+ NL +:+ "3.  y"
     +:+ String (ascii_of_nat 13) "" +:+ NL)
  = ["x "; "y" +:+ String (ascii_of_nat 13) ""].
Proof. reflexivity. Qed.

(** ** Running the graph *)

Section Run.

Variable env : collaborators.

Lemma async_for_unfold (tid : string) (body : loop_body) (budget : nat)
    (resuming : bool) (w : world) :
  async_for (research_graph env) tid body budget resuming w
  = match astream_next (research_graph env) tid resuming budget w with
    | (StreamEnd, w') => ([], Continue, w')
    | (StreamRaise e, w') => ([], Throw e, w')
    | (Chunk name output, w') =>
        let '(evs, fl, log') := body name output (log w') in
        let w'' := {| store := store w'; log := log' |} in
        match fl, budget with
        | Continue, S budget' =>
            let '(evs', fl', w3) := async_for (research_graph env) tid body budget' false w'' in
            (evs ++ evs', fl', w3)
        | Continue, O => (evs, Throw GraphRecursionError, w'')
        | _, _ => (evs, fl, w'')
        end
    end.
Proof. by destruct budget. Qed.

Lemma astream_next_pending (tid : string) (resuming : bool) (budget : nat)
    (w : world) (ck : checkpoint) (n : string)
    (action : AgentState → comp AgentState) :
  store w !! tid = Some ck →
  next_node (research_graph env) (last_node ck) (values ck) = Some n →
  String.eqb n END = false →
  negb resuming && bool_decide (n ∈ interrupt_before (research_graph env)) = false →
  assoc n (nodes (builder (research_graph env))) = Some action →
  astream_next (research_graph env) tid resuming (S budget) w
  = match action (values ck) (log w) with
    | (Raise e, log') => (StreamRaise e, {| store := store w; log := log' |})
    | (Ok output, log') =>
        (Chunk n output,
         {| store :=
              <[tid := {| values := merge_state (values ck) output;
                          last_node := n |}]> (store w);
            log := log' |})
    end.
Proof.
  intros Hck Hn Hend Hint Hact. unfold astream_next.
  by rewrite Hck, Hn, Hend, Hint, Hact.
Qed.

Lemma astream_next_interrupt (tid : string) (budget : nat) (w : world)
    (ck : checkpoint) :
  store w !! tid = Some ck →
  next_node (research_graph env) (last_node ck) (values ck) = Some "retrieve_info" →
  astream_next (research_graph env) tid false budget w = (StreamEnd, w).
Proof. intros Hck Hn. unfold astream_next. by rewrite Hck, Hn. Qed.

Lemma astream_next_end (tid : string) (resuming : bool) (budget : nat)
    (w : world) (ck : checkpoint) :
  store w !! tid = Some ck →
  next_node (research_graph env) (last_node ck) (values ck) = Some END →
  astream_next (research_graph env) tid resuming budget w = (StreamEnd, w).
Proof. intros Hck Hn. unfold astream_next. by rewrite Hck, Hn. Qed.

Lemma put_input_lookup (tid : string) (input : AgentState) (w : world) :
  store (put_input tid input w) !! tid
  = Some {| values :=
              merge_state (values (default empty_checkpoint (store w !! tid)))
                input;
            last_node := START |}.
Proof. unfold put_input. cbn [store]. apply lookup_insert_eq. Qed.

Lemma chat_body_plan (plan : string) (log : list call) :
  chat_body_of_loop env "generate_research_plan"
    (only_research_plan (Some plan)) log
  = if truthy (Some plan) then ([Ev_research_plan plan], Return, log)
    else ([], Continue, log).
Proof. by destruct plan. Qed.

(** A turn the router sends to the plan step, in full. *)
Lemma chat_plan_turn (tid : string) (input : AgentState) (w : world) :
  let st :=
    merge_state (values (default empty_checkpoint (store w !! tid))) input in
  route_initial_or_follow_up st = "generate_research_plan" →
  chat_event_stream env tid input w
  = match original_query st with
    | None =>
        ([Ev_thread_id tid; Ev_error (KeyError "original_query")],
         put_input tid input w)
    | Some oq =>
        let log' := log w ++ [LLMInvoke PlanPrompt [("query", oq)]] in
        match llm_invoke env (log w) PlanPrompt [("query", oq)] with
        | Raise e =>
            ([Ev_thread_id tid; Ev_error e],
             {| store := store (put_input tid input w); log := log' |})
        | Ok plan =>
            (Ev_thread_id tid ::
               (if truthy (Some plan) then [Ev_research_plan plan]
                else [Ev_done]),
             {| store :=
                  <[tid := {| values :=
                                merge_state st (only_research_plan (Some plan));
                              last_node := "generate_research_plan" |}]>
                    (store w);
                log := log' |})
        end
    end.
Proof.
  intros st Hroute. unfold chat_event_stream, recursion_limit.
  rewrite async_for_unfold.
  rewrite (astream_next_pending tid false _ _ _ "generate_research_plan"
             (generate_research_plan env) (put_input_lookup tid input w));
    [| cbn [last_node values]; rewrite entry_is_router;
       exact (f_equal Some Hroute)
     | done | done | done].
  cbn [values]. fold st. unfold generate_research_plan, bind, subscript.
  destruct (original_query st) as [oq|]; [|reflexivity].
  unfold ret at 1. unfold chain_invoke. cbn [log put_input].
  destruct (llm_invoke env (log w) PlanPrompt [("query", oq)]) as [plan | e];
    [|reflexivity].
  unfold ret, put_input. cbn [log store]. rewrite insert_insert_eq.
  rewrite chat_body_plan.
  destruct (truthy (Some plan)) eqn:Etr; [reflexivity |].
  rewrite async_for_unfold.
  erewrite astream_next_interrupt;
    [reflexivity | cbn [store]; apply lookup_insert_eq | reflexivity].
Qed.

End Run.

Section Turns.

Variable env : collaborators.

(** C1, at a first contact.  The state a new conversation starts from has
    no [original_query]; the router sends it to the plan step, which reads
    that key and raises.  The turn ends with an error event, the LLM is not
    called, and the persisted state still lacks the key. *)
Theorem new_conversation_lacks_original_query (uuid : string)
    (log0 : list call) :
  chat_endpoint env uuid
    (Object {| req_query := Some "Impact of microplastics on marine life";
             req_thread_id := None |})
    {| store := ∅; log := log0 |}
  = (StreamingResponse
       [Ev_thread_id uuid; Ev_error (KeyError "original_query")],
     {| store :=
          {[ uuid :=
               {| values :=
                    initial_state uuid
                      (Some "Impact of microplastics on marine life");
                  last_node := START |} ]};
        log := log0 |}).
Proof.
  unfold chat_endpoint. cbn [req_query req_thread_id truthy negb].
  rewrite chat_plan_turn; [|reflexivity].
  cbn [store]. rewrite lookup_empty. reflexivity.
Qed.

(** Where the plan step completes.  In a turn the router does not send to
    the follow-up step and whose state holds [original_query], once the LLM
    has answered the plan is merged into the persisted state, the pending
    node is the retrieve step, before which the graph interrupts, and the
    only call made is the plan step's.  When the plan is not empty the
    turn's events are the thread id and then the plan awaiting approval,
    which is the last event; when it is empty no such event is emitted and
    the turn ends with [done]. *)
Lemma plan_turn_halts_before_retrieve (tid : string) (input : AgentState)
    (w : world) (oq plan : string) :
  let st :=
    merge_state (values (default empty_checkpoint (store w !! tid))) input in
  route_initial_or_follow_up st ≠ "answer_follow_up_question" →
  original_query st = Some oq →
  llm_invoke env (log w) PlanPrompt [("query", oq)] = Ok plan →
  ∃ ck,
    (chat_event_stream env tid input w).1
    = Ev_thread_id tid ::
        (if truthy (Some plan) then [Ev_research_plan plan] else [Ev_done]) ∧
    store (chat_event_stream env tid input w).2 !! tid = Some ck ∧
    values ck = merge_state st (only_research_plan (Some plan)) ∧
    research_plan (values ck) = Some plan ∧
    last_node ck = "generate_research_plan" ∧
    next_node (research_graph env) (last_node ck) (values ck) = Some "retrieve_info" ∧
    "retrieve_info" ∈ interrupt_before (research_graph env) ∧
    log (chat_event_stream env tid input w).2
    = log w ++ [LLMInvoke PlanPrompt [("query", oq)]].
Proof.
  intros st Hroute Hoq Hllm.
  assert (route_initial_or_follow_up st = "generate_research_plan") as Hr
    by (by destruct (route_cases st)).
  rewrite (chat_plan_turn env tid input w Hr). fold st. rewrite Hoq, Hllm.
  eexists. cbn [fst snd store log].
  split; [reflexivity |]. split; [apply lookup_insert_eq |].
  cbn [values last_node]. repeat split. apply list_elem_of_singleton.
  reflexivity.
Qed.

End Turns.

(** ** Resuming *)

Section Resume.

Variable env : collaborators.

Lemma next_node_fixed (n m : string) (v v' : AgentState) :
  next_node (research_graph env) n v = Some m →
  m = "retrieve_info" ∨ m = END →
  next_node (research_graph env) n v' = Some m.
Proof.
  intros H Hm. destruct (String.eqb_spec n START) as [-> | Hne].
  - rewrite entry_is_router in H.
    destruct (route_cases v) as [R | R]; rewrite R in H;
      destruct Hm as [-> | ->]; discriminate.
  - unfold next_node in *. apply String.eqb_neq in Hne.
    by rewrite Hne in *.
Qed.

Lemma update_state_lookup (tid : string) (vals : AgentState) (w : world)
    (ck : checkpoint) :
  store w !! tid = Some ck →
  store (update_state tid vals w) !! tid
  = Some {| values := merge_state (values ck) vals;
            last_node := last_node ck |}.
Proof.
  intros H. unfold update_state. cbn [store]. rewrite H.
  apply lookup_insert_eq.
Qed.

Lemma astream_next_out_of_budget (tid : string) (resuming : bool) (w : world) :
  ∃ e, astream_next (research_graph env) tid resuming 0 w = (StreamEnd, w) ∨
       astream_next (research_graph env) tid resuming 0 w = (StreamRaise e, w).
Proof.
  exists GraphRecursionError. unfold astream_next.
  destruct (store w !! tid) as [ck|]; [|by left].
  destruct (next_node _ _ _) as [n|]; [|by left].
  destruct (String.eqb n END); [by left |].
  destruct (negb resuming && _); [by left | by right].
Qed.

Lemma summarize_info_quiet : node_quiet (summarize_info env).
Proof.
  intros st log.
  unfold summarize_info, bind, subscript, chain_invoke, ret, raise.
  destruct (query st) as [q|]; [|quiet_case].
  destruct (String.eqb _ ""); [quiet_case |].
  destruct (llm_invoke _ _ _ _); quiet_case.
Qed.

Lemma fact_check_summary_quiet : node_quiet (fact_check_summary env).
Proof.
  intros st log.
  unfold fact_check_summary, bind, subscript, chain_invoke, ret, raise.
  destruct (query st) as [q|]; [|quiet_case].
  destruct (default [] (raw_research_results st)); [quiet_case |].
  destruct (llm_invoke _ _ _ _); quiet_case.
Qed.

Lemma generate_final_answer_quiet : node_quiet generate_final_answer.
Proof.
  intros st log. unfold generate_final_answer, bind, subscript, ret, raise.
  destruct (summary st), (fact_check_results st), (query st); quiet_case.
Qed.

Lemma stream_final_answer_log (node_output : AgentState) (name : string)
    (out : AgentState) (log : list call) :
  ∃ suffix,
    (stream_final_answer env node_output name out log).2 = log ++ suffix ∧
    Forall is_llm_call suffix.
Proof.
  unfold stream_final_answer.
  destruct (final_chain node_output) as [[c|]|];
    try (by exists []; rewrite app_nil_r).
  destruct (final_chain_inputs node_output) as [[|i l]|];
    try (by exists []; rewrite app_nil_r).
  destruct (llm_astream _ _ _ _). eexists. split; [reflexivity |].
  by repeat constructor.
Qed.

Lemma continue_body_log (name : string) (out : AgentState) (log : list call) :
  ∃ suffix,
    (continue_body_of_loop env name out log).2 = log ++ suffix ∧
    Forall is_llm_call suffix.
Proof.
  unfold continue_body_of_loop.
  destruct (String.eqb name END); [by exists []; rewrite app_nil_r |].
  destruct (stream_final_answer_log out name out log) as (suffix & H & Hall).
  exists suffix. by destruct (stream_final_answer _ _ _ _ _) as [[? ?] ?].
Qed.

Lemma tail_next (ck : checkpoint) :
  last_node ck ∈ tail_nodes →
  next_node (research_graph env) (last_node ck) (values ck) = Some END ∨
  ∃ n action,
    next_node (research_graph env) (last_node ck) (values ck) = Some n ∧
    String.eqb n END = false ∧
    bool_decide (n ∈ interrupt_before (research_graph env)) = false ∧
    assoc n (nodes (builder (research_graph env))) = Some action ∧
    node_quiet action ∧ n ∈ tail_nodes.
Proof.
  destruct ck as [v n]. cbn [last_node values]. unfold tail_nodes.
  rewrite !elem_of_cons. intros [-> | [-> | [-> | [-> | H]]]].
  - right. exists "summarize_info", (summarize_info env).
    repeat split; try done; [apply summarize_info_quiet | set_solver].
  - right. exists "fact_check_summary", (fact_check_summary env).
    repeat split; try done; [apply fact_check_summary_quiet | set_solver].
  - right. exists "generate_final_answer", generate_final_answer.
    repeat split; try done; [apply generate_final_answer_quiet | set_solver].
  - by left.
  - by apply elem_of_nil in H.
Qed.

Lemma merge_state_research_plan (old upd : AgentState) :
  research_plan (merge_state old upd)
  = match research_plan upd with
    | Some p => Some p
    | None => research_plan old
    end.
Proof. reflexivity. Qed.

(** After the retrieve step a resumed run makes no search call and leaves
    the plan as it is, however it ends. *)
Lemma resume_tail (tid : string) (p : string) (budget : nat) :
  ∀ (w : world) (ck : checkpoint),
    store w !! tid = Some ck →
    last_node ck ∈ tail_nodes →
    research_plan (values ck) = Some p →
    ∃ suffix ck',
      log (async_for (research_graph env) tid (continue_body_of_loop env)
             budget false w).2 = log w ++ suffix ∧
      Forall is_llm_call suffix ∧
      store (async_for (research_graph env) tid (continue_body_of_loop env)
               budget false w).2 !! tid = Some ck' ∧
      research_plan (values ck') = Some p.
Proof.
  induction budget as [|b IH]; intros w ck Hck Htail Hp;
    rewrite async_for_unfold.
  - destruct (astream_next_out_of_budget tid false w) as [e [-> | ->]];
      exists [], ck; by rewrite app_nil_r.
  - destruct (tail_next ck Htail)
      as [Hend | (n & action & Hn & Hne & Hint & Hact & Hq & Hn')].
    { rewrite (astream_next_end env tid false _ w ck Hck Hend).
      exists [], ck. by rewrite app_nil_r. }
    rewrite (astream_next_pending env tid false b w ck n action Hck Hn Hne)
      by (done || by rewrite Hint).
    destruct (Hq (values ck) (log w)) as (s1 & Hlog1 & Hall1 & Hplan1).
    destruct (action (values ck) (log w)) as [[out | e] log1];
      cbn [fst snd] in *.
    2:{ exists s1, ck. by subst. }
    specialize (Hplan1 out eq_refl). cbn [log store].
    destruct (continue_body_log n out log1) as (s2 & Hlog2 & Hall2).
    destruct (continue_body_of_loop env n out log1) as [[evs fl] log2].
    cbn [snd] in Hlog2.
    set (ck2 := {| values := merge_state (values ck) out; last_node := n |}).
    assert (research_plan (values ck2) = Some p) as Hp2
      by (cbn [values ck2]; by rewrite merge_state_research_plan, Hplan1).
    assert (log2 = log w ++ (s1 ++ s2)) as Hlog12
      by (by rewrite Hlog2, Hlog1, app_assoc).
    assert (Forall is_llm_call (s1 ++ s2)) as Hall12
      by (by apply Forall_app).
    destruct fl as [| |e].
    + destruct (IH {| store := <[tid:=ck2]> (store w); log := log2 |} ck2)
        as (s3 & ck3 & Hlog3 & Hall3 & Hck3 & Hp3);
        [apply lookup_insert_eq | done | done |].
      destruct (async_for _ _ _ b false _) as [[evs' fl'] w3].
      cbn [snd log] in *. exists ((s1 ++ s2) ++ s3), ck3.
      rewrite Hlog3, Hlog12, <- app_assoc. repeat split; try done.
      by apply Forall_app.
    + exists (s1 ++ s2), ck2. cbn [snd log store].
      repeat split; try done. apply lookup_insert_eq.
    + exists (s1 ++ s2), ck2. cbn [snd log store].
      repeat split; try done. apply lookup_insert_eq.
Qed.

End Resume.

Section ResumeTurn.

Variable env : collaborators.

Lemma continue_body_raw (rs : list research_result) (log : list call) :
  continue_body_of_loop env "retrieve_info" (only_raw_research_results rs) log
  = ([Ev_raw_research_results rs], Continue, log).
Proof. reflexivity. Qed.

(** Resuming a suspended conversation, in full. *)
Lemma resume_suspended (tid edited : string) (w : world) (ck : checkpoint) :
  store w !! tid = Some ck →
  next_node (research_graph env) (last_node ck) (values ck)
  = Some "retrieve_info" →
  ∃ rs evs suffix ck',
    retrieve_info env
      (merge_state (values ck) (only_research_plan (Some edited))) (log w)
    = (Ok (only_raw_research_results rs),
       log w ++ map TavilyInvoke (search_queries_of edited)) ∧
    (continue_event_stream env tid (Some edited) w).1
    = Ev_raw_research_results rs :: evs ∧
    log (continue_event_stream env tid (Some edited) w).2
    = log w ++ map TavilyInvoke (search_queries_of edited) ++ suffix ∧
    Forall is_llm_call suffix ∧
    store (continue_event_stream env tid (Some edited) w).2 !! tid = Some ck' ∧
    research_plan (values ck') = Some edited.
Proof.
  intros Hck Hnext.
  set (st1 := merge_state (values ck) (only_research_plan (Some edited))).
  pose proof (retrieve_info_eq env st1 (log w)) as Hr. cbn zeta in Hr.
  change (default "" (research_plan st1)) with edited in Hr.
  set (rs := (foldl add_entry ([], ∅) _).1) in Hr.
  unfold continue_event_stream, recursion_limit.
  rewrite async_for_unfold.
  rewrite (astream_next_pending env tid true _ _ _ "retrieve_info"
             (retrieve_info env)
             (update_state_lookup tid _ w ck Hck));
    [| cbn [last_node values];
       by apply (next_node_fixed env _ _ (values ck)); [|left]
     | done | done | done].
  cbn [values]. fold st1. change (log (update_state _ _ w)) with (log w).
  rewrite Hr. cbn [log store]. rewrite continue_body_raw.
  set (ck2 := {| values := merge_state st1 (only_raw_research_results rs);
                 last_node := "retrieve_info" |}).
  match goal with
  | |- context [async_for _ _ _ 24 false ?w2] =>
      destruct (resume_tail env tid edited 24 w2 ck2)
        as (suffix & ck' & Hlog & Hall & Hck' & Hp');
        [cbn [store]; apply lookup_insert_eq | by left | reflexivity |];
      destruct (async_for _ _ _ 24 false w2) as [[evs' fl'] w3]
  end.
  cbn [snd log] in Hlog, Hck'.
  exists rs. destruct fl'; cbn [close_stream fst snd];
    eexists _, suffix, ck';
    (split; [done |]; split; [reflexivity |];
     split; [by rewrite Hlog, <- app_assoc | done]).
Qed.

(** Resuming a conversation whose run has completed, in full. *)
Lemma resume_completed (tid : string) (plan : option string) (w : world)
    (ck : checkpoint) :
  store w !! tid = Some ck →
  next_node (research_graph env) (last_node ck) (values ck) = Some END →
  continue_event_stream env tid plan w
  = ([Ev_done], update_state tid (only_research_plan plan) w).
Proof.
  intros Hck Hnext. unfold continue_event_stream.
  rewrite async_for_unfold.
  rewrite (astream_next_end env tid true _ _ _
             (update_state_lookup tid _ w ck Hck)); [done |].
  cbn [last_node values].
  by apply (next_node_fixed env _ _ (values ck)); [|right].
Qed.

Lemma chat_continue_stream (tid plan : string) (w : world) :
  truthy (Some tid) = true → truthy (Some plan) = true →
  chat_continue_endpoint env
    (Object {| cont_thread_id := Some tid; cont_research_plan := Some plan |}) w
  = (StreamingResponse (continue_event_stream env tid (Some plan) w).1,
     (continue_event_stream env tid (Some plan) w).2).
Proof.
  intros Ht Hp. unfold chat_continue_endpoint.
  cbn [cont_thread_id cont_research_plan]. rewrite Ht, Hp.
  cbn [negb orb default]. by destruct (continue_event_stream _ _ _ _).
Qed.

(** Resuming a conversation whose pending node is the plan step, in
    full. *)
Lemma resume_plan_step (tid : string) (plan : option string) (w : world)
    (ck1 : checkpoint) :
  let w1 := update_state tid (only_research_plan plan) w in
  store w1 !! tid = Some ck1 →
  next_node (research_graph env) (last_node ck1) (values ck1)
  = Some "generate_research_plan" →
  continue_event_stream env tid plan w
  = match generate_research_plan env (values ck1) (log w) with
    | (Raise e, log') => ([Ev_error e], {| store := store w1; log := log' |})
    | (Ok output, log') =>
        ([Ev_done],
         {| store :=
              <[tid := {| values := merge_state (values ck1) output;
                          last_node := "generate_research_plan" |}]>
                (store w1);
            log := log' |})
    end.
Proof.
  intros w1 Hck Hnext. unfold continue_event_stream, recursion_limit.
  fold w1. rewrite async_for_unfold.
  rewrite (astream_next_pending env tid true _ w1 ck1
             "generate_research_plan" (generate_research_plan env)
             Hck Hnext); [| done | done | done].
  change (log w1) with (log w).
  unfold generate_research_plan, bind, subscript, chain_invoke, ret, raise.
  destruct (original_query (values ck1)) as [oq|]; [|reflexivity].
  destruct (llm_invoke env (log w) PlanPrompt [("query", oq)])
    as [p | e]; [|reflexivity].
  cbn [log store].
  change (continue_body_of_loop env "generate_research_plan"
            (only_research_plan (Some p)) ?l) with ([] : list event, Continue, l).
  cbn [log store]. rewrite async_for_unfold.
  erewrite astream_next_interrupt;
    [reflexivity | cbn [store]; apply lookup_insert_eq | reflexivity].
Qed.

(** The checkpoint an update leaves, and what it was made from. *)
Lemma update_state_checkpoint (tid : string) (vals : AgentState) (w : world) :
  ∃ ck1,
    store (update_state tid vals w) !! tid = Some ck1 ∧
    values ck1
    = merge_state (values (default empty_checkpoint (store w !! tid))) vals ∧
    last_node ck1 = last_node (default empty_checkpoint (store w !! tid)).
Proof.
  eexists. unfold update_state. cbn [store].
  split; [apply lookup_insert_eq | done].
Qed.

(** A node that is not the first of a run is pending for a conversation
    only if the conversation has a checkpoint, and whatever its state. *)
Lemma pending_after_update (tid : string) (vals : AgentState) (w : world)
    (ck1 : checkpoint) (m : string) :
  store (update_state tid vals w) !! tid = Some ck1 →
  next_node (research_graph env) (last_node ck1) (values ck1) = Some m →
  m = "retrieve_info" ∨ m = END →
  ∃ ck,
    store w !! tid = Some ck ∧
    next_node (research_graph env) (last_node ck) (values ck) = Some m.
Proof.
  unfold update_state. cbn [store]. rewrite lookup_insert_eq.
  intros [= <-]. cbn [last_node values]. intros Hn Hm.
  destruct (store w !! tid) as [ck|]; cbn [default].
  - exists ck. split; [done |]. by apply (next_node_fixed env _ _ _ _ Hn).
  - exfalso. cbn [default empty_checkpoint last_node] in Hn.
    rewrite entry_is_router in Hn.
    destruct (route_cases (merge_state (values empty_checkpoint) vals))
      as [R | R]; rewrite R in Hn; destruct Hm as [-> | ->]; discriminate.
Qed.

(** C4. When a conversation waiting before the retrieve step is resumed
    with an edited plan, the retrieve step runs on the state in which the
    caller's plan has replaced the persisted one: the search calls of the
    turn are exactly one per sub-query of the edited plan, in order, whatever
    the plan was before; the first event carries what they retrieved, and the
    state persisted at the end of the turn holds the edited plan.  There is
    always at least one search, and when every numbered line of the edited
    plan has a text the searches are for the texts of its numbered lines,
    read line by line (for the plan itself when it has no numbered line). *)
Theorem resume_uses_edited_plan (tid edited : string) (w : world)
    (ck : checkpoint) :
  truthy (Some tid) = true → truthy (Some edited) = true →
  store w !! tid = Some ck →
  next_node (research_graph env) (last_node ck) (values ck)
  = Some "retrieve_info" →
  let r :=
    chat_continue_endpoint env
      (Object {| cont_thread_id := Some tid;
                 cont_research_plan := Some edited |}) w in
  ∃ rs evs suffix ck',
    retrieve_info env
      (merge_state (values ck) (only_research_plan (Some edited))) (log w)
    = (Ok (only_raw_research_results rs),
       log w ++ map TavilyInvoke (search_queries_of edited)) ∧
    r.1 = StreamingResponse (Ev_raw_research_results rs :: evs) ∧
    log r.2 = log w ++ map TavilyInvoke (search_queries_of edited) ++ suffix ∧
    Forall is_llm_call suffix ∧
    store r.2 !! tid = Some ck' ∧
    research_plan (values ck') = Some edited ∧
    0 < length (search_queries_of edited) ∧
    (every_item_has_text edited →
     search_queries_of edited
     = match numbered_lines edited with
       | [] => [edited]
       | qs => qs
       end).
Proof.
  intros Ht Hp Hck Hnext r. unfold r.
  rewrite (chat_continue_stream tid edited w Ht Hp). cbn [fst snd].
  destruct (resume_suspended tid edited w ck Hck Hnext)
    as (rs & evs & suffix & ck' & H1 & H2 & H3 & H4 & H5 & H6).
  exists rs, evs, suffix, ck'. rewrite H2. repeat (split; [done |]). split.
  - unfold search_queries_of.
    destruct (findall_numbered edited); cbn [length]; lia.
  - intros Hitems. unfold search_queries_of.
    by rewrite (findall_numbered_lines edited Hitems).
Qed.

(** C3, as the code has it.  A resume request is never refused for the
    status of its conversation: whether or not an interrupt is pending, the
    supplied plan is first merged into the persisted state (a conversation
    that has none gets one) and the graph is then run from the node pending
    there, the turn being that run.  Pending the retrieve step, the
    conversation is resumed there.  Pending the plan step, which is the case
    of a conversation that has not got past the router, the plan step runs
    on the updated state, and its failure, if it fails, is what the caller is
    told.  When the run has completed nothing runs and the turn ends with
    [done]. *)
Theorem resume_is_not_guarded (tid plan : string) (w : world) :
  truthy (Some tid) = true → truthy (Some plan) = true →
  let w1 := update_state tid (only_research_plan (Some plan)) w in
  let run :=
    close_stream
      (async_for (research_graph env) tid (continue_body_of_loop env)
         recursion_limit true w1) in
  let r :=
    chat_continue_endpoint env
      (Object {| cont_thread_id := Some tid; cont_research_plan := Some plan |})
      w in
  ∃ ck1,
    store w1 !! tid = Some ck1 ∧
    research_plan (values ck1) = Some plan ∧
    r = (StreamingResponse run.1, run.2) ∧
    (next_node (research_graph env) (last_node ck1) (values ck1)
     = Some "retrieve_info" →
     ∃ rs evs, r.1 = StreamingResponse (Ev_raw_research_results rs :: evs)) ∧
    (next_node (research_graph env) (last_node ck1) (values ck1)
     = Some "generate_research_plan" →
     r = match generate_research_plan env (values ck1) (log w) with
         | (Raise e, log') =>
             (StreamingResponse [Ev_error e],
              {| store := store w1; log := log' |})
         | (Ok output, log') =>
             (StreamingResponse [Ev_done],
              {| store :=
                   <[tid := {| values := merge_state (values ck1) output;
                               last_node := "generate_research_plan" |}]>
                     (store w1);
                 log := log' |})
         end) ∧
    (next_node (research_graph env) (last_node ck1) (values ck1) = Some END →
     r = (StreamingResponse [Ev_done], w1)).
Proof.
  intros Ht Hp w1 run r.
  destruct (update_state_checkpoint tid (only_research_plan (Some plan)) w)
    as (ck1 & Hck1 & Hval & Hlast).
  exists ck1. split; [done |]. split; [by rewrite Hval |].
  assert (r = (StreamingResponse (continue_event_stream env tid (Some plan) w).1,
               (continue_event_stream env tid (Some plan) w).2)) as Hr
    by apply (chat_continue_stream tid plan w Ht Hp).
  split; [exact Hr |]. rewrite Hr. split; [|split].
  - intros Hnext.
    destruct (pending_after_update tid _ w ck1 _ Hck1 Hnext)
      as (ck & Hck & Hn); [by left |].
    destruct (resume_suspended tid plan w ck Hck Hn)
      as (rs & evs & _ & _ & _ & H2 & _).
    exists rs, evs. by rewrite H2.
  - intros Hnext. rewrite (resume_plan_step tid (Some plan) w ck1 Hck1 Hnext).
    fold w1. by destruct (generate_research_plan env (values ck1) (log w))
      as [[out | e] log'].
  - intros Hnext.
    destruct (pending_after_update tid _ w ck1 _ Hck1 Hnext)
      as (ck & Hck & Hn); [by right |].
    by rewrite (resume_completed tid _ w ck Hck Hn).
Qed.

End ResumeTurn.

(** C3, as stated, fails.  After a first request to [/chat], which leaves
    its conversation before the router, no interrupt is pending; a resume
    request for that conversation is accepted all the same and the plan it
    brings replaces the persisted one. *)
Lemma resume_of_unstarted_conversation_accepted :
  let r :=
    chat_continue_endpoint failing_env
      (Object {| cont_thread_id := Some "t1";
                 cont_research_plan := Some "1. Edited" |})
      first_contact_world in
  r.1 = StreamingResponse [Ev_error (KeyError "original_query")] ∧
  research_plan ∘ values <$> store first_contact_world !! "t1"
  = Some (Some "") ∧
  research_plan ∘ values <$> store r.2 !! "t1" = Some (Some "1. Edited") ∧
  ¬ resume_rejected_unless_suspended.
Proof.
  intros r.
  assert (research_plan ∘ values <$> store r.2 !! "t1"
          = Some (Some "1. Edited")) as Hafter by (vm_compute; reflexivity).
  assert (research_plan ∘ values <$> store first_contact_world !! "t1"
          = Some (Some "")) as Hbefore by (vm_compute; reflexivity).
  split; [vm_compute; reflexivity |]. split; [done |]. split; [done |].
  intros H.
  destruct (H failing_env "t1" "1. Edited" first_contact_world) as [_ Hw].
  - intros (ck & n & Hl & Hn & Hin).
    assert (store first_contact_world !! "t1"
            = Some {| values := initial_state "t1" (Some "tides");
                      last_node := START |}) as Hck
      by (vm_compute; reflexivity).
    rewrite Hck in Hl. injection Hl as <-. cbv in Hn. injection Hn as <-.
    apply list_elem_of_singleton in Hin. discriminate.
  - fold r in Hw. rewrite Hw in Hafter. congruence.
Qed.

(** ** The theorems at concrete inputs *)

Lemma router_decision_witness :
  route_initial_or_follow_up change_request_state = "generate_research_plan".
Proof.
  apply (proj1 (proj2 (router_decision failing_env change_request_state))).
  split.
  - exists "Please ", "CHANGE", " the Plan". by split.
  - exists "Please CHANGE the ", "Plan", "". by split.
Defined.

Lemma summarize_short_circuits_witness :
  summarize_info failing_env suspended_state []
  = (Ok (only_summary no_results_message), []) ∧
  default [] (raw_research_results suspended_state) = [].
Proof.
  apply (summarize_short_circuits failing_env suspended_state [] "tides");
    reflexivity.
Defined.

Lemma resume_is_not_guarded_witness :
  chat_continue_endpoint failing_env
    (Object {| cont_thread_id := Some "t1";
               cont_research_plan := Some "1. Edited" |})
    first_contact_world
  = (StreamingResponse [Ev_error (KeyError "original_query")],
     update_state "t1" (only_research_plan (Some "1. Edited"))
       first_contact_world).
Proof.
  destruct (resume_is_not_guarded failing_env "t1" "1. Edited"
              first_contact_world eq_refl eq_refl)
    as (ck1 & Hck1 & _ & _ & _ & Hplan & _).
  assert (store (update_state "t1" (only_research_plan (Some "1. Edited"))
                   first_contact_world) !! "t1"
          = Some {| values :=
                      merge_state (initial_state "t1" (Some "tides"))
                        (only_research_plan (Some "1. Edited"));
                    last_node := START |}) as Hck
    by (vm_compute; reflexivity).
  rewrite Hck in Hck1. injection Hck1 as <-.
  rewrite (Hplan eq_refl). reflexivity.
Defined.

Lemma resume_uses_edited_plan_witness :
  let r :=
    chat_continue_endpoint sample_env
      (Object {| cont_thread_id := Some "t1";
                 cont_research_plan := Some sample_plan |})
      suspended_world in
  research_plan suspended_state = Some "1. Causes of tides" ∧
  ∃ evs suffix ck',
    r.1 = StreamingResponse (Ev_raw_research_results sample_results :: evs) ∧
    log r.2 = [TavilyInvoke "Sources"; TavilyInvoke "Effects"] ++ suffix ∧
    Forall is_llm_call suffix ∧
    store r.2 !! "t1" = Some ck' ∧
    research_plan (values ck') = Some sample_plan.
Proof.
  intros r. split; [reflexivity |].
  destruct (resume_uses_edited_plan sample_env "t1" sample_plan
              suspended_world suspended_checkpoint
              eq_refl eq_refl (lookup_singleton_eq _ _) eq_refl)
    as (rs & evs & suffix & ck' & H1 & H2 & H3 & H4 & H5 & H6 & _).
  vm_compute in H1. injection H1 as <-.
  exists evs, suffix, ck'. split; [exact H2 |]. split; [exact H3 |].
  split; [exact H4 |]. split; [exact H5 | exact H6].
Defined.

(** ** [original_query] is never written *)

Section OriginalQuery.

Variable env : collaborators.

Lemma generate_research_plan_keeps_key :
  writes_no_original_query (generate_research_plan env).
Proof. intros st log out log'. unfold generate_research_plan. run_node. Qed.

Lemma retrieve_info_keeps_key : writes_no_original_query (retrieve_info env).
Proof.
  intros st log out log'. rewrite retrieve_info_eq. by intros [= <- _].
Qed.

Lemma summarize_info_keeps_key : writes_no_original_query (summarize_info env).
Proof. intros st log out log'. unfold summarize_info. run_node. Qed.

Lemma fact_check_summary_keeps_key :
  writes_no_original_query (fact_check_summary env).
Proof. intros st log out log'. unfold fact_check_summary. run_node. Qed.

Lemma generate_final_answer_keeps_key :
  writes_no_original_query generate_final_answer.
Proof. intros st log out log'. unfold generate_final_answer. run_node. Qed.

Lemma answer_follow_up_question_keeps_key :
  writes_no_original_query answer_follow_up_question.
Proof. intros st log out log'. unfold answer_follow_up_question. run_node. Qed.

(** No step returns the key [original_query]. *)
Lemma node_output_lacks_original_query (n : string)
    (action : AgentState → comp AgentState) :
  assoc n (nodes (builder (research_graph env))) = Some action →
  writes_no_original_query action.
Proof.
  change (nodes (builder (research_graph env))) with
    [("generate_research_plan", generate_research_plan env);
     ("retrieve_info", retrieve_info env);
     ("summarize_info", summarize_info env);
     ("fact_check_summary", fact_check_summary env);
     ("generate_final_answer", generate_final_answer);
     ("answer_follow_up_question", answer_follow_up_question)].
  cbn [assoc].
  repeat (match goal with
          | |- context [String.eqb ?k n] => destruct (String.eqb k n)
          end;
          [intros [= <-];
           auto using generate_research_plan_keeps_key,
             retrieve_info_keeps_key, summarize_info_keeps_key,
             fact_check_summary_keeps_key, generate_final_answer_keeps_key,
             answer_follow_up_question_keeps_key |]).
  discriminate.
Qed.

Lemma astream_next_lacks (tid : string) (resuming : bool) (budget : nat)
    (w : world) :
  lacks_original_query w →
  lacks_original_query (astream_next (research_graph env) tid resuming budget w).2.
Proof.
  intros Hw. unfold astream_next.
  destruct (store w !! tid) as [ck|] eqn:Hck; [|done].
  destruct (next_node _ _ _) as [n|]; [|done].
  destruct (String.eqb n END); [done |].
  destruct (negb resuming && _); [done |].
  destruct budget as [|b]; [done |].
  destruct (assoc n _) as [action|] eqn:Hact; [|done].
  destruct (action (values ck) (log w)) as [[out | e] log'] eqn:Hrun; [|done].
  intros t ck'. cbn [snd store]. destruct (decide (t = tid)) as [-> | Hne].
  - rewrite lookup_insert_eq. intros [= <-]. cbn [values merge_state original_query].
    rewrite (node_output_lacks_original_query _ _ Hact _ _ _ _ Hrun).
    by apply (Hw tid).
  - rewrite lookup_insert_ne by done. apply Hw.
Qed.

Lemma async_for_lacks (tid : string) (body : loop_body) (budget : nat) :
  ∀ (resuming : bool) (w : world),
    lacks_original_query w →
    lacks_original_query
      (async_for (research_graph env) tid body budget resuming w).2.
Proof.
  induction budget as [|b IH]; intros resuming w Hw;
    rewrite async_for_unfold;
    [pose proof (astream_next_lacks tid resuming 0 w Hw) as Hnext
    |pose proof (astream_next_lacks tid resuming (S b) w Hw) as Hnext];
    destruct (astream_next _ _ _ _ _) as [[name out | | e] w'];
    try done; cbn [snd] in Hnext;
    destruct (body name out (log w')) as [[evs fl] log'];
    destruct fl; try done.
  specialize (IH false {| store := store w'; log := log' |} Hnext).
  cbn zeta. by destruct (async_for _ _ _ b false _) as [[evs' fl'] w3].
Qed.

Lemma close_stream_world (r : list event * flow * world) :
  (close_stream r).2 = r.2.
Proof. destruct r as [[evs fl] w]. by destruct fl. Qed.

Lemma put_input_lacks (tid : string) (input : AgentState) (w : world) :
  original_query input = None →
  lacks_original_query w → lacks_original_query (put_input tid input w).
Proof.
  intros Hin Hw t ck. unfold put_input. cbn [store].
  destruct (decide (t = tid)) as [-> | Hne].
  - rewrite lookup_insert_eq. intros [= <-].
    cbn [values merge_state original_query]. rewrite Hin.
    destruct (store w !! tid) as [ck|] eqn:Hck; [by apply (Hw tid) | done].
  - rewrite lookup_insert_ne by done. apply Hw.
Qed.

Lemma update_state_lacks (tid : string) (vals : AgentState) (w : world) :
  original_query vals = None →
  lacks_original_query w → lacks_original_query (update_state tid vals w).
Proof.
  intros Hin Hw t ck. unfold update_state. cbn [store].
  destruct (decide (t = tid)) as [-> | Hne].
  - rewrite lookup_insert_eq. intros [= <-].
    cbn [values merge_state original_query]. rewrite Hin.
    destruct (store w !! tid) as [ck|] eqn:Hck; [by apply (Hw tid) | done].
  - rewrite lookup_insert_ne by done. apply Hw.
Qed.

(** Whatever the requests and the collaborators' answers, a store in which
    no state holds [original_query] stays so: neither endpoint, no input and
    no step assigns the key. *)
Lemma endpoints_never_assign_original_query (uuid : string)
    (chat : body chat_request) (resume : body continue_request)
    (w : world) :
  lacks_original_query w →
  lacks_original_query (chat_endpoint env uuid chat w).2 ∧
  lacks_original_query (chat_continue_endpoint env resume w).2.
Proof.
  intros Hw. split.
  - unfold chat_endpoint. destruct chat as [| | |data]; [done | done | done |].
    destruct (negb (truthy (req_query data))); [done |].
    assert (∀ tid input, original_query input = None →
            lacks_original_query (chat_event_stream env tid input w).2) as H.
    { intros tid input Hin. unfold chat_event_stream.
      pose proof (async_for_lacks tid (chat_body_of_loop env) recursion_limit
                    false _ (put_input_lacks tid input w Hin Hw)) as Hrun.
      rewrite <- close_stream_world in Hrun.
      by destruct (close_stream _). }
    destruct (truthy (req_thread_id data)).
    + specialize (H (default "" (req_thread_id data))
                    (only_query (req_query data)) eq_refl).
      by destruct (chat_event_stream _ _ _ _).
    + specialize (H uuid (initial_state uuid (req_query data)) eq_refl).
      by destruct (chat_event_stream _ _ _ _).
  - unfold chat_continue_endpoint. destruct resume as [| | |data]; [done | done | done |].
    destruct (negb _ || negb _); [done |].
    pose proof (async_for_lacks (default "" (cont_thread_id data))
                  (continue_body_of_loop env) recursion_limit true _
                  (update_state_lacks (default "" (cont_thread_id data))
                     (only_research_plan (cont_research_plan data)) w
                     eq_refl Hw)) as Hrun.
    rewrite <- close_stream_world in Hrun.
    unfold continue_event_stream. by destruct (close_stream _).
Qed.

(** Hence, from such a store, every turn the router sends to the plan step
    ends with the [KeyError]: the plan step never completes. *)
Lemma plan_step_raises_without_original_query (tid : string)
    (user_query : option string) (thread : option string) (w : world) :
  lacks_original_query w →
  let input :=
    match thread with
    | Some _ => only_query user_query
    | None => initial_state tid user_query
    end in
  route_initial_or_follow_up
    (merge_state (values (default empty_checkpoint (store w !! tid))) input)
  = "generate_research_plan" →
  chat_event_stream env tid input w
  = ([Ev_thread_id tid; Ev_error (KeyError "original_query")],
     put_input tid input w).
Proof.
  intros Hw input Hroute. rewrite (chat_plan_turn env tid input w Hroute).
  assert (original_query input = None) as Hin by (by destruct thread).
  assert (original_query
            (merge_state (values (default empty_checkpoint (store w !! tid)))
               input) = None) as ->; [|done].
  change (match original_query input with
          | Some v => Some v
          | None =>
              original_query
                (values (default empty_checkpoint (store w !! tid)))
          end = None).
  rewrite Hin. destruct (store w !! tid) as [ck|] eqn:Hck; [|done].
  by apply (Hw tid).
Qed.

End OriginalQuery.

Lemma empty_store_lacks_original_query (log0 : list call) :
  lacks_original_query {| store := ∅; log := log0 |}.
Proof. intros t ck H. cbn [store] in H. by rewrite lookup_empty in H. Qed.

(** ** Scenarios *)

(** Resuming with an edited plan: results, summary, fact check, then the
    streamed answer and [done]. *)
Example resume_scenario :
  (chat_continue_endpoint sample_env
     (Object {| cont_thread_id := Some "t1";
              cont_research_plan :=
                Some ("1. Sources" +:+ NL +:+ "2. Effects") |})
     suspended_world).1
  = StreamingResponse
      [Ev_raw_research_results
         [{| source := "https://a.example"; content := "Sources" |};
          {| source := "https://b.example"; content := "a snippet" |}];
       Ev_summary "Plastics harm marine life.";
       Ev_fact_check_results "Fact check: OK.";
       Ev_final_answer_start;
       Ev_final_answer_chunk "Plastics "; Ev_final_answer_chunk "harm.";
       Ev_done].
Proof. vm_compute. reflexivity. Qed.

(** A follow-up question on a completed run is answered from the persisted
    context: no search call, no plan event. *)
Example follow_up_scenario :
  let r :=
    chat_endpoint sample_env "fresh"
      (Object {| req_query := Some "and why?"; req_thread_id := Some "t1" |})
      completed_world in
  r.1 = StreamingResponse
          [Ev_thread_id "t1"; Ev_final_answer_start;
           Ev_final_answer_chunk "Plastics "; Ev_final_answer_chunk "harm.";
           Ev_done] ∧
  Forall is_llm_call (log r.2).
Proof. vm_compute. split; [reflexivity | by repeat constructor]. Qed.

(** A request without a query is refused before any step runs. *)
Example empty_query_rejected (uuid : string) (w : world) :
  chat_endpoint failing_env uuid
    (Object {| req_query := Some ""; req_thread_id := None |}) w
  = (JSONResponse 400 "Query is required.", w).
Proof. reflexivity. Qed.

(** * Further properties *)

(** ** A follow-up turn *)

Section FollowUpTurn.

Variable env : collaborators.

Lemma answer_follow_up_question_eq (st : AgentState) (log : list call) :
  answer_follow_up_question st log
  = (Ok (render FollowUpPrompt (follow_up_inputs st)), log).
Proof. reflexivity. Qed.

Lemma chat_body_render (name : string) (c : chain)
    (inputs : list (string * string)) (log : list call) :
  String.eqb name END = false → inputs ≠ [] →
  chat_body_of_loop env name (render c inputs) log
  = (Ev_final_answer_start ::
       map Ev_final_answer_chunk (llm_astream env log c inputs).1,
     match (llm_astream env log c inputs).2 with
     | Some e => Throw e
     | None => Continue
     end,
     log ++ [LLMStream c inputs]).
Proof.
  intros Hname Hne. unfold chat_body_of_loop, stream_final_answer.
  rewrite Hname. cbn [research_plan render truthy final_chain final_chain_inputs].
  destruct inputs as [|i l]; [done |].
  by destruct (llm_astream env log c (i :: l)).
Qed.

(** A turn the router sends to the follow-up step, in full. *)
Lemma chat_follow_up_turn (tid : string) (input : AgentState) (w : world) :
  let st := turn_state tid input w in
  route_initial_or_follow_up st = "answer_follow_up_question" →
  chat_event_stream env tid input w
  = (Ev_thread_id tid :: Ev_final_answer_start ::
       map Ev_final_answer_chunk
         (llm_astream env (log w) FollowUpPrompt (follow_up_inputs st)).1
       ++ [match (llm_astream env (log w) FollowUpPrompt
                    (follow_up_inputs st)).2 with
           | Some e => Ev_error e
           | None => Ev_done
           end],
     {| store :=
          <[tid := {| values :=
                        merge_state st
                          (render FollowUpPrompt (follow_up_inputs st));
                      last_node := "answer_follow_up_question" |}]> (store w);
        log := log w ++ [LLMStream FollowUpPrompt (follow_up_inputs st)] |}).
Proof.
  intros st Hroute. unfold chat_event_stream, recursion_limit.
  rewrite async_for_unfold.
  rewrite (astream_next_pending env tid false _ _ _ "answer_follow_up_question"
             answer_follow_up_question (put_input_lookup tid input w));
    [| cbn [last_node values]; rewrite entry_is_router;
       exact (f_equal Some Hroute)
     | done | done | done].
  cbn [values]. fold (turn_state tid input w). fold st.
  rewrite answer_follow_up_question_eq.
  unfold put_input. cbn [log store]. rewrite insert_insert_eq.
  rewrite chat_body_render by done.
  destruct (llm_astream env (log w) FollowUpPrompt (follow_up_inputs st))
    as [chunks [e|]]; cbn [fst snd]; [reflexivity |].
  rewrite async_for_unfold.
  erewrite astream_next_end;
    [ | cbn [store]; apply lookup_insert_eq | reflexivity].
  cbn [close_stream]. by rewrite app_nil_r.
Qed.

End FollowUpTurn.

(** ** Turns of [/chat] *)

Section ChatTurns.

Variable env : collaborators.

Lemma chat_endpoint_stream (uuid : string) (data : chat_request) (w : world) :
  truthy (req_query data) = true →
  chat_endpoint env uuid (Object data) w
  = (StreamingResponse
       (chat_event_stream env (chat_thread uuid data)
          (if truthy (req_thread_id data) then only_query (req_query data)
           else initial_state uuid (req_query data)) w).1,
     (chat_event_stream env (chat_thread uuid data)
        (if truthy (req_thread_id data) then only_query (req_query data)
         else initial_state uuid (req_query data)) w).2).
Proof.
  intros Hq. unfold chat_endpoint, chat_thread. rewrite Hq. cbn [negb].
  destruct (truthy (req_thread_id data));
    by destruct (chat_event_stream _ _ _ _).
Qed.

Lemma chat_turn_log (tid : string) (input : AgentState) (w : world) :
  ∃ suffix,
    log (chat_event_stream env tid input w).2 = log w ++ suffix ∧
    Forall is_llm_call suffix ∧ length suffix ≤ 1.
Proof.
  destruct (route_cases (turn_state tid input w)) as [Hr | Hr].
  - rewrite (chat_plan_turn env tid input w Hr).
    destruct (original_query _) as [oq|].
    + destruct (llm_invoke _ _ _ _); eexists [_];
        cbn [snd log length]; by repeat constructor.
    + exists []. cbn [snd]. rewrite app_nil_r. by repeat constructor.
  - rewrite (chat_follow_up_turn env tid input w Hr).
    eexists [_]. cbn [snd log length]. by repeat constructor.
Qed.

(** No turn of [/chat] searches: whatever the request, the stored states
    and the collaborators' answers, the turn makes at most one call, to the
    LLM.  Searching is left to the turn that follows an approval. *)
Theorem chat_turn_never_searches (uuid : string)
    (request : body chat_request) (w : world) :
  ∃ suffix,
    log (chat_endpoint env uuid request w).2 = log w ++ suffix ∧
    Forall is_llm_call suffix ∧ length suffix ≤ 1.
Proof.
  assert (∃ suffix, log w = log w ++ suffix ∧ Forall is_llm_call suffix ∧
                    length suffix ≤ 1) as Hsame.
  { exists []. rewrite app_nil_r. by repeat constructor. }
  destruct request as [| | |data]; [done | done | done |].
  destruct (truthy (req_query data)) eqn:Hq.
  - rewrite (chat_endpoint_stream uuid data w Hq). apply chat_turn_log.
  - unfold chat_endpoint. by rewrite Hq.
Qed.

(** A question on a conversation that has a summary, and that does not ask
    for the plan to be changed, is answered from what is persisted: the only
    call is the streamed follow-up answer, whose inputs are built from the
    persisted summary, fact check and results and from the new question; the
    events are the thread id, the start of the answer, its fragments, and
    [done] (or [error] when the stream fails); the plan, results, summary and
    fact check stay as they were and the persisted query is the new one. *)
Theorem follow_up_turn_uses_persisted_context (uuid tid q : string)
    (w : world) (ck : checkpoint) :
  truthy (Some tid) = true → truthy (Some q) = true →
  store w !! tid = Some ck →
  truthy (summary (values ck)) = true →
  ¬ change_plan_request q →
  let st := merge_state (values ck) (only_query (Some q)) in
  let answer := llm_astream env (log w) FollowUpPrompt (follow_up_inputs st) in
  let r :=
    chat_endpoint env uuid
      (Object {| req_query := Some q; req_thread_id := Some tid |}) w in
  r.1 = StreamingResponse
          (Ev_thread_id tid :: Ev_final_answer_start ::
             map Ev_final_answer_chunk answer.1
             ++ [match answer.2 with
                 | Some e => Ev_error e
                 | None => Ev_done
                 end]) ∧
  log r.2 = log w ++ [LLMStream FollowUpPrompt (follow_up_inputs st)] ∧
  assoc "follow_up_query" (follow_up_inputs st) = Some q ∧
  ∃ ck',
    store r.2 !! tid = Some ck' ∧
    last_node ck' = "answer_follow_up_question" ∧
    query (values ck') = Some q ∧
    research_plan (values ck') = research_plan (values ck) ∧
    raw_research_results (values ck') = raw_research_results (values ck) ∧
    summary (values ck') = summary (values ck) ∧
    fact_check_results (values ck') = fact_check_results (values ck).
Proof.
  intros Ht Hq Hck Hsum Hnochange st answer r.
  assert (turn_state tid (only_query (Some q)) w = st) as Hst
    by (unfold turn_state; by rewrite Hck).
  assert (route_initial_or_follow_up st = "answer_follow_up_question") as Hr.
  { unfold route_initial_or_follow_up.
    change (query st) with (Some q). change (summary st) with (summary (values ck)).
    destruct (str_in "change" _ && str_in "plan" _) eqn:E.
    - by apply change_plan_request_iff in E.
    - by rewrite Hsum. }
  unfold r. rewrite chat_endpoint_stream by done.
  unfold chat_thread. cbn [req_thread_id req_query default]. rewrite Ht.
  rewrite (chat_follow_up_turn env tid _ w); rewrite Hst; [|done].
  cbn [fst snd log store]. split; [done |]. split; [done |].
  split; [done |]. eexists. split; [apply lookup_insert_eq |]. done.
Qed.

End ChatTurns.

(** ** What a turn leaves alone *)

Section Frame.

Variable env : collaborators.

Lemma astream_next_other (tid t : string) (resuming : bool) (budget : nat)
    (w : world) :
  t ≠ tid →
  store (astream_next (research_graph env) tid resuming budget w).2 !! t
  = store w !! t.
Proof.
  intros Hne. unfold astream_next.
  destruct (store w !! tid) as [ck|]; [|done].
  destruct (next_node _ _ _) as [n|]; [|done].
  destruct (String.eqb n END); [done |].
  destruct (negb resuming && _); [done |].
  destruct budget as [|b]; [done |].
  destruct (assoc n _) as [action|]; [|done].
  destruct (action (values ck) (log w)) as [[out | e] log']; [|done].
  cbn [snd store]. by rewrite lookup_insert_ne.
Qed.

Lemma async_for_other (tid t : string) (body : loop_body) (budget : nat) :
  ∀ (resuming : bool) (w : world),
    t ≠ tid →
    store (async_for (research_graph env) tid body budget resuming w).2 !! t
    = store w !! t.
Proof.
  induction budget as [|b IH]; intros resuming w Hne;
    rewrite async_for_unfold;
    [pose proof (astream_next_other tid t resuming 0 w Hne) as Hnext
    |pose proof (astream_next_other tid t resuming (S b) w Hne) as Hnext];
    destruct (astream_next _ _ _ _ _) as [[name out | | e] w'];
    try done; cbn [snd] in Hnext;
    destruct (body name out (log w')) as [[evs fl] log'];
    destruct fl; try done.
  specialize (IH false {| store := store w'; log := log' |} Hne).
  cbn zeta. destruct (async_for _ _ _ b false _) as [[evs' fl'] w3].
  cbn [snd store] in *. congruence.
Qed.

Lemma chat_event_stream_other (tid t : string) (input : AgentState)
    (w : world) :
  t ≠ tid → store (chat_event_stream env tid input w).2 !! t = store w !! t.
Proof.
  intros Hne. unfold chat_event_stream.
  pose proof (async_for_other tid t (chat_body_of_loop env) recursion_limit
                false (put_input tid input w) Hne) as Hrun.
  rewrite <- close_stream_world in Hrun.
  destruct (close_stream _) as [evs w']. cbn [snd] in *. rewrite Hrun.
  unfold put_input. cbn [store]. by rewrite lookup_insert_ne.
Qed.

Lemma continue_event_stream_other (tid t : string) (plan : option string)
    (w : world) :
  t ≠ tid → store (continue_event_stream env tid plan w).2 !! t = store w !! t.
Proof.
  intros Hne. unfold continue_event_stream.
  rewrite close_stream_world, async_for_other by done.
  unfold update_state. cbn [store]. by rewrite lookup_insert_ne.
Qed.

(** A turn touches one conversation only: the persisted state of every
    other conversation is what it was, whatever the turn did and however it
    ended.  For [/chat] the conversation is the one the request names, or the
    freshly drawn identifier; for [/chat/continue] the one the request
    names. *)
Theorem turn_leaves_other_conversations (uuid t : string)
    (chat : body chat_request) (resume : body continue_request)
    (w : world) :
  t ≠ uuid →
  field req_thread_id chat ≠ Some t →
  field cont_thread_id resume ≠ Some t →
  store (chat_endpoint env uuid chat w).2 !! t = store w !! t ∧
  store (chat_continue_endpoint env resume w).2 !! t = store w !! t.
Proof.
  intros Huuid Hchat Hresume. split.
  - destruct chat as [| | |data]; [done | done | done |].
    destruct (truthy (req_query data)) eqn:Hq;
      [|unfold chat_endpoint; by rewrite Hq].
    rewrite chat_endpoint_stream by done. cbn [snd].
    apply chat_event_stream_other. unfold chat_thread.
    destruct (truthy (req_thread_id data)) eqn:Ht; [|done].
    change (req_thread_id data ≠ Some t) in Hchat.
    destruct (req_thread_id data) as [t'|]; [|done].
    cbn [default]. intros ->. by apply Hchat.
  - unfold chat_continue_endpoint. destruct resume as [| | |data]; [done | done | done |].
    destruct (truthy (cont_thread_id data)) eqn:Ht; [|done].
    cbn [negb orb]. destruct (negb _); [done |].
    pose proof (continue_event_stream_other
                  (default "" (cont_thread_id data)) t
                  (cont_research_plan data) w) as H.
    destruct (continue_event_stream _ _ _ _) as [evs w'].
    cbn [snd] in *. apply H.
    change (cont_thread_id data ≠ Some t) in Hresume.
    destruct (cont_thread_id data) as [t'|]; [|done].
    cbn [default]. intros ->. by apply Hresume.
Qed.

(** No step returns one of the keys a request sets. *)
Lemma node_output_frame (n : string)
    (action : AgentState → comp AgentState) :
  assoc n (nodes (builder (research_graph env))) = Some action →
  writes_no_frame_key action.
Proof.
  change (nodes (builder (research_graph env))) with
    [("generate_research_plan", generate_research_plan env);
     ("retrieve_info", retrieve_info env);
     ("summarize_info", summarize_info env);
     ("fact_check_summary", fact_check_summary env);
     ("generate_final_answer", generate_final_answer);
     ("answer_follow_up_question", answer_follow_up_question)].
  cbn [assoc].
  repeat (match goal with
          | |- context [String.eqb ?k n] => destruct (String.eqb k n)
          end;
          [intros [= <-]; intros st log out log' |]).
  - unfold generate_research_plan. run_node_frame.
  - rewrite retrieve_info_eq. by intros [= <- _].
  - unfold summarize_info. run_node_frame.
  - unfold fact_check_summary. run_node_frame.
  - unfold generate_final_answer. run_node_frame.
  - unfold answer_follow_up_question. run_node_frame.
  - discriminate.
Qed.

Lemma astream_next_frame (tid : string) (resuming : bool) (budget : nat)
    (w : world) (ck : checkpoint) :
  store w !! tid = Some ck →
  ∃ ck',
    store (astream_next (research_graph env) tid resuming budget w).2 !! tid
    = Some ck' ∧
    same_frame (values ck) (values ck').
Proof.
  intros Hck. unfold astream_next. rewrite Hck.
  destruct (next_node _ _ _) as [n|]; [|by exists ck].
  destruct (String.eqb n END); [by exists ck |].
  destruct (negb resuming && _); [by exists ck |].
  destruct budget as [|b]; [by exists ck |].
  destruct (assoc n _) as [action|] eqn:Hact; [|by exists ck].
  destruct (action (values ck) (log w)) as [[out | e] log'] eqn:Hrun;
    [|by exists ck].
  eexists. cbn [snd store]. split; [apply lookup_insert_eq |].
  destruct (node_output_frame _ _ Hact _ _ _ _ Hrun) as (H1 & H2 & H3 & H4).
  unfold same_frame.
  cbn [values merge_state thread_id query original_query messages].
  by rewrite H1, H2, H3, H4.
Qed.

Lemma async_for_frame (tid : string) (body : loop_body) (budget : nat) :
  ∀ (resuming : bool) (w : world) (ck : checkpoint),
    store w !! tid = Some ck →
    ∃ ck',
      store (async_for (research_graph env) tid body budget resuming w).2 !! tid
      = Some ck' ∧
      same_frame (values ck) (values ck').
Proof.
  induction budget as [|b IH]; intros resuming w ck Hck;
    rewrite async_for_unfold;
    [destruct (astream_next_frame tid resuming 0 w ck Hck) as (ck1 & H1 & Hf)
    |destruct (astream_next_frame tid resuming (S b) w ck Hck)
       as (ck1 & H1 & Hf)];
    destruct (astream_next _ _ _ _ _) as [[name out | | e] w'];
    cbn [snd] in H1; try (by exists ck1);
    destruct (body name out (log w')) as [[evs fl] log'];
    destruct fl; try (by exists ck1).
  destruct (IH false {| store := store w'; log := log' |} ck1 H1)
    as (ck2 & H2 & Hf2).
  cbn zeta. destruct (async_for _ _ _ b false _) as [[evs' fl'] w3].
  exists ck2. split; [done |].
  destruct Hf as (? & ? & ? & ?), Hf2 as (? & ? & ? & ?).
  unfold same_frame. repeat split; congruence.
Qed.

(** A turn of [/chat] records its question: however the turn ends, also
    when a step fails, the conversation it addresses has a persisted state
    afterwards, and the query in it is the request's.  A conversation started
    by the turn is persisted under the fresh identifier, which its state
    holds as [thread_id]. *)
Theorem chat_turn_records_query (uuid q : string) (t : option string)
    (w : world) :
  truthy (Some q) = true →
  let data := {| req_query := Some q; req_thread_id := t |} in
  let r := chat_endpoint env uuid (Object data) w in
  ∃ ck,
    store r.2 !! chat_thread uuid data = Some ck ∧
    query (values ck) = Some q ∧
    (truthy t = false →
     chat_thread uuid data = uuid ∧ thread_id (values ck) = Some uuid).
Proof.
  intros Hq data r. unfold r. rewrite chat_endpoint_stream by done.
  cbn [snd]. unfold chat_event_stream.
  set (input := if truthy (req_thread_id data) then _ else _).
  destruct (async_for_frame (chat_thread uuid data) (chat_body_of_loop env)
              recursion_limit false _ _
              (put_input_lookup (chat_thread uuid data) input w))
    as (ck & Hck & Hth & Hqu & _).
  rewrite <- close_stream_world in Hck.
  destruct (close_stream _) as [evs w']. cbn [snd] in *.
  exists ck. split; [done |]. cbn [values] in *.
  split.
  - rewrite <- Hqu. unfold input. by destruct (truthy (req_thread_id data)).
  - intros Ht. rewrite <- Hth. unfold chat_thread, input, data.
    cbn [req_thread_id]. by rewrite Ht.
Qed.

End Frame.

(** ** A resumed run, step by step *)

Section ResumeSteps.

Variable env : collaborators.

Lemma async_for_steps (tid : string) (body : loop_body)
    (steps : list (string * (AgentState → comp AgentState))) :
  ∀ (budget : nat) (resuming : bool) (w : world) (ck : checkpoint),
    store w !! tid = Some ck →
    follows (research_graph env) resuming (last_node ck) steps →
    length steps ≤ budget →
    async_for (research_graph env) tid body budget resuming w
    = let '(evs, fl, ck', log') := run_steps steps body ck (log w) in
      (evs, fl, {| store := <[tid := ck']> (store w); log := log' |}).
Proof.
  induction steps as [|[m action] rest IH];
    intros budget resuming w ck Hck Hpath Hlen.
  - rewrite async_for_unfold.
    rewrite (astream_next_end env tid resuming budget w ck Hck (Hpath _)).
    cbn [run_steps]. rewrite insert_id by done. by destruct w.
  - destruct budget as [|b]; [cbn [length] in Hlen; lia |].
    destruct Hpath as (Hn & Hend & Hint & Hact & Hrest).
    rewrite async_for_unfold.
    rewrite (astream_next_pending env tid resuming b w ck m action Hck
               (Hn _) Hend Hint Hact).
    cbn [run_steps].
    destruct (action (values ck) (log w)) as [[out | e] log1].
    2:{ rewrite insert_id by done. reflexivity. }
    cbn [log store].
    destruct (body m out log1) as [[evs fl] log2].
    destruct fl; [|reflexivity | reflexivity].
    rewrite (IH b false _ {| values := merge_state (values ck) out;
                             last_node := m |});
      [| cbn [store]; apply lookup_insert_eq | done
       | cbn [length] in Hlen; lia].
    cbn [log store].
    destruct (run_steps rest body _ log2) as [[[evs' fl'] ck'] log3].
    by rewrite insert_insert_eq.
Qed.

Lemma resume_steps_follow (n : string) :
  (∀ st, next_node (research_graph env) n st = Some "retrieve_info") →
  follows (research_graph env) true n (resume_steps env).
Proof. intros Hn. cbn [follows resume_steps]. by repeat split. Qed.

(** Resuming a suspended conversation: the four steps, one after the
    other. *)
Lemma resume_as_steps (tid : string) (plan : option string) (w : world)
    (ck : checkpoint) :
  store w !! tid = Some ck →
  next_node (research_graph env) (last_node ck) (values ck)
  = Some "retrieve_info" →
  continue_event_stream env tid plan w
  = resumed tid w
      (run_steps (resume_steps env) (continue_body_of_loop env)
         {| values := merge_state (values ck) (only_research_plan plan);
            last_node := last_node ck |}
         (log w)).
Proof.
  intros Hck Hnext. unfold continue_event_stream, resumed.
  rewrite (async_for_steps tid _ (resume_steps env) recursion_limit true _ _
             (update_state_lookup tid _ w ck Hck));
    [| apply resume_steps_follow; intros st; cbn [last_node];
       by apply (next_node_fixed env _ _ (values ck)); [|left]
     | cbn [length resume_steps]; unfold recursion_limit; lia].
  change (log (update_state _ _ w)) with (log w).
  destruct (run_steps _ _ _ _) as [[[evs fl] ck'] log'].
  unfold update_state. cbn [store]. by rewrite insert_insert_eq.
Qed.

(** A resumed run is its four steps in sequence.  On a conversation
    waiting before the retrieve step, the turn is what running retrieve,
    summarize, fact-check and finalize one after the other gives: each step
    starts from the state merged with the caller's plan and with what the
    steps before it returned, its output is reported by the endpoint's loop,
    and the first step or stream that raises ends the turn with an error
    event.  The state persisted is the one the last completed step left. *)
Theorem resume_runs_steps_in_order (tid edited : string) (w : world)
    (ck : checkpoint) :
  truthy (Some tid) = true → truthy (Some edited) = true →
  store w !! tid = Some ck →
  next_node (research_graph env) (last_node ck) (values ck)
  = Some "retrieve_info" →
  let outcome :=
    resumed tid w
      (run_steps (resume_steps env) (continue_body_of_loop env)
         {| values :=
              merge_state (values ck) (only_research_plan (Some edited));
            last_node := last_node ck |}
         (log w)) in
  chat_continue_endpoint env
    (Object {| cont_thread_id := Some tid; cont_research_plan := Some edited |})
    w
  = (StreamingResponse outcome.1, outcome.2).
Proof.
  intros Ht Hp Hck Hnext outcome.
  rewrite (chat_continue_stream env tid edited w Ht Hp).
  by rewrite (resume_as_steps tid (Some edited) w ck Hck Hnext).
Qed.

End ResumeSteps.

Section ResumeOutcomes.

Variable env : collaborators.

Lemma run_steps_cons (name : string) (action : AgentState → comp AgentState)
    (rest : list (string * (AgentState → comp AgentState)))
    (body : loop_body) (ck : checkpoint) (log : list call) :
  run_steps ((name, action) :: rest) body ck log
  = match action (values ck) log with
    | (Raise e, log') => ([], Throw e, ck, log')
    | (Ok output, log') =>
        let ck' := {| values := merge_state (values ck) output;
                      last_node := name |} in
        let '(evs, fl, log'') := body name output log' in
        match fl with
        | Continue =>
            let '(evs', fl', ck'', log3) := run_steps rest body ck' log'' in
            (evs ++ evs', fl', ck'', log3)
        | _ => (evs, fl, ck', log'')
        end
    end.
Proof. reflexivity. Qed.

Lemma summarize_info_results (st : AgentState) (log : list call) (q : string)
    (rs : list research_result) :
  query st = Some q → raw_research_results st = Some rs → rs ≠ [] →
  summarize_info env st log
  = (match llm_invoke env log SummarizePrompt
             [("query", q); ("results", format_results rs)] with
     | Ok s => Ok (only_summary s)
     | Raise e => Raise e
     end,
     log ++ [LLMInvoke SummarizePrompt
               [("query", q); ("results", format_results rs)]]).
Proof.
  intros Hq Hraw Hne. unfold summarize_info, bind, subscript, chain_invoke, ret.
  rewrite Hq, Hraw. cbn [default].
  destruct (String.eqb _ "") eqn:E.
  { by apply String.eqb_eq, format_results_blank in E. }
  by destruct (llm_invoke _ _ _ _).
Qed.

Lemma fact_check_summary_results (st : AgentState) (log : list call)
    (q s : string) (rs : list research_result) :
  query st = Some q → summary st = Some s →
  raw_research_results st = Some rs → rs ≠ [] →
  fact_check_summary env st log
  = (match llm_invoke env log FactCheckPrompt
             [("query", q); ("summary", s);
              ("results", format_results rs)] with
     | Ok f => Ok (only_fact_check_results f)
     | Raise e => Raise e
     end,
     log ++ [LLMInvoke FactCheckPrompt
               [("query", q); ("summary", s);
                ("results", format_results rs)]]).
Proof.
  intros Hq Hs Hraw Hne.
  unfold fact_check_summary, bind, subscript, chain_invoke, ret.
  rewrite Hq, Hs, Hraw. cbn [default from_option id].
  destruct rs as [|r rs']; [done |]. by destruct (llm_invoke _ _ _ _).
Qed.

Lemma retrieve_info_pair (st : AgentState) (log : list call)
    (rs : list research_result) :
  (retrieve_info env st log).1 = Ok (only_raw_research_results rs) →
  retrieve_info env st log
  = (Ok (only_raw_research_results rs),
     log ++ map TavilyInvoke (search_queries_of (default "" (research_plan st)))).
Proof. rewrite retrieve_info_eq. cbn [fst]. by intros ->. Qed.

Lemma continue_body_summary (s : string) (log : list call) :
  continue_body_of_loop env "summarize_info" (only_summary s) log
  = ([Ev_summary s], Continue, log).
Proof. reflexivity. Qed.

Lemma continue_body_fact_check (f : string) (log : list call) :
  continue_body_of_loop env "fact_check_summary" (only_fact_check_results f)
    log
  = ([Ev_fact_check_results f], Continue, log).
Proof. reflexivity. Qed.

Lemma continue_body_render (c : chain) (i : string * string)
    (inputs : list (string * string)) (log : list call) :
  continue_body_of_loop env "generate_final_answer" (render c (i :: inputs)) log
  = (Ev_final_answer_start ::
       map Ev_final_answer_chunk (llm_astream env log c (i :: inputs)).1,
     match (llm_astream env log c (i :: inputs)).2 with
     | Some e => Throw e
     | None => Continue
     end,
     log ++ [LLMStream c (i :: inputs)]).
Proof.
  unfold continue_body_of_loop, stream_final_answer.
  cbn [String.eqb Ascii.eqb Bool.eqb render final_chain final_chain_inputs
       raw_research_results summary fact_check_results app].
  by destruct (llm_astream _ _ _ _).
Qed.

(** The last two steps of a resumed run, once a summary and a fact check
    are in the state. *)
Lemma finalize_steps (ck : checkpoint) (log : list call) (q s f : string) :
  query (values ck) = Some q → summary (values ck) = Some s →
  fact_check_results (values ck) = Some f →
  let inputs :=
    [("query", q); ("summary", s); ("fact_check_results", f)] in
  run_steps [("generate_final_answer", generate_final_answer)]
    (continue_body_of_loop env) ck log
  = (Ev_final_answer_start ::
       map Ev_final_answer_chunk
         (llm_astream env log FinalAnswerPrompt inputs).1,
     match (llm_astream env log FinalAnswerPrompt inputs).2 with
     | Some e => Throw e
     | None => Continue
     end,
     {| values := merge_state (values ck) (render FinalAnswerPrompt inputs);
        last_node := "generate_final_answer" |},
     log ++ [LLMStream FinalAnswerPrompt inputs]).
Proof.
  intros Hq Hs Hf inputs. cbn [run_steps].
  unfold generate_final_answer, bind, subscript, ret. rewrite Hs, Hf, Hq.
  rewrite continue_body_render. fold inputs.
  destruct (llm_astream env log FinalAnswerPrompt inputs).2;
    by rewrite ?app_nil_r.
Qed.

(** A resumed run that retrieved something, in full. *)
Lemma resume_with_results (tid edited q s f : string) (w : world)
    (ck : checkpoint) (rs : list research_result) :
  store w !! tid = Some ck →
  next_node (research_graph env) (last_node ck) (values ck)
  = Some "retrieve_info" →
  query (values ck) = Some q →
  let st1 := merge_state (values ck) (only_research_plan (Some edited)) in
  let log1 := log w ++ map TavilyInvoke (search_queries_of edited) in
  let summarize :=
    LLMInvoke SummarizePrompt [("query", q); ("results", format_results rs)] in
  let fact_check :=
    LLMInvoke FactCheckPrompt
      [("query", q); ("summary", s); ("results", format_results rs)] in
  let inputs := [("query", q); ("summary", s); ("fact_check_results", f)] in
  let answer :=
    llm_astream env (log1 ++ [summarize; fact_check]) FinalAnswerPrompt inputs in
  (retrieve_info env st1 (log w)).1 = Ok (only_raw_research_results rs) →
  rs ≠ [] →
  llm_invoke env log1 SummarizePrompt
    [("query", q); ("results", format_results rs)] = Ok s →
  llm_invoke env (log1 ++ [summarize]) FactCheckPrompt
    [("query", q); ("summary", s); ("results", format_results rs)] = Ok f →
  continue_event_stream env tid (Some edited) w
  = ([Ev_raw_research_results rs; Ev_summary s; Ev_fact_check_results f;
      Ev_final_answer_start]
     ++ map Ev_final_answer_chunk answer.1
     ++ [match answer.2 with Some e => Ev_error e | None => Ev_done end],
     {| store :=
          <[tid :=
              {| values :=
                   merge_state
                     (merge_state
                        (merge_state
                           (merge_state st1 (only_raw_research_results rs))
                           (only_summary s))
                        (only_fact_check_results f))
                     (render FinalAnswerPrompt inputs);
                 last_node := "generate_final_answer" |}]> (store w);
        log := log1 ++ [summarize; fact_check; LLMStream FinalAnswerPrompt inputs] |}).
Proof.
  intros Hck Hnext Hq st1 log1 summarize fact_check inputs answer
    Hret Hne Hsum Hfc.
  rewrite (resume_as_steps env tid (Some edited) w ck Hck Hnext).
  unfold resume_steps, resumed. rewrite run_steps_cons. cbn [values].
  fold st1. rewrite (retrieve_info_pair st1 (log w) rs Hret).
  change (default "" (research_plan st1)) with edited. fold log1.
  cbn zeta. rewrite continue_body_raw.
  set (st2 := merge_state st1 (only_raw_research_results rs)).
  rewrite run_steps_cons. cbn [values].
  rewrite (summarize_info_results st2 log1 q rs Hq eq_refl Hne), Hsum.
  cbn zeta. rewrite continue_body_summary.
  set (st3 := merge_state st2 (only_summary s)).
  rewrite run_steps_cons. cbn [values].
  rewrite (fact_check_summary_results st3 _ q s rs Hq eq_refl eq_refl Hne).
  fold summarize. rewrite Hfc. cbn zeta. rewrite continue_body_fact_check.
  set (st4 := merge_state st3 (only_fact_check_results f)).
  rewrite (finalize_steps {| values := st4; last_node := "fact_check_summary" |}
             _ q s f Hq eq_refl eq_refl).
  cbn [values]. rewrite <- !app_assoc. cbn [app]. fold fact_check inputs answer.
  by destruct answer.2.
Qed.

End ResumeOutcomes.

Section ResumeTheorems.

Variable env : collaborators.

(** A resumed run that retrieved nothing, in full. *)
Lemma resume_without_results (tid edited q : string) (w : world)
    (ck : checkpoint) :
  store w !! tid = Some ck →
  next_node (research_graph env) (last_node ck) (values ck)
  = Some "retrieve_info" →
  query (values ck) = Some q →
  let st1 := merge_state (values ck) (only_research_plan (Some edited)) in
  let log1 := log w ++ map TavilyInvoke (search_queries_of edited) in
  let inputs :=
    [("query", q); ("summary", no_results_message);
     ("fact_check_results", fact_check_skipped_message)] in
  let answer := llm_astream env log1 FinalAnswerPrompt inputs in
  (retrieve_info env st1 (log w)).1 = Ok (only_raw_research_results []) →
  continue_event_stream env tid (Some edited) w
  = ([Ev_raw_research_results []; Ev_summary no_results_message;
      Ev_fact_check_results fact_check_skipped_message;
      Ev_final_answer_start]
     ++ map Ev_final_answer_chunk answer.1
     ++ [match answer.2 with Some e => Ev_error e | None => Ev_done end],
     {| store :=
          <[tid :=
              {| values :=
                   merge_state
                     (merge_state
                        (merge_state
                           (merge_state st1 (only_raw_research_results []))
                           (only_summary no_results_message))
                        (only_fact_check_results fact_check_skipped_message))
                     (render FinalAnswerPrompt inputs);
                 last_node := "generate_final_answer" |}]> (store w);
        log := log1 ++ [LLMStream FinalAnswerPrompt inputs] |}).
Proof.
  intros Hck Hnext Hq st1 log1 inputs answer Hret.
  rewrite (resume_as_steps env tid (Some edited) w ck Hck Hnext).
  unfold resume_steps, resumed. rewrite run_steps_cons. cbn [values].
  fold st1. rewrite (retrieve_info_pair env st1 (log w) [] Hret).
  change (default "" (research_plan st1)) with edited. fold log1.
  cbn zeta. rewrite continue_body_raw.
  set (st2 := merge_state st1 (only_raw_research_results [])).
  rewrite run_steps_cons. cbn [values].
  rewrite (summarize_info_blank env st2 log1 q Hq eq_refl).
  cbn zeta. rewrite continue_body_summary.
  set (st3 := merge_state st2 (only_summary no_results_message)).
  rewrite run_steps_cons. cbn [values].
  rewrite (fact_check_skipped env st3 log1 q Hq eq_refl).
  cbn zeta. rewrite continue_body_fact_check.
  set (st4 := merge_state st3 _).
  rewrite (finalize_steps env
             {| values := st4; last_node := "fact_check_summary" |}
             _ q no_results_message fact_check_skipped_message
             Hq eq_refl eq_refl).
  cbn [values app]. fold inputs answer.
  by destruct answer.2.
Qed.

(** A resumed run whose summarize step fails, in full. *)
Lemma resume_summary_failure (tid edited q : string) (w : world)
    (ck : checkpoint) (rs : list research_result) (e : exn) :
  store w !! tid = Some ck →
  next_node (research_graph env) (last_node ck) (values ck)
  = Some "retrieve_info" →
  query (values ck) = Some q →
  let st1 := merge_state (values ck) (only_research_plan (Some edited)) in
  let log1 := log w ++ map TavilyInvoke (search_queries_of edited) in
  (retrieve_info env st1 (log w)).1 = Ok (only_raw_research_results rs) →
  rs ≠ [] →
  llm_invoke env log1 SummarizePrompt
    [("query", q); ("results", format_results rs)] = Raise e →
  continue_event_stream env tid (Some edited) w
  = ([Ev_raw_research_results rs; Ev_error e],
     {| store :=
          <[tid := {| values := merge_state st1 (only_raw_research_results rs);
                      last_node := "retrieve_info" |}]> (store w);
        log := log1 ++ [LLMInvoke SummarizePrompt
                          [("query", q); ("results", format_results rs)]] |}).
Proof.
  intros Hck Hnext Hq st1 log1 Hret Hne Hsum.
  rewrite (resume_as_steps env tid (Some edited) w ck Hck Hnext).
  unfold resume_steps, resumed. rewrite run_steps_cons. cbn [values].
  fold st1. rewrite (retrieve_info_pair env st1 (log w) rs Hret).
  change (default "" (research_plan st1)) with edited. fold log1.
  cbn zeta. rewrite continue_body_raw.
  set (st2 := merge_state st1 (only_raw_research_results rs)).
  rewrite run_steps_cons. cbn [values].
  by rewrite (summarize_info_results env st2 log1 q rs Hq eq_refl Hne), Hsum.
Qed.

(** A resumed run that retrieved something reports each step in order.
    The summarize step is called with the conversation's query and the
    formatted results, the fact-check step with the query, the summary just
    produced and the same results, and the final answer is streamed from the
    query, that summary and that report.  The events are the results, the
    summary, the report, the start of the answer, its fragments, and [done]
    (or [error] when the stream fails); the calls after the searches are
    these three, in this order; the state persisted holds the caller's plan
    and what each step returned. *)
Theorem resumed_run_reports_each_step (tid edited q s f : string)
    (w : world) (ck : checkpoint) (rs : list research_result) :
  truthy (Some tid) = true → truthy (Some edited) = true →
  store w !! tid = Some ck →
  next_node (research_graph env) (last_node ck) (values ck)
  = Some "retrieve_info" →
  query (values ck) = Some q →
  let st1 := merge_state (values ck) (only_research_plan (Some edited)) in
  let log1 := log w ++ map TavilyInvoke (search_queries_of edited) in
  let summarize :=
    LLMInvoke SummarizePrompt [("query", q); ("results", format_results rs)] in
  let fact_check :=
    LLMInvoke FactCheckPrompt
      [("query", q); ("summary", s); ("results", format_results rs)] in
  let inputs := [("query", q); ("summary", s); ("fact_check_results", f)] in
  let answer :=
    llm_astream env (log1 ++ [summarize; fact_check]) FinalAnswerPrompt inputs in
  (retrieve_info env st1 (log w)).1 = Ok (only_raw_research_results rs) →
  rs ≠ [] →
  llm_invoke env log1 SummarizePrompt
    [("query", q); ("results", format_results rs)] = Ok s →
  llm_invoke env (log1 ++ [summarize]) FactCheckPrompt
    [("query", q); ("summary", s); ("results", format_results rs)] = Ok f →
  let r :=
    chat_continue_endpoint env
      (Object {| cont_thread_id := Some tid; cont_research_plan := Some edited |})
      w in
  r.1 = StreamingResponse
          ([Ev_raw_research_results rs; Ev_summary s; Ev_fact_check_results f;
            Ev_final_answer_start]
           ++ map Ev_final_answer_chunk answer.1
           ++ [match answer.2 with
               | Some e => Ev_error e
               | None => Ev_done
               end]) ∧
  log r.2
  = log1 ++ [summarize; fact_check; LLMStream FinalAnswerPrompt inputs] ∧
  ∃ ck',
    store r.2 !! tid = Some ck' ∧
    last_node ck' = "generate_final_answer" ∧
    query (values ck') = Some q ∧
    research_plan (values ck') = Some edited ∧
    raw_research_results (values ck') = Some rs ∧
    summary (values ck') = Some s ∧
    fact_check_results (values ck') = Some f.
Proof.
  intros Ht Hp Hck Hnext Hq st1 log1 summarize fact_check inputs answer
    Hret Hne Hsum Hfc r.
  unfold r. rewrite (chat_continue_stream env tid edited w Ht Hp).
  rewrite (resume_with_results env tid edited q s f w ck rs
             Hck Hnext Hq Hret Hne Hsum Hfc).
  cbn [fst snd log store]. split; [done |]. split; [done |].
  eexists. split; [apply lookup_insert_eq |].
  cbn [last_node values]. repeat split. exact Hq.
Qed.

(** A resumed run that retrieved nothing still writes an answer.  When
    the retrieve step stores no result (every search failed, or no hit could
    be stored), the summarize and fact-check steps return their fixed
    messages without calling the LLM, and the final answer is streamed from
    the query and those two messages: the only LLM call of the turn.  *)
Theorem resumed_run_without_results (tid edited q : string) (w : world)
    (ck : checkpoint) :
  truthy (Some tid) = true → truthy (Some edited) = true →
  store w !! tid = Some ck →
  next_node (research_graph env) (last_node ck) (values ck)
  = Some "retrieve_info" →
  query (values ck) = Some q →
  let st1 := merge_state (values ck) (only_research_plan (Some edited)) in
  let log1 := log w ++ map TavilyInvoke (search_queries_of edited) in
  let inputs :=
    [("query", q); ("summary", no_results_message);
     ("fact_check_results", fact_check_skipped_message)] in
  let answer := llm_astream env log1 FinalAnswerPrompt inputs in
  (retrieve_info env st1 (log w)).1 = Ok (only_raw_research_results []) →
  let r :=
    chat_continue_endpoint env
      (Object {| cont_thread_id := Some tid; cont_research_plan := Some edited |})
      w in
  r.1 = StreamingResponse
          ([Ev_raw_research_results []; Ev_summary no_results_message;
            Ev_fact_check_results fact_check_skipped_message;
            Ev_final_answer_start]
           ++ map Ev_final_answer_chunk answer.1
           ++ [match answer.2 with
               | Some e => Ev_error e
               | None => Ev_done
               end]) ∧
  log r.2 = log1 ++ [LLMStream FinalAnswerPrompt inputs] ∧
  ∃ ck',
    store r.2 !! tid = Some ck' ∧
    last_node ck' = "generate_final_answer" ∧
    summary (values ck') = Some no_results_message ∧
    fact_check_results (values ck') = Some fact_check_skipped_message.
Proof.
  intros Ht Hp Hck Hnext Hq st1 log1 inputs answer Hret r.
  unfold r. rewrite (chat_continue_stream env tid edited w Ht Hp).
  rewrite (resume_without_results tid edited q w ck Hck Hnext Hq Hret).
  cbn [fst snd log store]. split; [done |]. split; [done |].
  eexists. split; [apply lookup_insert_eq |]. done.
Qed.

(** When the LLM fails in the summarize step of a resumed run, the turn
    ends with the results event followed by an error event; the results are
    persisted, neither the fact-check nor the final answer is attempted, and
    the conversation is left pending at the summarize step, which is not an
    interrupt point. *)
Theorem failed_summary_keeps_results (tid edited q : string) (w : world)
    (ck : checkpoint) (rs : list research_result) (e : exn) :
  truthy (Some tid) = true → truthy (Some edited) = true →
  store w !! tid = Some ck →
  next_node (research_graph env) (last_node ck) (values ck)
  = Some "retrieve_info" →
  query (values ck) = Some q →
  let st1 := merge_state (values ck) (only_research_plan (Some edited)) in
  let log1 := log w ++ map TavilyInvoke (search_queries_of edited) in
  let summarize :=
    LLMInvoke SummarizePrompt [("query", q); ("results", format_results rs)] in
  (retrieve_info env st1 (log w)).1 = Ok (only_raw_research_results rs) →
  rs ≠ [] →
  llm_invoke env log1 SummarizePrompt
    [("query", q); ("results", format_results rs)] = Raise e →
  let r :=
    chat_continue_endpoint env
      (Object {| cont_thread_id := Some tid; cont_research_plan := Some edited |})
      w in
  r.1 = StreamingResponse [Ev_raw_research_results rs; Ev_error e] ∧
  log r.2 = log1 ++ [summarize] ∧
  ∃ ck',
    store r.2 !! tid = Some ck' ∧
    raw_research_results (values ck') = Some rs ∧
    research_plan (values ck') = Some edited ∧
    next_node (research_graph env) (last_node ck') (values ck')
    = Some "summarize_info" ∧
    bool_decide ("summarize_info" ∈ interrupt_before (research_graph env))
    = false.
Proof.
  intros Ht Hp Hck Hnext Hq st1 log1 summarize Hret Hne Hsum r.
  unfold r. rewrite (chat_continue_stream env tid edited w Ht Hp).
  rewrite (resume_summary_failure tid edited q w ck rs e
             Hck Hnext Hq Hret Hne Hsum).
  cbn [fst snd log store]. split; [done |]. split; [done |].
  eexists. split; [apply lookup_insert_eq |]. done.
Qed.

(** Only the LLM can fail a resumed run.  On a conversation waiting
    before the retrieve step whose state holds a query, an LLM that answers
    every request makes the turn complete, whatever the search tool does
    (raise, return nothing, return hits that cannot be stored): the events
    are the results, a summary, a fact-check report, the start of the answer,
    its fragments and [done], and the conversation is left at the end of the
    graph. *)
Theorem resumed_run_completes_when_llm_answers (tid edited q : string)
    (w : world) (ck : checkpoint) :
  truthy (Some tid) = true → truthy (Some edited) = true →
  store w !! tid = Some ck →
  next_node (research_graph env) (last_node ck) (values ck)
  = Some "retrieve_info" →
  query (values ck) = Some q →
  (∀ l p v, ∃ s, llm_invoke env l p v = Ok s) →
  (∀ l p v, (llm_astream env l p v).2 = None) →
  let r :=
    chat_continue_endpoint env
      (Object {| cont_thread_id := Some tid; cont_research_plan := Some edited |})
      w in
  ∃ rs s f chunks ck',
    r.1 = StreamingResponse
            ([Ev_raw_research_results rs; Ev_summary s;
              Ev_fact_check_results f; Ev_final_answer_start]
             ++ map Ev_final_answer_chunk chunks ++ [Ev_done]) ∧
    store r.2 !! tid = Some ck' ∧
    next_node (research_graph env) (last_node ck') (values ck') = Some END.
Proof.
  intros Ht Hp Hck Hnext Hq Hllm Hstream r.
  unfold r. rewrite (chat_continue_stream env tid edited w Ht Hp).
  set (st1 := merge_state (values ck) (only_research_plan (Some edited))).
  set (log1 := log w ++ map TavilyInvoke (search_queries_of edited)).
  destruct (retrieve_info env st1 (log w)) as [res log'] eqn:Hrun.
  pose proof (retrieve_info_eq env st1 (log w)) as Heq. cbn zeta in Heq.
  rewrite Hrun in Heq. injection Heq as Hres _.
  match type of Hres with
  | _ = Ok (only_raw_research_results ?x) => set (rs := x) in Hres
  end.
  assert ((retrieve_info env st1 (log w)).1
          = Ok (only_raw_research_results rs)) as Hret by (by rewrite Hrun).
  destruct (decide (rs = [])) as [Hnil | Hne].
  - rewrite Hnil in Hret.
    rewrite (resume_without_results tid edited q w ck Hck Hnext Hq Hret).
    rewrite Hstream. eexists [], _, _, _, _. cbn [fst snd store].
    split; [reflexivity |]. split; [apply lookup_insert_eq | done].
  - destruct (Hllm log1 SummarizePrompt
                [("query", q); ("results", format_results rs)]) as [s Hs].
    destruct (Hllm (log1 ++ [LLMInvoke SummarizePrompt
                               [("query", q); ("results", format_results rs)]])
                FactCheckPrompt
                [("query", q); ("summary", s);
                 ("results", format_results rs)]) as [f Hf].
    rewrite (resume_with_results env tid edited q s f w ck rs
               Hck Hnext Hq Hret Hne Hs Hf).
    rewrite Hstream. eexists rs, s, f, _, _. cbn [fst snd store].
    split; [reflexivity |]. split; [apply lookup_insert_eq | done].
Qed.

End ResumeTheorems.

(** ** The shape of a response *)

Section Responses.

Variable env : collaborators.

Lemma chat_stream_shape (tid : string) (input : AgentState) (w : world) :
  ∃ middle last,
    (chat_event_stream env tid input w).1
    = Ev_thread_id tid :: middle ++ [last] ∧
    Forall answer_event middle ∧ closing_event last ∧
    (∀ plan, last = Ev_research_plan plan → middle = []).
Proof.
  destruct (route_cases (turn_state tid input w)) as [Hr | Hr].
  - rewrite (chat_plan_turn env tid input w Hr).
    destruct (original_query _) as [oq|];
      [destruct (llm_invoke _ _ _ _) as [plan | e];
       [destruct (truthy (Some plan))|]|];
      eexists [], _; cbn [fst app]; by repeat split.
  - rewrite (chat_follow_up_turn env tid input w Hr). cbn [fst].
    eexists (Ev_final_answer_start :: map Ev_final_answer_chunk _), _.
    split; [reflexivity |]. split; [|split].
    + constructor; [done |]. apply Forall_forall. intros ev Hev.
      apply list_elem_of_fmap in Hev as (c & -> & _). done.
    + by destruct (llm_astream _ _ _ _).2.
    + intros plan. by destruct (llm_astream _ _ _ _).2.
Qed.

(** Every response of [/chat] is a server error, a refusal or a framed
    stream.  A body that is not text, or that is JSON but not an object,
    makes the endpoint fail (status 500); a body that is not JSON, or an
    object with no query (or an empty one), is refused with status 400; in
    both cases nothing changes.  Any other request gets a stream whose first
    event is the thread id (the one given, or the fresh identifier when none
    or an empty one was given) and whose last event is the only closing one:
    the plan awaiting approval, [done] or [error].  Between them come only
    the start and the fragments of an answer, and none before a plan. *)
Theorem chat_response_shape (uuid : string) (request : body chat_request)
    (w : world) :
  match (chat_endpoint env uuid request w).1 with
  | Unhandled _ =>
      (request = Undecodable ∨ request = NotAnObject) ∧
      (chat_endpoint env uuid request w).2 = w
  | JSONResponse status_code _ =>
      status_code = 400 ∧ truthy (field req_query request) = false ∧
      (request = NotJSON ∨ ∃ data, request = Object data) ∧
      (chat_endpoint env uuid request w).2 = w
  | StreamingResponse events =>
      ∃ data middle last,
        request = Object data ∧ truthy (req_query data) = true ∧
        events = Ev_thread_id (chat_thread uuid data) :: middle ++ [last] ∧
        Forall answer_event middle ∧ closing_event last ∧
        (∀ plan, last = Ev_research_plan plan → middle = [])
  end.
Proof.
  destruct request as [| | |data].
  - split; [by left | done].
  - repeat split; by left.
  - split; [by right | done].
  - destruct (truthy (req_query data)) eqn:Hq.
    + rewrite (chat_endpoint_stream env uuid data w Hq). cbn [fst].
      destruct (chat_stream_shape (chat_thread uuid data)
                  (if truthy (req_thread_id data)
                   then only_query (req_query data)
                   else initial_state uuid (req_query data)) w)
        as (middle & last & H1 & H2 & H3 & H4).
      by exists data, middle, last.
    + unfold chat_endpoint. rewrite Hq. cbn [negb fst snd field].
      repeat split; [done |]. right. by exists data.
Qed.

Lemma continue_body_events (name : string) (out : AgentState)
    (log : list call) :
  Forall progress_event (continue_body_of_loop env name out log).1.1 ∧
  (continue_body_of_loop env name out log).1.2 ≠ Return.
Proof.
  unfold continue_body_of_loop.
  destruct (String.eqb name END); [by split |].
  unfold stream_final_answer.
  assert (Forall progress_event
            (match raw_research_results out with
             | Some d => [Ev_raw_research_results d] | None => [] end ++
             match summary out with
             | Some d => [Ev_summary d] | None => [] end ++
             match fact_check_results out with
             | Some d => [Ev_fact_check_results d] | None => [] end)) as Hkeys.
  { destruct (raw_research_results out), (summary out),
      (fact_check_results out); by repeat constructor. }
  destruct (final_chain out) as [[c|]|];
    try (cbn [fst snd]; by rewrite app_nil_r).
  destruct (final_chain_inputs out) as [[|i l]|];
    try (cbn [fst snd]; by rewrite app_nil_r).
  destruct (llm_astream _ _ _ _) as [chunks failure]. cbn [fst snd]. split.
  - apply Forall_app. split; [done |]. constructor; [done |].
    apply Forall_forall. intros ev Hev.
    apply list_elem_of_fmap in Hev as (x & -> & _). done.
  - by destruct failure.
Qed.

Lemma async_for_continue_events (tid : string) (budget : nat) :
  ∀ (resuming : bool) (w : world),
    Forall progress_event
      (async_for (research_graph env) tid (continue_body_of_loop env)
         budget resuming w).1.1 ∧
    (async_for (research_graph env) tid (continue_body_of_loop env)
       budget resuming w).1.2 ≠ Return.
Proof.
  induction budget as [|b IH]; intros resuming w; rewrite async_for_unfold;
    destruct (astream_next _ _ _ _ _) as [[name out | | e] w'];
    try (by split);
    pose proof (continue_body_events name out (log w')) as [Hevs Hfl];
    destruct (continue_body_of_loop env name out (log w')) as [[evs fl] log'];
    cbn [fst snd] in *; destruct fl; try done.
  specialize (IH false {| store := store w'; log := log' |}) as [Hevs' Hfl'].
  cbn zeta. destruct (async_for _ _ _ b false _) as [[evs' fl'] w3].
  cbn [fst snd] in *. split; [by apply Forall_app | done].
Qed.

(** Every response of [/chat/continue] is a server error, a refusal or a
    framed stream.  A body that is not text, or that is JSON but not an
    object, makes the endpoint fail (status 500); a body that is not JSON,
    or an object that lacks a thread id or a plan (or gives an empty one), is
    refused with status 400; in both cases nothing changes.  Any other
    request, whatever the state of the conversation it names, gets a stream
    that ends with [done] or with [error], the only such event in it; before
    it come only results, summary, fact-check and answer events: never a
    thread id, never a plan awaiting approval. *)
Theorem continue_response_shape (request : body continue_request)
    (w : world) :
  match (chat_continue_endpoint env request w).1 with
  | Unhandled _ =>
      (request = Undecodable ∨ request = NotAnObject) ∧
      (chat_continue_endpoint env request w).2 = w
  | JSONResponse status_code _ =>
      status_code = 400 ∧
      truthy (field cont_thread_id request)
      && truthy (field cont_research_plan request) = false ∧
      (request = NotJSON ∨ ∃ data, request = Object data) ∧
      (chat_continue_endpoint env request w).2 = w
  | StreamingResponse events =>
      ∃ data middle last,
        request = Object data ∧
        truthy (cont_thread_id data) && truthy (cont_research_plan data)
        = true ∧
        events = middle ++ [last] ∧
        Forall progress_event middle ∧
        (last = Ev_done ∨ ∃ e, last = Ev_error e)
  end.
Proof.
  unfold chat_continue_endpoint.
  destruct request as [| | |data]; cbn [fst snd field].
  - split; [by left | done].
  - repeat split; by left.
  - split; [by right | done].
  - destruct (truthy (cont_thread_id data)) eqn:Ht,
      (truthy (cont_research_plan data)) eqn:Hp;
      cbn [negb orb andb fst snd];
      try (repeat split; try done; right; by exists data).
    unfold continue_event_stream.
    pose proof (async_for_continue_events (default "" (cont_thread_id data))
                  recursion_limit true
                  (update_state (default "" (cont_thread_id data))
                     (only_research_plan (cont_research_plan data)) w))
      as [Hevs Hfl].
    destruct (async_for _ _ _ _ _ _) as [[evs fl] w'].
    cbn [fst snd] in *.
    destruct fl as [| | e]; [|done |]; cbn [close_stream fst].
    + exists data, evs, Ev_done. rewrite Ht, Hp. repeat split; try done.
      by left.
    + exists data, evs, (Ev_error e). rewrite Ht, Hp.
      repeat split; try done. right. by exists e.
Qed.

End Responses.

(** ** The length of a run *)

Section RunLength.

Variable env : collaborators.

Lemma next_node_cases (n m : string) (st : AgentState) :
  next_node (research_graph env) n st = Some m →
  (n = START ∧
   (m = "generate_research_plan" ∨ m = "answer_follow_up_question")) ∨
  (n = "generate_research_plan" ∧ m = "retrieve_info") ∨
  (n = "retrieve_info" ∧ m = "summarize_info") ∨
  (n = "summarize_info" ∧ m = "fact_check_summary") ∨
  (n = "fact_check_summary" ∧ m = "generate_final_answer") ∨
  ((n = "generate_final_answer" ∨ n = "answer_follow_up_question") ∧ m = END).
Proof.
  destruct (String.eqb_spec n START) as [-> | Hne].
  - rewrite entry_is_router. intros [= <-]. left. split; [done |].
    apply route_cases.
  - unfold next_node. apply String.eqb_neq in Hne. rewrite Hne.
    change (edges (builder (research_graph env))) with
      [("generate_research_plan", "retrieve_info");
       ("retrieve_info", "summarize_info");
       ("summarize_info", "fact_check_summary");
       ("fact_check_summary", "generate_final_answer");
       ("generate_final_answer", END);
       ("answer_follow_up_question", END)].
    cbn [assoc].
    repeat (match goal with
            | |- context [String.eqb ?k n] =>
                destruct (String.eqb_spec k n) as [<- | ?]
            end; [intros [= <-]; tauto |]).
    discriminate.
Qed.

(** The limit is looked at only to tell whether any step is left. *)
Lemma astream_next_budget (tid : string) (resuming : bool) (b b' : nat)
    (w : world) :
  astream_next (research_graph env) tid resuming (S b) w
  = astream_next (research_graph env) tid resuming (S b') w.
Proof. reflexivity. Qed.

Lemma astream_next_no_step (tid : string) (resuming : bool) (budget : nat)
    (w : world) :
  (∀ ck, store w !! tid = Some ck → steps_left resuming (last_node ck) = 0) →
  astream_next (research_graph env) tid resuming budget w = (StreamEnd, w).
Proof.
  intros Hrank. unfold astream_next.
  destruct (store w !! tid) as [ck|]; [|done].
  specialize (Hrank ck eq_refl).
  destruct (next_node _ _ _) as [m|] eqn:Hn; [|done].
  apply next_node_cases in Hn
    as [[Hn Hm] | [[Hn ->] | [[Hn ->] | [[Hn ->] | [[Hn ->] | [_ ->]]]]]];
    try (rewrite Hn in Hrank; discriminate Hrank); [|done].
  rewrite Hn in Hrank. by destruct resuming.
Qed.

Lemma astream_next_chunk (tid : string) (resuming : bool) (budget : nat)
    (w w' : world) (ck : checkpoint) (name : string) (out : AgentState) :
  store w !! tid = Some ck →
  astream_next (research_graph env) tid resuming budget w
  = (Chunk name out, w') →
  ∃ ck',
    store w' !! tid = Some ck' ∧ last_node ck' = name ∧
    steps_left false name < steps_left resuming (last_node ck).
Proof.
  intros Hck. unfold astream_next. rewrite Hck.
  destruct (next_node _ _ _) as [m|] eqn:Hn; [|done].
  destruct (String.eqb m END) eqn:Hend; [done |].
  destruct (negb resuming && _) eqn:Hint; [done |].
  destruct budget as [|b]; [done |].
  destruct (assoc m _) as [action|]; [|done].
  destruct (action (values ck) (log w)) as [[o | e] log']; [|done].
  intros [= <- <- <-]. eexists. cbn [store].
  split; [apply lookup_insert_eq |]. split; [done |]. cbn [last_node].
  apply next_node_cases in Hn
    as [[-> [-> | ->]] | [[-> ->] | [[-> ->] | [[-> ->] | [[-> ->] | [_ ->]]]]]];
    try (cbv; lia); [|done].
  destruct resuming; [cbv; lia | discriminate Hint].
Qed.

Lemma async_for_budget (tid : string) (body : loop_body) (b1 : nat) :
  ∀ (b2 : nat) (resuming : bool) (w : world),
    (∀ ck, store w !! tid = Some ck →
           steps_left resuming (last_node ck) ≤ b1 ∧
           steps_left resuming (last_node ck) ≤ b2) →
    async_for (research_graph env) tid body b1 resuming w
    = async_for (research_graph env) tid body b2 resuming w.
Proof.
  induction b1 as [|b1 IH]; intros b2 resuming w Hrank.
  - rewrite !async_for_unfold, !astream_next_no_step; [done | |];
      intros ck Hck; destruct (Hrank ck Hck); lia.
  - destruct b2 as [|b2].
    { rewrite !async_for_unfold, !astream_next_no_step; [done | |];
        intros ck Hck; destruct (Hrank ck Hck); lia. }
    rewrite !async_for_unfold, (astream_next_budget tid resuming b1 b2).
    destruct (astream_next _ _ _ (S b2) w) as [[name out | | e] w'] eqn:Hnext;
      [|done | done].
    destruct (body name out (log w')) as [[evs fl] log'].
    destruct fl; [|done | done]. cbn zeta.
    rewrite (IH b2 false {| store := store w'; log := log' |}); [done |].
    intros ck' Hck'. cbn [store] in Hck'.
    destruct (store w !! tid) as [ck|] eqn:Hck.
    + destruct (astream_next_chunk tid resuming (S b2) w w' ck name out
                  Hck Hnext) as (ck1 & H1 & Hname & Hlt).
      rewrite Hck' in H1. injection H1 as <-. rewrite Hname.
      destruct (Hrank ck eq_refl). lia.
    + unfold astream_next in Hnext. rewrite Hck in Hnext. discriminate Hnext.
Qed.

Lemma steps_left_bound (resuming : bool) (n : string) :
  steps_left resuming n ≤ 4.
Proof.
  unfold steps_left.
  repeat (match goal with
          | |- context [String.eqb n ?k] => destruct (String.eqb n k)
          end; [try destruct resuming; lia |]).
  lia.
Qed.

(** The recursion limit never ends a run.  The graph has no cycle and its
    longest uninterrupted path has four steps, so under any limit of at
    least four a stream does what it does under the library's limit, for
    every conversation, loop body and collaborator: no turn is cut short by
    the limit. *)
Theorem recursion_limit_never_reached (tid : string) (body : loop_body)
    (budget : nat) (resuming : bool) (w : world) :
  4 ≤ budget →
  async_for (research_graph env) tid body budget resuming w
  = async_for (research_graph env) tid body recursion_limit resuming w.
Proof.
  intros Hb. apply async_for_budget. intros ck _.
  pose proof (steps_left_bound resuming (last_node ck)).
  unfold recursion_limit. lia.
Qed.

End RunLength.

(** ** The order of the results and the shape of the sub-queries *)

Lemma foldl_add_entry_sublist (acc : list research_result * gset string)
    (es : list research_result) :
  ∃ l, (foldl add_entry acc es).1 = acc.1 ++ l ∧ sublist l es.
Proof.
  revert acc. induction es as [|e es IH]; intros acc.
  - exists []. by rewrite app_nil_r.
  - cbn [foldl]. destruct (IH (add_entry acc e)) as (l & Hl & Hsub).
    unfold add_entry in Hl. unfold add_entry.
    destruct (bool_decide (source e ∈ acc.2)).
    + exists l. split; [done |]. by apply sublist_cons.
    + exists (e :: l). cbn [fst] in Hl. rewrite Hl, <- app_assoc.
      split; [done |]. by apply sublist_skip.
Qed.

(** The retrieve step stores its results in the order it saw them:
    what it returns is the list of storable hits, in the order of the
    sub-queries and, within a sub-query, of the tool's answer, with some hits
    left out (those whose source was already stored).  Nothing is reordered
    and nothing is added. *)
Theorem retrieved_results_keep_order (env : collaborators) (st : AgentState)
    (log : list call) :
  let qs := search_queries_of (default "" (research_plan st)) in
  let seen := omap entry_of_item (responses_seen env qs log) in
  ∃ rs,
    (retrieve_info env st log).1 = Ok (only_raw_research_results rs) ∧
    sublist rs seen ∧ length rs ≤ length seen.
Proof.
  intros qs seen. rewrite retrieve_info_eq. fold qs seen. cbn [fst].
  destruct (foldl_add_entry_sublist ([], ∅) seen) as (l & Hl & Hsub).
  cbn [fst app] in Hl. rewrite Hl. exists l.
  split; [done |]. split; [done |]. by apply sublist_length.
Qed.

Lemma no_nl_take_line (s : list N) : no_nl (take_line s).
Proof.
  induction s as [|c s IH]; [done |]. cbn [take_line].
  destruct (c =? newline)%N eqn:E; [done |]. by apply no_nl_cons.
Qed.

Lemma take_line_starts_with_text (s : list N) :
  starts_with_text (take_line (drop_while is_space_cp s)).
Proof.
  induction s as [|c s IH]; [done |]. cbn [drop_while].
  destruct (is_space_cp c) eqn:E; [done |]. cbn [take_line].
  by destruct (c =? newline)%N.
Qed.

Lemma match_numbered_shape (s cap : list N) (len : nat) :
  match_numbered s = Some (cap, len) → no_nl cap ∧ starts_with_text cap.
Proof.
  rewrite match_numbered_unfold.
  destruct (skip_digits _) as [[|n2] [|c s3]]; try done.
  destruct (c =? full_stop)%N; [|done]. cbn zeta. intros [= <- _].
  rewrite skip_spaces_snd.
  split; [apply no_nl_take_line | apply take_line_starts_with_text].
Qed.

Lemma findall_scan_shape (s : list N) :
  ∀ (bol : bool) (skip : nat),
    Forall (λ t, no_nl t ∧ starts_with_text t) (findall_scan bol skip s).
Proof.
  induction s as [|c s IH]; intros bol skip; [constructor |].
  rewrite findall_scan_cons. destruct skip as [|k]; [|apply IH].
  destruct (if bol then match_numbered (c :: s) else None)
    as [[cap len]|] eqn:E; [|apply IH].
  constructor; [|apply IH].
  destruct bol; [|done]. by apply (match_numbered_shape (c :: s) cap len).
Qed.

(** The retrieve step always has at least one query to search for, and
    every sub-query taken from a numbered plan is a single line that does
    not start with a whitespace character, in the sense of the pattern's own
    class: the blanks after the number, a no-break space as much as a space,
    are not part of it (blanks at its end are).  When the plan has no
    numbered line the one query is the plan itself, whatever it contains. *)
Theorem sub_queries_are_trimmed_lines (plan : string) :
  0 < length (search_queries_of plan) ∧
  (∃ texts,
     findall_numbered plan = map utf8_encode texts ∧
     Forall (λ t, no_nl t ∧ starts_with_text t) texts) ∧
  (search_queries_of plan = findall_numbered plan ∨
   (findall_numbered plan = [] ∧ search_queries_of plan = [plan])).
Proof.
  split; [|split].
  - unfold search_queries_of.
    destruct (findall_numbered plan); cbn [length]; lia.
  - eexists. split; [reflexivity | apply findall_scan_shape].
  - unfold search_queries_of. destruct (findall_numbered plan); [right | left];
      done.
Qed.

(** ** The service, from its first request *)

Section Service.

Variable env : collaborators.

Lemma route_without_summary (st : AgentState) :
  truthy (summary st) = false →
  route_initial_or_follow_up st = "generate_research_plan".
Proof.
  intros H. unfold route_initial_or_follow_up. rewrite H.
  by destruct (str_in "change" _ && str_in "plan" _).
Qed.

Lemma unstarted_checkpoint (tid : string) (w : world) :
  unstarted w →
  last_node (default empty_checkpoint (store w !! tid)) = START ∧
  original_query (values (default empty_checkpoint (store w !! tid))) = None ∧
  truthy (summary (values (default empty_checkpoint (store w !! tid))))
  = false.
Proof.
  intros Hw. destruct (store w !! tid) as [ck|] eqn:Hck; [|done].
  by apply (Hw tid).
Qed.

Lemma unstarted_insert (tid : string) (ck : checkpoint) (w : world)
    (log' : list call) :
  unstarted w →
  last_node ck = START → original_query (values ck) = None →
  truthy (summary (values ck)) = false →
  unstarted {| store := <[tid := ck]> (store w); log := log' |}.
Proof.
  intros Hw H1 H2 H3 t ck'. cbn [store].
  destruct (decide (t = tid)) as [-> | Hne].
  - rewrite lookup_insert_eq. by intros [= <-].
  - rewrite lookup_insert_ne by done. apply Hw.
Qed.

Lemma chat_turn_unstarted (tid : string) (input : AgentState) (w : world) :
  unstarted w →
  original_query input = None →
  truthy (summary input) = false →
  chat_event_stream env tid input w
  = ([Ev_thread_id tid; Ev_error (KeyError "original_query")],
     put_input tid input w) ∧
  unstarted (put_input tid input w).
Proof.
  intros Hw Hoq Hsum.
  destruct (unstarted_checkpoint tid w Hw) as (Hlast & Hoq0 & Hsum0).
  set (st := merge_state (values (default empty_checkpoint (store w !! tid)))
               input).
  assert (original_query st = None) as Hoq1.
  { unfold st. cbn [merge_state original_query]. by rewrite Hoq. }
  assert (truthy (summary st) = false) as Hsum1.
  { unfold st. cbn [merge_state summary].
    by destruct (summary input) as [[|c s]|]. }
  split.
  - rewrite (chat_plan_turn env tid input w (route_without_summary st Hsum1)).
    fold st. by rewrite Hoq1.
  - by apply unstarted_insert.
Qed.

Lemma resume_turn_unstarted (tid : string) (plan : option string)
    (w : world) :
  unstarted w →
  continue_event_stream env tid plan w
  = ([Ev_error (KeyError "original_query")],
     update_state tid (only_research_plan plan) w) ∧
  unstarted (update_state tid (only_research_plan plan) w).
Proof.
  intros Hw.
  destruct (unstarted_checkpoint tid w Hw) as (Hlast & Hoq0 & Hsum0).
  set (ck := default empty_checkpoint (store w !! tid)) in *.
  set (st := merge_state (values ck) (only_research_plan plan)).
  assert (store (update_state tid (only_research_plan plan) w) !! tid
          = Some {| values := st; last_node := START |}) as Hck.
  { unfold update_state. cbn [store]. fold ck. rewrite Hlast.
    apply lookup_insert_eq. }
  split.
  - unfold continue_event_stream, recursion_limit. rewrite async_for_unfold.
    rewrite (astream_next_pending env tid true _ _ _ "generate_research_plan"
               (generate_research_plan env) Hck);
      [| cbn [last_node values]; rewrite entry_is_router;
         by rewrite (route_without_summary st Hsum0)
       | done | done | done].
    cbn [values]. unfold generate_research_plan, bind, subscript.
    change (original_query st) with (original_query (values ck)).
    rewrite Hoq0. cbn [raise close_stream]. unfold raise.
    by destruct (update_state _ _ w).
  - unfold update_state. fold ck. by apply unstarted_insert.
Qed.

Lemma serve_unstarted (rq : request) (w : world) :
  unstarted w →
  refused_or_failed (serve env rq w).1 ∧
  log (serve env rq w).2 = log w ∧
  unstarted (serve env rq w).2.
Proof.
  intros Hw. destruct rq as [uuid [| | |data] | [| | |data]]; cbn [serve];
    try done.
  - destruct (truthy (req_query data)) eqn:Hq;
      [|unfold chat_endpoint; by rewrite Hq].
    rewrite (chat_endpoint_stream env uuid data w Hq).
    destruct (chat_turn_unstarted (chat_thread uuid data)
                (if truthy (req_thread_id data)
                 then only_query (req_query data)
                 else initial_state uuid (req_query data)) w Hw)
      as [-> Hw']; [by destruct (truthy (req_thread_id data)) .. |].
    done.
  - unfold chat_continue_endpoint.
    destruct (negb _ || negb _); [done |].
    destruct (resume_turn_unstarted (default "" (cont_thread_id data))
                (cont_research_plan data) w Hw) as [-> Hw'].
    done.
Qed.

Lemma serve_all_unstarted (rqs : list request) :
  ∀ w, unstarted w →
       Forall refused_or_failed (serve_all env rqs w).1 ∧
       log (serve_all env rqs w).2 = log w ∧
       unstarted (serve_all env rqs w).2.
Proof.
  induction rqs as [|rq rest IH]; intros w Hw;
    [split; [constructor | by split] |].
  cbn [serve_all].
  destruct (serve_unstarted rq w Hw) as (Hr & Hlog & Hw').
  destruct (serve env rq w) as [r w']. cbn [fst snd] in *.
  destruct (IH w' Hw') as (Hrs & Hlog' & Hw'').
  destruct (serve_all env rest w') as [rs w'']. cbn [fst snd] in *.
  split; [by constructor |]. split; [congruence | done].
Qed.

Lemma empty_store_unstarted (log0 : list call) :
  unstarted {| store := ∅; log := log0 |}.
Proof. intros t ck H. cbn [store] in H. by rewrite lookup_empty in H. Qed.

(** As written, the service never reaches a collaborator.  Started with no
    conversation and answering its requests one at a time, whatever they are
    and in whatever order, it never calls the LLM or the search tool: every
    request is answered by a server error (status 500), by a refusal (status
    400) or by a stream that ends with the error of the plan step's missing
    [original_query]. *)
Theorem service_never_reaches_a_collaborator (rqs : list request)
    (log0 : list call) :
  Forall refused_or_failed
    (serve_all env rqs {| store := ∅; log := log0 |}).1 ∧
  log (serve_all env rqs {| store := ∅; log := log0 |}).2 = log0.
Proof.
  destruct (serve_all_unstarted rqs {| store := ∅; log := log0 |}
              (empty_store_unstarted log0)) as (H1 & H2 & _).
  by split.
Qed.

(** C5.  The plan step never completes, so no turn halts before the
    retrieve step with a plan awaiting approval.  After any requests the
    service has answered since it started, a request to [/chat] with a query
    is sent by the router to the plan step, never to the follow-up step; the
    plan step raises on the missing [original_query]; the events of the turn
    are the thread id and then that error, with no plan awaiting approval;
    no call is made, and the conversation is left before the router, its
    pending node still the plan step. *)
Theorem plan_turn_never_awaits_approval (rqs : list request) (uuid : string)
    (data : chat_request) (log0 : list call) :
  truthy (req_query data) = true →
  let w := (serve_all env rqs {| store := ∅; log := log0 |}).2 in
  let tid := chat_thread uuid data in
  let r := chat_endpoint env uuid (Object data) w in
  r.1 = StreamingResponse
          [Ev_thread_id tid; Ev_error (KeyError "original_query")] ∧
  log r.2 = log0 ∧
  ∃ ck,
    store r.2 !! tid = Some ck ∧
    route_initial_or_follow_up (values ck) = "generate_research_plan" ∧
    next_node (research_graph env) (last_node ck) (values ck)
    = Some "generate_research_plan" ∧
    original_query (values ck) = None.
Proof.
  intros Hq w tid r.
  destruct (serve_all_unstarted rqs {| store := ∅; log := log0 |}
              (empty_store_unstarted log0)) as (_ & Hlog & Hw).
  fold w in Hlog, Hw. cbn [log] in Hlog.
  unfold r. rewrite (chat_endpoint_stream env uuid data w Hq). fold tid.
  set (input := if truthy (req_thread_id data) then _ else _).
  destruct (chat_turn_unstarted tid input w Hw) as [-> Hw'];
    [unfold input; by destruct (truthy (req_thread_id data)) .. |].
  cbn [fst snd]. split; [done |]. split; [done |].
  pose proof (put_input_lookup tid input w) as Hck.
  destruct (Hw' tid _ Hck) as (Hlast & Hoq & Hsum).
  eexists. split; [exact Hck |].
  pose proof (route_without_summary _ Hsum) as Hroute.
  split; [exact Hroute |]. split; [|exact Hoq].
  cbn [last_node]. rewrite entry_is_router. by rewrite Hroute.
Qed.

End Service.

(** ** The further theorems at concrete inputs *)

Lemma follow_up_turn_uses_persisted_context_witness :
  (chat_endpoint sample_env "fresh"
     (Object {| req_query := Some "and why?"; req_thread_id := Some "t1" |})
     completed_world).1
  = StreamingResponse
      [Ev_thread_id "t1"; Ev_final_answer_start;
       Ev_final_answer_chunk "Plastics "; Ev_final_answer_chunk "harm.";
       Ev_done].
Proof.
  refine (proj1 (follow_up_turn_uses_persisted_context sample_env "fresh" "t1"
                   "and why?" completed_world completed_checkpoint
                   eq_refl eq_refl (lookup_singleton_eq _ _) eq_refl _)).
  intros H. apply change_plan_request_iff in H. discriminate H.
Defined.

Lemma turn_leaves_other_conversations_witness :
  store (chat_endpoint sample_env "fresh"
           (Object {| req_query := Some "tides"; req_thread_id := None |})
           completed_world).2 !! "t1"
  = store completed_world !! "t1" ∧
  store (chat_continue_endpoint sample_env
           (Object {| cont_thread_id := Some "t2";
                    cont_research_plan := Some "1. Causes" |})
           completed_world).2 !! "t1"
  = store completed_world !! "t1".
Proof.
  apply (turn_leaves_other_conversations sample_env "fresh" "t1"
           (Object {| req_query := Some "tides"; req_thread_id := None |})
           (Object {| cont_thread_id := Some "t2";
                    cont_research_plan := Some "1. Causes" |})
           completed_world); discriminate.
Defined.

Lemma chat_turn_records_query_witness :
  ∃ ck,
    store (chat_endpoint sample_env "fresh"
             (Object {| req_query := Some "tides"; req_thread_id := None |})
             {| store := ∅; log := [] |}).2 !! "fresh" = Some ck ∧
    query (values ck) = Some "tides".
Proof.
  destruct (chat_turn_records_query sample_env "fresh" "tides" None
              {| store := ∅; log := [] |} eq_refl) as (ck & H1 & H2 & _).
  exists ck. split; [exact H1 | exact H2].
Defined.

Lemma resume_runs_steps_in_order_witness :
  let outcome :=
    resumed "t1" suspended_world
      (run_steps (resume_steps sample_env) (continue_body_of_loop sample_env)
         {| values :=
              merge_state suspended_state
                (only_research_plan (Some sample_plan));
            last_node := "generate_research_plan" |}
         []) in
  chat_continue_endpoint sample_env
    (Object {| cont_thread_id := Some "t1";
             cont_research_plan := Some sample_plan |})
    suspended_world
  = (StreamingResponse outcome.1, outcome.2).
Proof.
  apply (resume_runs_steps_in_order sample_env "t1" sample_plan
           suspended_world suspended_checkpoint
           eq_refl eq_refl (lookup_singleton_eq _ _) eq_refl).
Defined.

Lemma resumed_run_reports_each_step_witness :
  (chat_continue_endpoint sample_env
     (Object {| cont_thread_id := Some "t1";
              cont_research_plan := Some sample_plan |})
     suspended_world).1
  = StreamingResponse
      [Ev_raw_research_results sample_results;
       Ev_summary "Plastics harm marine life.";
       Ev_fact_check_results "Fact check: OK.";
       Ev_final_answer_start;
       Ev_final_answer_chunk "Plastics "; Ev_final_answer_chunk "harm.";
       Ev_done].
Proof.
  refine (proj1 (resumed_run_reports_each_step sample_env "t1" sample_plan
                   "tides" "Plastics harm marine life." "Fact check: OK."
                   suspended_world suspended_checkpoint sample_results
                   eq_refl eq_refl (lookup_singleton_eq _ _) eq_refl eq_refl
                   _ _ eq_refl eq_refl)).
  - vm_compute. reflexivity.
  - discriminate.
Defined.

Lemma resumed_run_without_results_witness :
  (chat_continue_endpoint search_down_env
     (Object {| cont_thread_id := Some "t1";
              cont_research_plan := Some sample_plan |})
     suspended_world).1
  = StreamingResponse
      [Ev_raw_research_results [];
       Ev_summary no_results_message;
       Ev_fact_check_results fact_check_skipped_message;
       Ev_final_answer_start;
       Ev_final_answer_chunk "Plastics "; Ev_final_answer_chunk "harm.";
       Ev_done].
Proof.
  refine (proj1 (resumed_run_without_results search_down_env "t1" sample_plan
                   "tides" suspended_world suspended_checkpoint
                   eq_refl eq_refl (lookup_singleton_eq _ _) eq_refl eq_refl
                   _)).
  vm_compute. reflexivity.
Defined.

Lemma failed_summary_keeps_results_witness :
  (chat_continue_endpoint llm_down_env
     (Object {| cont_thread_id := Some "t1";
              cont_research_plan := Some sample_plan |})
     suspended_world).1
  = StreamingResponse
      [Ev_raw_research_results sample_results;
       Ev_error (CollaboratorError "llm unavailable")].
Proof.
  refine (proj1 (failed_summary_keeps_results llm_down_env "t1" sample_plan
                   "tides" suspended_world suspended_checkpoint sample_results
                   (CollaboratorError "llm unavailable")
                   eq_refl eq_refl (lookup_singleton_eq _ _) eq_refl eq_refl
                   _ _ eq_refl)).
  - vm_compute. reflexivity.
  - discriminate.
Defined.

Lemma resumed_run_completes_when_llm_answers_witness :
  let r :=
    chat_continue_endpoint sample_env
      (Object {| cont_thread_id := Some "t1";
               cont_research_plan := Some sample_plan |})
      suspended_world in
  ∃ rs s f chunks ck',
    r.1 = StreamingResponse
            ([Ev_raw_research_results rs; Ev_summary s;
              Ev_fact_check_results f; Ev_final_answer_start]
             ++ map Ev_final_answer_chunk chunks ++ [Ev_done]) ∧
    store r.2 !! "t1" = Some ck' ∧
    next_node (research_graph sample_env) (last_node ck') (values ck')
    = Some END.
Proof.
  apply (resumed_run_completes_when_llm_answers sample_env "t1" sample_plan
           "tides" suspended_world suspended_checkpoint
           eq_refl eq_refl (lookup_singleton_eq _ _) eq_refl eq_refl).
  - intros l p v. destruct p; eexists; reflexivity.
  - intros l p v. reflexivity.
Defined.

Lemma recursion_limit_never_reached_witness :
  async_for (research_graph sample_env) "t1"
    (continue_body_of_loop sample_env) 4 true suspended_world
  = async_for (research_graph sample_env) "t1"
      (continue_body_of_loop sample_env) recursion_limit true suspended_world.
Proof.
  apply (recursion_limit_never_reached sample_env "t1"
           (continue_body_of_loop sample_env) 4 true suspended_world).
  lia.
Defined.

Lemma endpoints_never_assign_original_query_witness :
  original_query ∘ values <$>
    store (chat_endpoint sample_env "fresh"
             (Object {| req_query := Some "tides"; req_thread_id := None |})
             {| store := ∅; log := [] |}).2 !! "fresh"
  = Some None.
Proof.
  pose proof (proj1 (endpoints_never_assign_original_query sample_env "fresh"
                       (Object {| req_query := Some "tides";
                                req_thread_id := None |})
                       NotJSON {| store := ∅; log := [] |}
                       (empty_store_lacks_original_query []))) as H.
  destruct (store _ !! "fresh") as [ck|] eqn:E.
  - cbn [fmap option_fmap option_map compose]. by rewrite (H "fresh" ck E).
  - vm_compute in E. discriminate E.
Defined.

Lemma plan_turn_never_awaits_approval_witness :
  (chat_endpoint sample_env "t2"
     (Object {| req_query := Some "Impact of microplastics on marine life";
                req_thread_id := None |})
     (serve_all sample_env
        [ChatRequest "t1" first_contact;
         ContinueRequest
           (Object {| cont_thread_id := Some "t1";
                      cont_research_plan := Some "1. Edited" |})]
        {| store := ∅; log := [] |}).2).1
  = StreamingResponse
      [Ev_thread_id "t2"; Ev_error (KeyError "original_query")].
Proof.
  exact (proj1 (plan_turn_never_awaits_approval sample_env
                  [ChatRequest "t1" first_contact;
                   ContinueRequest
                     (Object {| cont_thread_id := Some "t1";
                                cont_research_plan := Some "1. Edited" |})]
                  "t2"
                  {| req_query := Some "Impact of microplastics on marine life";
                     req_thread_id := None |}
                  [] eq_refl)).
Defined.
